(** * rhc-insights: the collector library and its run pipeline

    A shallow embedding of [collector.go] (package [insights]) and of the
    [run] action of [cmd/rhc-collector.go], with the properties of the
    specification stated against it.

    The Go code is a sequence of calls into the operating system: files,
    directories, a clock, a subprocess.  The embedding keeps the Go
    functions as they are written and threads a [World] through them with
    a small state-and-error monad.  What the program cannot decide (whether
    a write fails, what the subprocess returns, what the TOML library makes
    of a document) is read from an [Env] of oracles. *)

From stdpp Require Import base gmap strings list sorting pretty.
From Stdlib Require Import ZArith Lia Ascii.

Local Open Scope Z_scope.

(* ===================================================================== *)
(** ** Strings *)
(* ===================================================================== *)

(** [strings.Split(s, sep)] for a separator of one byte, the only use in
    the source ([strings.Split(cmd, " ")]): the pieces between the
    occurrences of [sep], one more than there are occurrences. *)
Fixpoint strings_Split (sep : ascii) (s : string) : list string :=
  match s with
  | EmptyString => [EmptyString]
  | String c r =>
      if Ascii.eqb c sep then EmptyString :: strings_Split sep r
      else match strings_Split sep r with
           | [] => [String c EmptyString]
           | h :: t => String c h :: t
           end
  end.

(** [strings.Join(elems, sep)]. *)
Fixpoint strings_Join (elems : list string) (sep : string) : string :=
  match elems with
  | [] => ""
  | [x] => x
  | x :: rest => x +:+ sep +:+ strings_Join rest sep
  end.

(** [strings.HasPrefix(s, prefix)]. *)
Fixpoint strings_HasPrefix (s prefix : string) {struct prefix} : bool :=
  match prefix, s with
  | EmptyString, _ => true
  | String a p, String b r => Ascii.eqb a b && strings_HasPrefix r p
  | String _ _, EmptyString => false
  end.

(** [strings.ContainsRune(s, c)] for a byte [c]. *)
Fixpoint strings_ContainsByte (s : string) (c : ascii) : bool :=
  match s with
  | EmptyString => false
  | String a r => Ascii.eqb a c || strings_ContainsByte r c
  end.

(* ===================================================================== *)
(** ** Errors *)
(* ===================================================================== *)

(** The errors of the operating system that the code tells apart
    ([os.IsNotExist]) and the rest. *)
Inductive errno := ENOENT | EISDIR | ENOTDIR | ENOTEMPTY | EINVAL | EIO.

Inductive numerr := ErrSyntax | ErrRange.

(** Go's [error] values, by the type that carries them. *)
Inductive error :=
  | errorString (msg : string)                    (* errors.New, fmt.Errorf *)
  | PathError (op path : string) (e : errno)      (* *fs.PathError *)
  | NumError (func num : string) (e : numerr)     (* *strconv.NumError *)
  | ExitError (code : Z)                          (* *exec.ExitError *)
  | CollaboratorError (msg : string).             (* from Compress, Upload *)

Definition errno_string (e : errno) : string :=
  match e with
  | ENOENT => "no such file or directory"
  | EISDIR => "is a directory"
  | ENOTDIR => "not a directory"
  | ENOTEMPTY => "directory not empty"
  | EINVAL => "invalid argument"
  | EIO => "input/output error"
  end.

(** [err.Error()], what [%v] prints. *)
Definition Error (e : error) : string :=
  match e with
  | errorString m => m
  | PathError op p e => op +:+ " " +:+ p +:+ ": " +:+ errno_string e
  | NumError f n ErrSyntax =>
      "strconv." +:+ f +:+ ": parsing " +:+ n +:+ ": invalid syntax"
  | NumError f n ErrRange =>
      "strconv." +:+ f +:+ ": parsing " +:+ n +:+ ": value out of range"
  | ExitError c => "exit status " +:+ pretty c
  | CollaboratorError m => m
  end.

Definition os_IsNotExist (e : error) : bool :=
  match e with
  | PathError _ _ ENOENT => true
  | _ => false
  end.

Inductive result (A : Type) :=
  | Ok (a : A)
  | Err (e : error).
Arguments Ok {A} a.
Arguments Err {A} e.

(* ===================================================================== *)
(** ** strconv *)
(* ===================================================================== *)

(** [strconv.FormatInt(i, 10)]. *)
Definition strconv_FormatInt (i : Z) : string := pretty i.

Definition digit_of (c : ascii) : option Z :=
  let n := Z.of_N (N_of_ascii c) in
  if (48 <=? n) && (n <=? 57) then Some (n - 48) else None.

Definition maxUint64 : Z := 2 ^ 64 - 1.

(** The loop of [strconv.ParseUint(s, 10, 64)] over the bytes of [s],
    with [n] the value read so far: a byte that is no digit is a syntax
    error, a value that leaves 64 bits is a range error, whichever comes
    first from the left. *)
Fixpoint ParseUint_loop (s : string) (n : Z) : numerr + Z :=
  match s with
  | EmptyString => inr n
  | String c r =>
      match digit_of c with
      | None => inl ErrSyntax
      | Some d =>
          if maxUint64 / 10 + 1 <=? n then inl ErrRange
          else let n1 := n * 10 + d in
               if maxUint64 <? n1 then inl ErrRange
               else ParseUint_loop r n1
      end
  end.

Definition strconv_ParseUint (s : string) : numerr + Z :=
  match s with
  | EmptyString => inl ErrSyntax
  | _ => ParseUint_loop s 0
  end.

(** [strconv.ParseInt(s, 10, 64)]: an optional sign, then [ParseUint],
    then the check against the 63-bit cutoff. *)
Definition strconv_ParseInt (s0 : string) : result Z :=
  let fail k := Err (NumError "ParseInt" s0 k) in
  match s0 with
  | EmptyString => fail ErrSyntax
  | String c r =>
      let neg := Ascii.eqb c "-" in
      let s := if Ascii.eqb c "+" || neg then r else s0 in
      match strconv_ParseUint s with
      | inl ErrSyntax => fail ErrSyntax
      | inl ErrRange => fail ErrRange
      | inr un =>
          let cutoff := 2 ^ 63 in
          if negb neg && (cutoff <=? un) then fail ErrRange
          else if neg && (cutoff <? un) then fail ErrRange
          else Ok (if neg then - un else un)
      end
  end.

(* ===================================================================== *)
(** ** path/filepath *)
(* ===================================================================== *)

Definition Separator : ascii := "/"%char.

Definition filepath_IsAbs (p : string) : bool := strings_HasPrefix p "/".

(** One element of a path against the elements kept so far, last one
    first: the lexical rules of [filepath.Clean]. *)
Definition Clean_step (rooted : bool) (stack : list string)
    (elem : string) : list string :=
  if decide (elem = "" ∨ elem = ".") then stack
  else if decide (elem = "..") then
    match stack with
    | top :: rest =>
        if decide (top = "..") then ".." :: stack else rest
    | [] => if rooted then [] else [".."]
    end
  else elem :: stack.

(** [filepath.Clean(path)]: no empty element, no ".", no ".." that has
    something to cancel; "." for the empty result. *)
Definition filepath_Clean (p : string) : string :=
  let rooted := filepath_IsAbs p in
  let kept := rev (fold_left (Clean_step rooted) (strings_Split Separator p) []) in
  if rooted then "/" +:+ strings_Join kept "/"
  else match kept with
       | [] => "."
       | _ => strings_Join kept "/"
       end.

(** [filepath.Join(elem...)]: the elements from the first non-empty one
    on, joined with the separator and cleaned; "" when all are empty. *)
Fixpoint filepath_Join (elem : list string) : string :=
  match elem with
  | [] => ""
  | e :: rest =>
      if decide (e = "") then filepath_Join rest
      else filepath_Clean (strings_Join elem "/")
  end.

(** The last byte of a string and the string without it. *)
Fixpoint string_last (s : string) : option ascii :=
  match s with
  | EmptyString => None
  | String c EmptyString => Some c
  | String _ r => string_last r
  end.

Fixpoint string_init (s : string) : string :=
  match s with
  | EmptyString => EmptyString
  | String _ EmptyString => EmptyString
  | String c r => String c (string_init r)
  end.

(** [filepath.Split(path)]: the part up to and with the last separator,
    and the part after it. *)
Fixpoint filepath_Split (p : string) : string * string :=
  match p with
  | EmptyString => (EmptyString, EmptyString)
  | String c r =>
      let '(d, f) := filepath_Split r in
      if strings_ContainsByte r Separator then (String c d, f)
      else if Ascii.eqb c Separator then (String c EmptyString, r)
      else (EmptyString, p)
  end.

(** [cleanGlobPath] of [filepath.Glob]. *)
Definition cleanGlobPath (p : string) : string :=
  if decide (p = "") then "."
  else if decide (p = "/") then p
  else string_init p.

(** [hasMeta] of [filepath.Glob]: one of the bytes [*?[\]. *)
Definition hasMeta (p : string) : bool :=
  strings_ContainsByte p "*" || strings_ContainsByte p "?" ||
  strings_ContainsByte p "[" || strings_ContainsByte p "\".

(* ===================================================================== *)
(** ** The data of the library and of the command *)
(* ===================================================================== *)

Record Collector_Meta := {
  ID : string;
  Name : string;
  Feature : string }.

Record Collector_Exec := {
  Command : string;
  ContentType : string;
  UID : Z;
  GID : Z }.

Record Collector_Systemd := {
  Service : string;
  Timer : string }.

Record Collector_Generated := {
  Path : string }.

(** [type Collector struct]. *)
Record Collector := {
  Meta : Collector_Meta;
  Exec : Collector_Exec;
  Systemd : Collector_Systemd;
  Generated : Collector_Generated }.

(** [type CollectorInfoDTO struct]. *)
Record CollectorInfoDTO := {
  dto_ID : string;
  dto_Name : string;
  dto_Feature : string;
  dto_Command : string;
  dto_ContentType : string;
  dto_UID : Z;
  dto_GID : Z;
  dto_DefinitionPath : string;
  dto_SystemdService : string;
  dto_SystemdTimer : string }.

(** [type CollectorRunDTO struct].  The two durations are kept as Go's
    [time.Duration] (nanoseconds); the source stores their [Seconds()]. *)
Record CollectorRunDTO := {
  run_Collector : CollectorInfoDTO;
  run_CollectDuration : Z;
  run_UploadDuration : Z;
  run_Keep : bool;
  run_KeepPath : string;
  run_Upload : bool }.

(** What the [run] action reads from [*cli.Command]. *)
Record RunArgs := {
  arg_collector : string;         (* cmd.StringArgs("collector")[0] *)
  flag_keep : bool;               (* cmd.Bool("keep") *)
  flag_no_upload : bool;          (* cmd.Bool("no-upload") *)
  flag_format : string }.         (* cmd.Value("format") *)

(* ===================================================================== *)
(** ** The world *)
(* ===================================================================== *)

Inductive node :=
  | NDir
  | NFile (data : string).

(** A reading of the clock, [time.Time]: the wall clock and the monotonic
    clock, both in nanoseconds. *)
Record Time := { wall : Z; mono : Z }.

(** [t.Unix()]: the whole seconds of the wall clock. *)
Definition time_Unix (t : Time) : Z := wall t `div` 1000000000.

Inductive level := Debug | Info | Warn | Error_ | Print.

(** A call of [slog] or [log], recorded whatever level the handler in
    place lets through. *)
Record LogRecord := {
  log_level : level;
  log_msg : string;
  log_attrs : list (string * string) }.

Inductive Output :=
  | PrintedRunJSON (dto : CollectorRunDTO)
  | PrintedRunHuman (dto : CollectorRunDTO).

Inductive os_op := OpStat | OpRead | OpWrite | OpMkdir | OpRemove | OpReaddir.

(** How a subprocess ended: it could not be started, or it ran and
    exited with a status, its two streams captured. *)
Inductive proc_result :=
  | StartFailed (msg : string)
  | Exited (code : Z) (out err : string).

(** What the program has asked of its two collaborators: a directory to
    pack, an archive to send with a content type. *)
Inductive Call :=
  | Packed (directory : string)
  | Sent (archive contentType : string).

(** What changes while the program runs: the file system (absolute, clean
    paths to nodes), the number of clock readings made, the log, the
    standard output, and the calls made to the collaborators. *)
Record World := {
  fs : gmap string node;
  ticks : nat;
  logs : list LogRecord;
  stdout : list Output;
  calls : list Call }.

(** What the program is given: its configuration (the package-level
    variables of [collector.go]), its process environment, and the
    answers of everything outside it. *)
Record Env := {
  CONFIGURATIONS_DIR : string;
  COLLECTIONS_DIR : string;
  CACHE_DIR : string;
  cwd : string;
  os_Environ : list string;
  clock : nat → Time;
  (** [toml.Decode(config, &cc)] into a zero [Collector]: [None] for an
      error. *)
  toml_Decode : string → option Collector;
  (** the program started with name, arguments and environment *)
  spawn : string → list string → list string → proc_result;
  (** an operation on a path that fails for a reason outside the model
      (permissions, a full disk, a regular file where a directory of the
      path is expected) *)
  fault : os_op → string → bool;
  (** [filepath.Glob] on a pattern other than [dir/*] with a plain [dir] *)
  glob_other : gmap string node → string → result (list string);
  (** the outcome of packing a directory: the artifact's path, or a failure *)
  pack : string → result string;
  (** the outcome of sending an artifact with a content type *)
  send : string → string → option error }.

Definition COLLECTIONS_DIR_ENVVAR : string := "COLLECTION_DIRECTORY".

Definition set_fs (f : gmap string node → gmap string node) (w : World) : World :=
  {| fs := f (fs w); ticks := ticks w; logs := logs w; stdout := stdout w;
     calls := calls w |}.

Definition add_log (r : LogRecord) (w : World) : World :=
  {| fs := fs w; ticks := ticks w; logs := logs w ++ [r]; stdout := stdout w;
     calls := calls w |}.

Definition add_output (o : Output) (w : World) : World :=
  {| fs := fs w; ticks := ticks w; logs := logs w; stdout := stdout w ++ [o];
     calls := calls w |}.

Definition add_call (c : Call) (w : World) : World :=
  {| fs := fs w; ticks := ticks w; logs := logs w; stdout := stdout w;
     calls := calls w ++ [c] |}.

Definition tick (w : World) : World :=
  {| fs := fs w; ticks := S (ticks w); logs := logs w; stdout := stdout w;
     calls := calls w |}.

(* ===================================================================== *)
(** ** The monad of the program: a world threaded, an error to stop on *)
(* ===================================================================== *)

Definition M (A : Type) : Type := World → result A * World.

Definition ret {A} (a : A) : M A := λ w, (Ok a, w).

Definition fail {A} (e : error) : M A := λ w, (Err e, w).

Definition bind {A B} (m : M A) (k : A → M B) : M B :=
  λ w, match m w with
       | (Ok a, w') => k a w'
       | (Err e, w') => (Err e, w')
       end.

Notation "x <- m ;; k" := (bind m (λ x, k))
  (at level 62, m at next level, right associativity).
Notation "m ;;; k" := (bind m (λ _, k))
  (at level 62, right associativity).

(** [v, err := f()] where the code goes on after looking at [err]. *)
Definition attempt {A} (m : M A) : M (result A) :=
  λ w, let '(r, w') := m w in (Ok r, w').

(** [defer d] before [body]: [d] runs when [body] has returned, whatever
    it returned, and what [d] returns is dropped. *)
Definition defer {A} (d : M unit) (body : M A) : M A :=
  λ w, let '(r, w1) := body w in (r, (d w1).2).

Definition modify (f : World → World) : M unit := λ w, (Ok tt, f w).

Definition slog (l : level) (msg : string) (attrs : list (string * string)) : M unit :=
  modify (add_log {| log_level := l; log_msg := msg; log_attrs := attrs |}).

(** [log.Printf] of the standard logger. *)
Definition log_Printf (line : string) : M unit :=
  modify (add_log {| log_level := Print; log_msg := line; log_attrs := [] |}).

(* ===================================================================== *)
(** ** The operating system *)
(* ===================================================================== *)

Fixpoint strip_prefix (p s : string) {struct p} : option string :=
  match p, s with
  | EmptyString, _ => Some s
  | String a p', String b s' => if Ascii.eqb a b then strip_prefix p' s' else None
  | String _ _, EmptyString => None
  end.

(** The directory [d] as the prefix of the paths of its entries. *)
Definition dir_prefix (d : string) : string :=
  if decide (d = "/") then "/" else d +:+ "/".

(** The name under which [k] is an entry of the directory [d], if it is
    one: one path element, and neither "." nor "..". *)
Definition entry_name (d k : string) : option string :=
  match strip_prefix (dir_prefix d) k with
  | Some n =>
      if decide (n = "" ∨ n = "." ∨ n = "..") then None
      else if strings_ContainsByte n Separator then None
      else Some n
  | None => None
  end.

(** [k] is [d] or lies under it. *)
Definition under (d k : string) : bool :=
  bool_decide (k = d) || strings_HasPrefix k (dir_prefix d).

(** [endsWithDot] of [os.RemoveAll]: the path is "." or ends in "/.". *)
Definition endsWithDot (p : string) : bool :=
  bool_decide (p = ".") ||
  (bool_decide (string_last p = Some "."%char) &&
   bool_decide (string_last (string_init p) = Some "/"%char)).

(** [Readdirnames(-1)] followed by [sort.Strings]. *)
Definition sorted_names (m : gmap string node) (d : string) : list string :=
  merge_sort String.le (omap (entry_name d) (map_to_list m).*1).

Definition has_entries (m : gmap string node) (d : string) : bool :=
  bool_decide (omap (entry_name d) (map_to_list m).*1 ≠ []).

Section Program.

Context (E : Env).

(** [filepath.Abs(path)]; the working directory can always be read. *)
Definition filepath_Abs (p : string) : string :=
  if filepath_IsAbs p then filepath_Clean p
  else filepath_Join [cwd E; p].

(** [time.Now()]: the next reading of the clock. *)
Definition time_Now : M Time :=
  λ w, (Ok (clock E (ticks w)), tick w).

(** [time.Since(t)], on the monotonic clock. *)
Definition time_Since (t : Time) : M Z :=
  now <- time_Now ;; ret (mono now - mono t).

(** The file operations resolve their path against the working directory
    and look at the node there; there are no symbolic links.  The empty
    path names no file: [os.Stat] of it is [ENOENT].  The nodes above a
    path are not looked at: a path with a regular file above it is one
    of those the environment fails. *)
Definition os_Stat (p : string) : M node :=
  λ w, if decide (p = "") then (Err (PathError "stat" p ENOENT), w)
       else
         let q := filepath_Abs p in
         if fault E OpStat q then (Err (PathError "stat" p EIO), w)
         else match fs w !! q with
              | Some n => (Ok n, w)
              | None => (Err (PathError "stat" p ENOENT), w)
              end.

Definition os_ReadFile (p : string) : M string :=
  λ w, let q := filepath_Abs p in
       if fault E OpRead q then (Err (PathError "open" p EIO), w)
       else match fs w !! q with
            | Some (NFile data) => (Ok data, w)
            | Some NDir => (Err (PathError "read" p EISDIR), w)
            | None => (Err (PathError "open" p ENOENT), w)
            end.

(** [os.WriteFile(name, data, perm)]: the file is created or truncated.
    The directory it is written in is taken to be there; where it is not,
    the write is one of those the environment fails. *)
Definition os_WriteFile (p data : string) : M unit :=
  λ w, let q := filepath_Abs p in
       if fault E OpWrite q then (Err (PathError "open" p EIO), w)
       else match fs w !! q with
            | Some NDir => (Err (PathError "open" p EISDIR), w)
            | _ => (Ok tt, set_fs <[q := NFile data]> w)
            end.

(** [os.MkdirAll(path, perm)]: nothing to do for a directory that is
    there, an error for a file in its place.  The parents are taken to be
    there already; only the directory itself is recorded. *)
Definition os_MkdirAll (p : string) : M unit :=
  λ w, let q := filepath_Abs p in
       match fs w !! q with
       | Some NDir => (Ok tt, w)
       | Some (NFile _) => (Err (PathError "mkdir" p ENOTDIR), w)
       | None =>
           if fault E OpMkdir q then (Err (PathError "mkdir" p EIO), w)
           else (Ok tt, set_fs <[q := NDir]> w)
       end.

(** [os.RemoveAll(path)]: the path and everything under it; no error for
    the empty path nor for a path that is not there, and a refusal for a
    path that ends in a dot. *)
Definition os_RemoveAll (p : string) : M unit :=
  λ w, if decide (p = "") then (Ok tt, w)
       else if endsWithDot p then (Err (PathError "RemoveAll" p EINVAL), w)
       else let q := filepath_Abs p in
            if fault E OpRemove q then (Err (PathError "unlinkat" p EIO), w)
            else (Ok tt, set_fs (filter (λ kv, under q kv.1 = false)) w).

(** [os.Remove(name)]: a file, or a directory with nothing in it. *)
Definition os_Remove (p : string) : M unit :=
  λ w, let q := filepath_Abs p in
       if fault E OpRemove q then (Err (PathError "remove" p EIO), w)
       else match fs w !! q with
            | None => (Err (PathError "remove" p ENOENT), w)
            | Some NDir =>
                if has_entries (fs w) q then (Err (PathError "remove" p ENOTEMPTY), w)
                else (Ok tt, set_fs (delete q) w)
            | Some (NFile _) => (Ok tt, set_fs (delete q) w)
            end.

(** [glob(dir, "*", nil)] of [filepath.Glob]: every entry of [dir] in
    the order of [sort.Strings], joined to [dir]; nothing when [dir] is no
    directory or cannot be listed, since I/O errors are ignored there. *)
Definition glob (dir : string) : M (list string) :=
  r <- attempt (os_Stat dir) ;;
  match r with
  | Ok NDir =>
      λ w, let q := filepath_Abs dir in
           if fault E OpReaddir q then (Ok [], w)
           else (Ok ((λ n, filepath_Join [dir; n]) <$> sorted_names (fs w) q), w)
  | _ => ret []
  end.

(** [filepath.Glob(pattern)].  The source calls it on
    [Join(CONFIGURATIONS_DIR, "*")]: for a pattern [dir/*] whose [dir] has
    no pattern byte this is Go's code path; any other pattern is answered
    by the environment. *)
Definition filepath_Glob (pattern : string) : M (list string) :=
  let '(dir, file) := filepath_Split pattern in
  let dir := cleanGlobPath dir in
  if hasMeta dir || negb (bool_decide (file = "*"))
  then λ w, (glob_other E (fs w) pattern, w)
  else glob dir.

(** [cmd.Run()] of the command built by [exec.Command(name, args...)] with
    the environment [env]: the error, and the captured standard output and
    standard error.  A command without a path is refused before anything
    is started.  What the program started does to the files is its own
    and is not followed: the world is the one the library and the command
    line leave. *)
Definition exec_Run (name : string) (args env : list string)
    : option error * string * string :=
  if decide (name = "") then (Some (errorString "exec: no command"), "", "")
  else match spawn E name args env with
       | StartFailed msg => (Some (errorString msg), "", "")
       | Exited code out err =>
           (if decide (code = 0) then None else Some (ExitError code), out, err)
       end.

(* ===================================================================== *)
(** ** collector.go *)
(* ===================================================================== *)

Definition set_Generated_Path (cc : Collector) (path : string) : Collector :=
  {| Meta := Meta cc; Exec := Exec cc; Systemd := Systemd cc;
     Generated := {| Path := path |} |}.

(** [newCollectorFromConfiguration] parses the content of the
    configuration file into [Collector]. *)
Definition newCollectorFromConfiguration (path config : string) : M Collector :=
  match toml_Decode E config with
  | None =>
      slog Error_ "cannot parse collector configuration" [("path", path)] ;;;
      fail (errorString "cannot parse collector configuration")
  | Some cc =>
      slog Debug "collector parsed" [("id", ID (Meta cc)); ("path", path)] ;;;
      ret (set_Generated_Path cc path)
  end.

(** [newCollectorFromPath] loads a collector definition from [path]. *)
Definition newCollectorFromPath (path : string) : M Collector :=
  let path := filepath_Abs path in
  st <- attempt (os_Stat path) ;;
  match st with
  | Err _ =>
      slog Error_ "no such collector" [("path", path)] ;;;
      fail (errorString "no such collector")
  | Ok _ =>
      rd <- attempt (os_ReadFile path) ;;
      match rd with
      | Err _ =>
          slog Error_ "cannot read collector configuration" [("path", path)] ;;;
          fail (errorString ("cannot read collector configuration from '" +:+ path +:+ "'"))
      | Ok data => newCollectorFromConfiguration path data
      end
  end.

(** [ensureCollectorsDirectory] raises an error if [CONFIGURATIONS_DIR]
    does not exist. *)
Definition ensureCollectorsDirectory : M unit :=
  st <- attempt (os_Stat (CONFIGURATIONS_DIR E)) ;;
  match st with
  | Err e =>
      if os_IsNotExist e then
        let line := "configuration directory '" +:+ CONFIGURATIONS_DIR E +:+ "' not found" in
        log_Printf line ;;; fail (errorString line)
      else ret tt
  | Ok _ => ret tt
  end.

(** [GetCollector] loads collector definition from [CONFIGURATIONS_DIR]. *)
Definition GetCollector (id : string) : M Collector :=
  ensureCollectorsDirectory ;;;
  newCollectorFromPath (filepath_Join [CONFIGURATIONS_DIR E; id +:+ ".toml"]).

(** The [for _, file := range configurations] of [GetCollectors]. *)
Fixpoint GetCollectors_loop (configurations : list string)
    (collectors : list Collector) : M (list Collector) :=
  match configurations with
  | [] => ret collectors
  | file :: rest =>
      r <- attempt (newCollectorFromPath file) ;;
      match r with
      | Err err =>
          log_Printf ("collector '" +:+ file +:+ "' is malformed, skipping: " +:+ Error err) ;;;
          GetCollectors_loop rest collectors
      | Ok config => GetCollectors_loop rest (collectors ++ [config])
      end
  end.

(** [GetCollectors] loads collector definitions from [CONFIGURATIONS_DIR]. *)
Definition GetCollectors : M (list Collector) :=
  ensureCollectorsDirectory ;;;
  g <- attempt (filepath_Glob (filepath_Join [CONFIGURATIONS_DIR E; "*"])) ;;
  match g with
  | Err _ =>
      let line := "cannot scan " +:+ CONFIGURATIONS_DIR E in
      log_Printf line ;;; fail (errorString line)
  | Ok configurations => GetCollectors_loop configurations []
  end.

Definition generateCollectionDirectory (collector : Collector) : M string :=
  now <- time_Now ;;
  let path := filepath_Join [COLLECTIONS_DIR E;
                ID (Meta collector) +:+ "-" +:+ strconv_FormatInt (time_Unix now)] in
  mk <- attempt (os_MkdirAll path) ;;
  match mk with
  | Err _ =>
      slog Error_ "cannot create collector directory"
        [("id", ID (Meta collector)); ("err", "err")] ;;;
      fail (errorString "cannot create collector directory")
  | Ok _ =>
      slog Debug "generated collection directory" [("path", path)] ;;;
      ret path
  end.

Definition cache_file (c : Collector) : string :=
  filepath_Join [CACHE_DIR E; ID (Meta c) +:+ ".last-run"].

Definition SetLastRun (c : Collector) : M unit :=
  t <- time_Now ;;
  let now := strconv_FormatInt (time_Unix t) in
  os_WriteFile (cache_file c) now.

(** [GetLastRun]; the [time.Time] returned is given by its Unix seconds. *)
Definition GetLastRun (c : Collector) : M Z :=
  let file := cache_file c in
  raw <- os_ReadFile file ;;
  match strconv_ParseInt raw with
  | Err err =>
      slog Warn "cannot parse timestamp" [("file", file); ("err", Error err)] ;;;
      fail err
  | Ok i => ret i
  end.

Definition command_name (collector : Collector) : string :=
  hd "" (strings_Split " " (Command (Exec collector))).

Definition command_args (collector : Collector) : list string :=
  tl (strings_Split " " (Command (Exec collector))).

(** [Collect] instructs the collector to dump data into a temporary
    directory created inside [COLLECTIONS_DIR].  Returns path to the
    temporary directory, where the data has been dumped, or an error. *)
Definition Collect (collector : Collector) : M string :=
  let name := command_name collector in
  let args := command_args collector in
  let env := os_Environ E in
  tempdir <- generateCollectionDirectory collector ;;
  let env := env ++ [COLLECTIONS_DIR_ENVVAR +:+ "=" +:+ tempdir] in
  slog Debug "executing" [("cmd", strings_Join (name :: args) " ")] ;;;
  let '(err, stdoutBuffer, stderrBuffer) := exec_Run name args env in
  match err with
  | Some err =>
      slog Error_ "could not run collector"
        [("err", Error err); ("stderr", stderrBuffer)] ;;;
      fail (errorString ("could not run collector: " +:+ Error err))
  | None =>
      sl <- attempt (SetLastRun collector) ;;
      match sl with
      | Err err =>
          slog Error_ "cannot update collection timestamp"
            [("id", ID (Meta collector)); ("err", Error err)]
      | Ok _ => ret tt
      end ;;;
      ret tempdir
  end.

(* ===================================================================== *)
(** ** The collaborators of the run: packing and sending *)
(* ===================================================================== *)

(** Modelled from the spec: [Compress] is called by [doRun] and defined in
    a file of the package that is not part of the sources at hand.  The
    spec gives its contract, [pack(directoryPath) -> artifactPath |
    PackagingFailed]: on success a single artifact exists at the returned
    path, on failure nothing is returned.  That it was called is kept in
    the world. *)
Definition Compress (directory : string) : M string :=
  λ w, match pack E directory with
       | Ok archive =>
           (Ok archive,
            add_call (Packed directory) (set_fs <[filepath_Abs archive := NFile ""]> w))
       | Err e => (Err e, add_call (Packed directory) w)
       end.

(** Modelled from the spec: [Upload] is called by [doRun] and defined in a
    file of the package that is not part of the sources at hand.  The spec
    gives its contract, [upload(artifactPath, contentType) -> success |
    UploadFailed]; it leaves the files alone.  That it was called, and
    with what, is kept in the world. *)
Definition Upload (archive contentType : string) : M unit :=
  λ w, match send E archive contentType with
       | None => (Ok tt, add_call (Sent archive contentType) w)
       | Some e => (Err e, add_call (Sent archive contentType) w)
       end.

(* ===================================================================== *)
(** ** cmd/rhc-collector.go: the [run] action *)
(* ===================================================================== *)

Definition NewCollectorInfoDTO (collector : Collector) : M CollectorInfoDTO :=
  ret {| dto_ID := ID (Meta collector);
         dto_Name := Name (Meta collector);
         dto_Feature := Feature (Meta collector);
         dto_Command := Command (Exec collector);
         dto_ContentType := ContentType (Exec collector);
         dto_UID := UID (Exec collector);
         dto_GID := GID (Exec collector);
         dto_DefinitionPath := Path (Generated collector);
         dto_SystemdService := Service (Systemd collector);
         dto_SystemdTimer := Timer (Systemd collector) |}.

Definition printRunJSON (dto : CollectorRunDTO) : M unit :=
  modify (add_output (PrintedRunJSON dto)).

Definition printRunHuman (dto : CollectorRunDTO) : M unit :=
  modify (add_output (PrintedRunHuman dto)).

(** The first [defer] of [doRun]: the temporary directory is kept or
    wiped. *)
Definition doRun_wipe_tempdir (keep : bool) (tempdir : string) : M unit :=
  if keep then slog Debug "keeping temporary directory" [("path", tempdir)]
  else
    rm <- attempt (os_RemoveAll tempdir) ;;
    match rm with
    | Ok _ => slog Debug "wiped temporary directory" [("path", tempdir)]
    | Err err =>
        slog Warn "didn't wipe temporary directory"
          [("path", tempdir); ("err", Error err)]
    end.

(** The second [defer] of [doRun]: the archive is wiped. *)
Definition doRun_wipe_archive (archive : string) : M unit :=
  rm <- attempt (os_Remove archive) ;;
  match rm with
  | Ok _ => slog Debug "wiped archive" [("path", archive)]
  | Err err =>
      slog Warn "did not wipe archive" [("path", archive); ("err", Error err)]
  end.

(** The end of [doRun]: the summary is built and printed. *)
Definition doRun_report (cmd : RunArgs) (collectorInfo : CollectorInfoDTO)
    (collectDelta uploadDelta : Z) (keep upload : bool) (tempdir : string) : M unit :=
  let dto := {| run_Collector := collectorInfo;
                run_CollectDuration := collectDelta;
                run_UploadDuration := uploadDelta;
                run_Keep := keep;
                run_KeepPath := if keep then tempdir else "";
                run_Upload := upload |} in
  if decide (flag_format cmd = "json") then printRunJSON dto
  else printRunHuman dto.

(** [doRun].  Both deferred functions are registered on the function, so
    they run after the summary is printed, the archive's first. *)
Definition doRun (cmd : RunArgs) : M unit :=
  gc <- attempt (GetCollector (arg_collector cmd)) ;;
  match gc with
  | Err err =>
      slog Error_ "could not find collector" [("error", Error err)] ;;;
      fail err
  | Ok collector =>
      collectorInfo <- NewCollectorInfoDTO collector ;;
      let keep := flag_keep cmd || flag_no_upload cmd in
      let upload := negb (flag_no_upload cmd) in
      collectStart <- time_Now ;;
      co <- attempt (Collect collector) ;;
      collectDelta <- time_Since collectStart ;;
      slog Debug "execution finished"
        [("collector", ID (Meta collector)); ("time", pretty collectDelta)] ;;;
      let tempdir := match co with Ok t => t | Err _ => "" end in
      defer (doRun_wipe_tempdir keep tempdir)
        match co with
        | Err err => fail err
        | Ok _ =>
            if upload then
              archive <- Compress tempdir ;;
              defer (doRun_wipe_archive archive)
                (uploadSince <- time_Now ;;
                 up <- attempt (Upload archive (ContentType (Exec collector))) ;;
                 uploadDelta <- time_Since uploadSince ;;
                 match up with
                 | Err err => fail err
                 | Ok _ =>
                     doRun_report cmd collectorInfo collectDelta uploadDelta
                       keep upload tempdir
                 end)
            else
              doRun_report cmd collectorInfo collectDelta 0 keep upload tempdir
        end
  end.

End Program.

(** The elements [filepath.Clean] keeps of a path, last one first, and
    the path written from such elements. *)
Definition Clean_stack (p : string) : list string :=
  fold_left (Clean_step (filepath_IsAbs p)) (strings_Split Separator p) [].

Definition render (rooted : bool) (stack : list string) : string :=
  if rooted then "/" +:+ strings_Join (rev stack) "/"
  else match rev stack with
       | [] => "."
       | _ => strings_Join (rev stack) "/"
       end.

(** What a stack of kept elements looks like: no element is empty or
    ".", and a ".." sits at the front of a relative path only. *)
Fixpoint stack_ok (rooted : bool) (stack : list string) : Prop :=
  match stack with
  | [] => True
  | top :: rest =>
      top ≠ "" ∧ top ≠ "." ∧
      (top = ".." → rooted = false ∧ match rest with [] => True | t :: _ => t = ".." end) ∧
      stack_ok rooted rest
  end.

(** A name that is one element of a path. *)
Definition plain_name (n : string) : Prop :=
  n ≠ "" ∧ n ≠ "." ∧ n ≠ ".." ∧ strings_ContainsByte n Separator = false.

(** What loading the file [file] gives in the world [w], and the line
    [GetCollectors] logs for a file that does not load. *)
Definition load (E : Env) (w : World) (file : string) : option Collector :=
  match (newCollectorFromPath E file w).1 with
  | Ok c => Some c
  | Err _ => None
  end.

Definition skipped_record (file : string) (e : error) : LogRecord :=
  {| log_level := Print;
     log_msg := "collector '" +:+ file +:+ "' is malformed, skipping: " +:+ Error e;
     log_attrs := [] |}.

(** The path [GetCollector] reads the definition [id] from. *)
Definition definition_path (E : Env) (id : string) : string :=
  filepath_Abs E (filepath_Join [CONFIGURATIONS_DIR E; id +:+ ".toml"]).

(** The directory [generateCollectionDirectory] names in the world [w]:
    the collector's id and the seconds of the next clock reading. *)
Definition tempdir_at (E : Env) (c : Collector) (w : World) : string :=
  filepath_Join [COLLECTIONS_DIR E;
    ID (Meta c) +:+ "-" +:+ strconv_FormatInt (time_Unix (clock E (ticks w)))].

(** The environment [Collect] gives the subprocess, and the two records
    it logs around the run. *)
Definition collect_env (E : Env) (tempdir : string) : list string :=
  os_Environ E ++ [COLLECTIONS_DIR_ENVVAR +:+ "=" +:+ tempdir].

Definition executing_record (c : Collector) : LogRecord :=
  {| log_level := Debug; log_msg := "executing";
     log_attrs := [("cmd", strings_Join (command_name c :: command_args c) " ")] |}.

Definition run_failed_record (e : error) (stderr : string) : LogRecord :=
  {| log_level := Error_; log_msg := "could not run collector";
     log_attrs := [("err", Error e); ("stderr", stderr)] |}.

Definition parsed_record (c : Collector) (path : string) : LogRecord :=
  {| log_level := Debug; log_msg := "collector parsed";
     log_attrs := [("id", ID (Meta c)); ("path", path)] |}.

Definition timestamp_failed_record (c : Collector) (e : error) : LogRecord :=
  {| log_level := Error_; log_msg := "cannot update collection timestamp";
     log_attrs := [("id", ID (Meta c)); ("err", Error e)] |}.

(** What a summary looks like on the standard output, by the format
    asked for. *)
Definition printed (cmd : RunArgs) (dto : CollectorRunDTO) : Output :=
  if decide (flag_format cmd = "json") then PrintedRunJSON dto
  else PrintedRunHuman dto.

(* ===================================================================== *)
(** ** A host to run the definitions on *)
(* ===================================================================== *)

Definition blank_systemd : Collector_Systemd := {| Service := ""; Timer := "" |}.

Definition mk_collector (id command : string) : Collector :=
  {| Meta := {| ID := id; Name := ""; Feature := "" |};
     Exec := {| Command := command; ContentType := "application/x-tar";
                UID := 0; GID := 0 |};
     Systemd := blank_systemd;
     Generated := {| Path := "" |} |}.

(** A definition without an [exec] table: every field of it is zero. *)
Definition mk_noexec (id : string) : Collector :=
  {| Meta := {| ID := id; Name := ""; Feature := "" |};
     Exec := {| Command := ""; ContentType := ""; UID := 0; GID := 0 |};
     Systemd := blank_systemd;
     Generated := {| Path := "" |} |}.

(** Six definition documents: a sound one, one whose command is empty,
    one without the [exec] table, one whose [meta.id] is not its file's
    name, one whose command exits with status 1, and one that is kept in
    a directory below the directory of definitions. *)
Definition doc_mock : string := "[meta]
id = 'mock'
[exec]
command = 'echo hi'
content_type = 'application/x-tar'
".
Definition doc_empty : string := "[meta]
id = 'empty'
[exec]
command = ''
content_type = 'application/x-tar'
".
Definition doc_noexec : string := "[meta]
id = 'noexec'
".
Definition doc_other : string := "[meta]
id = 'other'
[exec]
command = 'echo hi'
content_type = 'application/x-tar'
".
Definition doc_false : string := "[meta]
id = 'bad'
[exec]
command = 'false'
content_type = 'application/x-tar'
".
Definition doc_nested : string := "[meta]
id = 'nested'
[exec]
command = 'echo hi'
content_type = 'application/x-tar'
".

(** What the TOML library makes of these documents; everything else on
    this host is no TOML. *)
Definition host_Decode (config : string) : option Collector :=
  if decide (config = doc_mock) then Some (mk_collector "mock" "echo hi")
  else if decide (config = doc_empty) then Some (mk_collector "empty" "")
  else if decide (config = doc_noexec) then Some (mk_noexec "noexec")
  else if decide (config = doc_other) then Some (mk_collector "other" "echo hi")
  else if decide (config = doc_false) then Some (mk_collector "bad" "false")
  else if decide (config = doc_nested) then Some (mk_collector "nested" "echo hi")
  else None.

(** [echo] exits with 0; anything else exits with 1 and writes [stderr]
    to its standard error. *)
Definition host_spawn (stderr : string) (name : string) (args env : list string)
    : proc_result :=
  if decide (name = "echo") then Exited 0 (strings_Join args " ") ""
  else Exited 1 "" stderr.

Definition host_clock (n : nat) : Time :=
  {| wall := 1700000000500000000 + 100000000 * Z.of_nat n;
     mono := 100000000 * Z.of_nat n |}.

(** The configuration of [cmd/rhc-collector.go] ([./collectors.d/]) and
    the defaults of the library for the other two directories. *)
Definition host (stderr : string) (faults : os_op → string → bool)
    (packed : string → result string) (sent : string → string → option error) : Env :=
  {| CONFIGURATIONS_DIR := "./collectors.d/";
     COLLECTIONS_DIR := "/tmp/";
     CACHE_DIR := "/tmp/";
     cwd := "/root";
     os_Environ := ["PATH=/usr/bin"];
     clock := host_clock;
     toml_Decode := host_Decode;
     spawn := host_spawn stderr;
     fault := faults;
     glob_other := λ _ _, Ok [];
     pack := packed;
     send := sent |}.

Definition no_fault : os_op → string → bool := λ _ _, false.

Definition pack_ok (dir : string) : result string := Ok (dir +:+ ".tar.xz").

Definition send_ok (archive contentType : string) : option error := None.

Definition send_refused (archive contentType : string) : option error :=
  Some (CollaboratorError "upload failed").

Definition host0 : Env := host "boom" no_fault pack_ok send_ok.

Definition disk : gmap string node :=
  {[ "/root/collectors.d" := NDir;
     "/root/collectors.d/mock.toml" := NFile doc_mock;
     "/root/collectors.d/empty.toml" := NFile doc_empty;
     "/root/collectors.d/noexec.toml" := NFile doc_noexec;
     "/root/collectors.d/stem.toml" := NFile doc_other;
     "/root/collectors.d/bad.toml" := NFile doc_false;
     "/root/collectors.d/garbage.toml" := NFile "not toml";
     "/root/collectors.d/sub" := NDir;
     "/root/collectors.d/sub/x.toml" := NFile doc_nested;
     "/tmp" := NDir ]}.

Definition boot : World :=
  {| fs := disk; ticks := 0; logs := []; stdout := []; calls := [] |}.

Definition run_args (id : string) (keep no_upload : bool) : RunArgs :=
  {| arg_collector := id; flag_keep := keep; flag_no_upload := no_upload;
     flag_format := "json" |}.

(** The same host with an uploader that refuses, and with a packager
    that fails. *)
Definition host_refusing : Env := host "boom" no_fault pack_ok send_refused.

Definition pack_failed (dir : string) : result string :=
  Err (CollaboratorError "packaging failed").

Definition host_unpacked : Env := host "boom" no_fault pack_failed send_ok.

(** The id and the path of every definition of a result. *)
Definition ids_and_paths (r : result (list Collector)) : list (string * string) :=
  match r with
  | Ok cs => (λ c, (ID (Meta c), Path (Generated c))) <$> cs
  | Err _ => []
  end.

(** The same host where no file can be written. *)
Definition no_write (op : os_op) (path : string) : bool :=
  match op with
  | OpWrite => true
  | _ => false
  end.

Definition host_readonly : Env := host "boom" no_write pack_ok send_ok.

(** The [mock] definition as [GetCollector] returns it, the world after
    it is loaded, and the world after its collect step in [doRun]. *)
Definition mock_loaded : Collector :=
  set_Generated_Path (mk_collector "mock" "echo hi") "/root/collectors.d/mock.toml".

Definition loaded (E : Env) : World := (GetCollector E "mock" boot).2.

Definition collected (E : Env) : World :=
  (Collect E mock_loaded (tick (loaded E))).2.

(* ===================================================================== *)
(** ** cmd/rhc-collector.go: the actions other than [run] *)
(* ===================================================================== *)

(** [var ErrorNotImplemented = fmt.Errorf("not implemented")]. *)
Definition ErrorNotImplemented : error := errorString "not implemented".

(** A cell of a table of [rodaine/table]: a string, or a time given by
    its Unix seconds, which the source writes with
    [Format(time.RFC3339)] in the local zone. *)
Inductive cell :=
  | Text (s : string)
  | Stamp (unix : Z).

(** What these actions write to the standard output: the JSON of a value
    ([json.Marshal], then [fmt.Println]), a table ([tbl.Print()]), a line
    ([fmt.Println]).  An entry of a list is a pointer, [None] for [nil]. *)
Inductive Printed :=
  | PrintedInfoJSON (dto : CollectorInfoDTO)
  | PrintedListJSON (dtos : list (option CollectorInfoDTO))
  | PrintedTable (header : list string) (rows : list (list cell))
  | PrintedLine (line : string).

(** The world of the library and, beside it, what these actions have
    written to the standard output; the summaries of [run] are in the
    [stdout] of the world. *)
Record Session := {
  world : World;
  console : list Printed }.

Definition Action (A : Type) : Type := Session → result A * Session.

(** A computation of the library, run inside an action. *)
Definition lift {A} (m : M A) : Action A :=
  λ s, let '(r, w) := m (world s) in (r, {| world := w; console := console s |}).

Definition and_then {A B} (m : Action A) (k : A → Action B) : Action B :=
  λ s, match m s with
       | (Ok a, s') => k a s'
       | (Err e, s') => (Err e, s')
       end.

Definition emit (p : Printed) : Action unit :=
  λ s, (Ok tt, {| world := world s; console := console s ++ [p] |}).

Definition refuse {A} (e : error) : Action A := λ s, (Err e, s).

(** A [nil] pointer dereferenced: the program panics.  No function of the
    source returns this error; it stands for the run that ends there. *)
Definition panic_nil_dereference : error :=
  errorString "panic: runtime error: invalid memory address or nil pointer dereference".

(** The zero value of [CollectorInfoDTO]. *)
Definition zero_CollectorInfoDTO : CollectorInfoDTO :=
  {| dto_ID := ""; dto_Name := ""; dto_Feature := ""; dto_Command := "";
     dto_ContentType := ""; dto_UID := 0; dto_GID := 0; dto_DefinitionPath := "";
     dto_SystemdService := ""; dto_SystemdTimer := "" |}.

(** [printInfoJSON].  [json.Marshal] has no error for a struct of strings
    and unsigned integers. *)
Definition printInfoJSON (dto : CollectorInfoDTO) : Action unit :=
  emit (PrintedInfoJSON dto).

Definition printInfoHuman (dto : CollectorInfoDTO) : Action unit :=
  refuse ErrorNotImplemented.

(** [printListJSON]; a [nil] entry is marshalled as [null], without
    error. *)
Definition printListJSON (dtos : list (option CollectorInfoDTO)) : Action unit :=
  emit (PrintedListJSON dtos).

(** The rows [printListHuman] adds, one for each entry; there is none to
    add for a [nil] entry, whose [ID] cannot be read. *)
Fixpoint printListHuman_rows (dtos : list (option CollectorInfoDTO))
    : option (list (list cell)) :=
  match dtos with
  | [] => Some []
  | Some collector :: rest =>
      match printListHuman_rows rest with
      | Some rows => Some ([Text (dto_ID collector); Text (dto_Name collector)] :: rows)
      | None => None
      end
  | None :: _ => None
  end.

Definition printListHuman (dtos : list (option CollectorInfoDTO)) : Action unit :=
  match printListHuman_rows dtos with
  | Some rows => emit (PrintedTable ["ID"; "NAME"] rows)
  | None => refuse panic_nil_dereference
  end.

Section Actions.

Context (E : Env).

(** [doInfo].  The error of [NewCollectorInfoDTO] is logged and the
    action goes on with the value returned beside it. *)
Definition doInfo (cmd : RunArgs) : Action unit :=
  and_then
    (lift
       (gc <- attempt (GetCollector E (arg_collector cmd)) ;;
        match gc with
        | Err err =>
            slog Error_ "could not find collector" [("error", Error err)] ;;;
            fail err
        | Ok collector =>
            r <- attempt (NewCollectorInfoDTO collector) ;;
            match r with
            | Err err =>
                slog Error_ "could not parse collector" [("error", Error err)] ;;;
                ret zero_CollectorInfoDTO
            | Ok dto => ret dto
            end
        end))
    (λ dto,
       if decide (flag_format cmd = "json") then printInfoJSON dto
       else printInfoHuman dto).

(** The [for i, collector := range collectors] of [doList]: the entry
    [i] of [dtos] is set when the collector [i] is converted. *)
Fixpoint doList_loop (i : nat) (collectors : list Collector)
    (dtos : list (option CollectorInfoDTO)) : M (list (option CollectorInfoDTO)) :=
  match collectors with
  | [] => ret dtos
  | collector :: rest =>
      r <- attempt (NewCollectorInfoDTO collector) ;;
      match r with
      | Err err =>
          slog Error_ "could not parse collector" [("error", Error err)] ;;;
          doList_loop (S i) rest dtos
      | Ok dto => doList_loop (S i) rest (<[i := Some dto]> dtos)
      end
  end.

(** [doList]; [make([]*CollectorInfoDTO, len(collectors))] is a list of
    as many [nil] entries. *)
Definition doList (cmd : RunArgs) : Action unit :=
  and_then
    (lift
       (gc <- attempt (GetCollectors E) ;;
        match gc with
        | Err err =>
            slog Error_ "could not find collectors" [("error", Error err)] ;;;
            fail err
        | Ok collectors =>
            doList_loop 0 collectors (replicate (length collectors) None)
        end))
    (λ dtos,
       if decide (flag_format cmd = "json") then printListJSON dtos
       else printListHuman dtos).

(** The [for _, collector := range collectors] of [doPsHuman], with the
    rows added to the table so far. *)
Fixpoint doPsHuman_loop (collectors : list Collector) (rows : list (list cell))
    : M (list (list cell)) :=
  match collectors with
  | [] => ret rows
  | collector :: rest =>
      r <- attempt (GetLastRun E collector) ;;
      let last := match r with
                  | Err _ => Text "-"
                  | Ok lastTimestamp => Stamp lastTimestamp
                  end in
      doPsHuman_loop rest (rows ++ [[Text (ID (Meta collector)); last; Text ""]])
  end.

Definition doPsHuman (cmd : RunArgs) : Action unit :=
  and_then
    (lift (collectors <- GetCollectors E ;; doPsHuman_loop collectors []))
    (λ rows,
       and_then (emit (PrintedTable ["ID"; "LAST"; "NEXT"] rows)) (λ _,
       and_then (emit (PrintedLine "")) (λ _,
       emit (PrintedLine
                "Hint: Run 'rhc collector info COLLECTOR' to show more details.")))).

Definition doPs (cmd : RunArgs) : Action unit :=
  if decide (flag_format cmd = "json") then refuse ErrorNotImplemented
  else doPsHuman cmd.

Definition doEnable (cmd : RunArgs) : Action unit := refuse ErrorNotImplemented.

Definition doDisable (cmd : RunArgs) : Action unit := refuse ErrorNotImplemented.

End Actions.

(** *** What the properties of the library and the actions are stated with *)

(** The summary of a definition, as [NewCollectorInfoDTO] returns it, and
    what the [timers] table shows for its last run in a world. *)
Definition info_of (c : Collector) : CollectorInfoDTO :=
  {| dto_ID := ID (Meta c);
     dto_Name := Name (Meta c);
     dto_Feature := Feature (Meta c);
     dto_Command := Command (Exec c);
     dto_ContentType := ContentType (Exec c);
     dto_UID := UID (Exec c);
     dto_GID := GID (Exec c);
     dto_DefinitionPath := Path (Generated c);
     dto_SystemdService := Service (Systemd c);
     dto_SystemdTimer := Timer (Systemd c) |}.

Definition last_cell (E : Env) (w : World) (c : Collector) : cell :=
  match (GetLastRun E c w).1 with
  | Ok i => Stamp i
  | Err _ => Text "-"
  end.

(** The rows of the two tables, and the last line of [timers]. *)
Definition list_row (c : Collector) : list cell :=
  [Text (ID (Meta c)); Text (Name (Meta c))].

Definition timers_row (E : Env) (w : World) (c : Collector) : list cell :=
  [Text (ID (Meta c)); last_cell E w c; Text ""].

Definition timers_hint : string :=
  "Hint: Run 'rhc collector info COLLECTOR' to show more details.".

(** Between two worlds nothing happened but logging. *)
Definition quiet (w w' : World) : Prop :=
  fs w' = fs w ∧ ticks w' = ticks w ∧ stdout w' = stdout w ∧
  logs w `prefix_of` logs w'.

(** Records of the log: a directory wiped, a collector or the collectors
    not found, a directory that could not be made. *)
Definition wiped_record (tempdir : string) : LogRecord :=
  {| log_level := Debug; log_msg := "wiped temporary directory";
     log_attrs := [("path", tempdir)] |}.

Definition not_found_record (e : error) : LogRecord :=
  {| log_level := Error_; log_msg := "could not find collector";
     log_attrs := [("error", Error e)] |}.

Definition none_found_record (e : error) : LogRecord :=
  {| log_level := Error_; log_msg := "could not find collectors";
     log_attrs := [("error", Error e)] |}.



(** The environment [E] with a subprocess that writes nothing to its
    standard output and is the same otherwise. *)
Definition silenced (E : Env) : Env :=
  {| CONFIGURATIONS_DIR := CONFIGURATIONS_DIR E;
     COLLECTIONS_DIR := COLLECTIONS_DIR E;
     CACHE_DIR := CACHE_DIR E;
     cwd := cwd E;
     os_Environ := os_Environ E;
     clock := clock E;
     toml_Decode := toml_Decode E;
     spawn := λ name args env,
       match spawn E name args env with
       | StartFailed msg => StartFailed msg
       | Exited code _ err => Exited code "" err
       end;
     fault := fault E;
     glob_other := glob_other E;
     pack := pack E;
     send := send E |}.

(** A string of decimal digits. *)
Fixpoint all_digits (s : string) : bool :=
  match s with
  | EmptyString => true
  | String c r => bool_decide (digit_of c ≠ None) && all_digits r
  end.

(** The paths of the definitions of a list. *)
Definition paths_of (cs : list Collector) : list string :=
  (λ c, Path (Generated c)) <$> cs.

(** *** More of the host *)


(** One more definition, beside the directory of definitions and not in
    it. *)
Definition boot_outside : World :=
  set_fs <["/root/outside.toml" := NFile doc_mock]> boot.



(** The host with another name for the directory of definitions, and
    with the answer of [filepath.Glob] to a pattern whose directory has a
    pattern byte. *)
Definition host_at (dir : string)
    (globbed : gmap string node → string → result (list string)) : Env :=
  {| CONFIGURATIONS_DIR := dir;
     COLLECTIONS_DIR := "/tmp/";
     CACHE_DIR := "/tmp/";
     cwd := "/root";
     os_Environ := ["PATH=/usr/bin"];
     clock := host_clock;
     toml_Decode := host_Decode;
     spawn := host_spawn "boom";
     fault := no_fault;
     glob_other := globbed;
     pack := pack_ok;
     send := send_ok |}.




(** No name at all for the directory of definitions. *)
Definition host_unnamed : Env := host_at "" (λ _ _, Ok []).


(** An action called without [--format], at the start of the host and
    after the collection of [mock]. *)
Definition plain_args (id : string) : RunArgs :=
  {| arg_collector := id; flag_keep := false; flag_no_upload := false;
     flag_format := "" |}.

Definition session0 : Session := {| world := boot; console := [] |}.

Definition session_collected : Session :=
  {| world := collected host0; console := [] |}.

(* ===================================================================== *)
(** * Properties *)
(* ===================================================================== *)

(** ** Splitting *)

Lemma strings_Split_nonempty sep s : strings_Split sep s ≠ [].
Proof.
  destruct s as [|c r]; simpl; [done|].
  destruct (Ascii.eqb c sep); [done|].
  by destruct (strings_Split sep r).
Qed.



(** Without a separator there is one piece, the string. *)
Lemma strings_Split_plain sep s :
  strings_ContainsByte s sep = false → strings_Split sep s = [s].
Proof.
  induction s as [|c r IH]; simpl; [done|].
  intros [Hc Hr]%orb_false_iff. rewrite Hc, (IH Hr). done.
Qed.

Lemma strings_Split_app sep s1 s2 :
  strings_ContainsByte s2 sep = false →
  strings_Split sep (s1 +:+ String sep s2) = strings_Split sep s1 ++ [s2].
Proof.
  intros Hs2. induction s1 as [|c r IH]; simpl.
  - by rewrite Ascii.eqb_refl, strings_Split_plain.
  - rewrite IH. destruct (Ascii.eqb c sep); [done|].
    pose proof (strings_Split_nonempty sep r).
    by destruct (strings_Split sep r).
Qed.

(** ** The last byte of a path *)

Lemma string_last_app s1 s2 :
  s2 ≠ "" → string_last (s1 +:+ s2) = string_last s2.
Proof.
  intros Hs2. induction s1 as [|c r IH]; simpl; [done|].
  destruct (r +:+ s2) eqn:Hrs; [|done].
  destruct r; simpl in Hrs; [done|discriminate].
Qed.

Lemma string_last_Some_ne s c : string_last s = Some c → s ≠ "".
Proof. by destruct s. Qed.

Lemma string_last_cons a s :
  string_last (String a s) = Some (default a (string_last s)).
Proof.
  revert a. induction s as [|b r IH]; intros a; simpl; [done|].
  specialize (IH b). simpl in IH. by rewrite IH.
Qed.

Lemma strings_Split_last sep s l c :
  last (strings_Split sep s) = Some l →
  string_last s = Some c → c ≠ sep →
  string_last l = Some c.
Proof.
  revert l. induction s as [|a r IH]; intros l Hl Hc Hne; [done|].
  simpl in Hl.
  destruct r as [|b r'].
  - simpl in *. simplify_eq.
    destruct (Ascii.eqb_spec c sep) as [->|_]; [done|].
    by simplify_eq/=.
  - assert (string_last (String b r') = Some c) as Hc' by done.
    pose proof (strings_Split_nonempty sep (String b r')) as Hnil.
    destruct (Ascii.eqb a sep).
    + destruct (strings_Split sep (String b r')) as [|h t] eqn:Hs; [done|].
      apply (IH l); [|done..]. done.
    + destruct (strings_Split sep (String b r')) as [|h t] eqn:Hs; [done|].
      destruct t as [|h' t'].
      * simpl in Hl. injection Hl as <-.
        specialize (IH h eq_refl Hc' Hne).
        rewrite string_last_cons, IH. done.
      * apply (IH l); [|done..]. done.
Qed.

Lemma strings_Join_last ys l sep :
  l ≠ "" → string_last (strings_Join (ys ++ [l]) sep) = string_last l.
Proof.
  intros Hl. induction ys as [|y ys IH]; [done|].
  assert (strings_Join (ys ++ [l]) sep ≠ "") as Hne.
  { intros Heq. rewrite Heq in IH. destruct l; [done|].
    by rewrite string_last_cons in IH. }
  replace (strings_Join ((y :: ys) ++ [l]) sep)
    with (y +:+ sep +:+ strings_Join (ys ++ [l]) sep).
  - rewrite !string_last_app; [done|done|].
    by destruct sep.
  - simpl. by destruct (ys ++ [l]) eqn:?; [destruct ys|].
Qed.

(** An element that is a name goes on top of what is kept. *)
Lemma Clean_step_name rooted stack l :
  l ≠ "" → l ≠ "." → l ≠ ".." → Clean_step rooted stack l = l :: stack.
Proof.
  intros. unfold Clean_step.
  destruct (decide (l = "" ∨ l = ".")) as [[?|?]|_]; [done..|].
  by destruct (decide (l = "..")).
Qed.

Lemma Clean_fold_snoc rooted init l :
  l ≠ "" → l ≠ "." → l ≠ ".." →
  rev (fold_left (Clean_step rooted) (init ++ [l]) [])
  = rev (fold_left (Clean_step rooted) init []) ++ [l].
Proof.
  intros. rewrite fold_left_app. simpl. by rewrite Clean_step_name.
Qed.

Lemma filepath_Clean_last s c :
  string_last s = Some c → c ≠ "/"%char → c ≠ "."%char →
  string_last (filepath_Clean s) = Some c.
Proof.
  intros Hc Hsep Hdot. unfold filepath_Clean. cbv zeta.
  pose proof (strings_Split_nonempty Separator s) as Hnil.
  destruct (last (strings_Split Separator s)) as [l|] eqn:Hl;
    [|by apply last_None in Hl].
  pose proof (strings_Split_last _ _ _ _ Hl Hc Hsep) as Hlc.
  apply last_Some in Hl as [init ->].
  assert (l ≠ "") by (by intros ->).
  assert (l ≠ ".") by (intros ->; simpl in Hlc; congruence).
  assert (l ≠ "..") by (intros ->; simpl in Hlc; congruence).
  rewrite Clean_fold_snoc by done.
  set (kept := rev (fold_left _ init [])).
  assert (string_last (strings_Join (kept ++ [l]) "/") = Some c) as HJ
    by (by rewrite strings_Join_last).
  destruct (filepath_IsAbs s).
  - rewrite string_last_app; [done|]. by eapply string_last_Some_ne.
  - by destruct (kept ++ [l]) eqn:?; [destruct kept|].
Qed.

Lemma filepath_Join_last a b c :
  string_last b = Some c → c ≠ "/"%char → c ≠ "."%char →
  string_last (filepath_Join [a; b]) = Some c.
Proof.
  intros Hc Hsep Hdot.
  assert (b ≠ "") by (by eapply string_last_Some_ne).
  simpl. destruct (decide (a = "")).
  - destruct (decide (b = "")); [done|]. by apply filepath_Clean_last.
  - apply filepath_Clean_last; [|done..].
    rewrite !string_last_app; done.
Qed.

Lemma filepath_Abs_last E p c :
  string_last p = Some c → c ≠ "/"%char → c ≠ "."%char →
  string_last (filepath_Abs E p) = Some c.
Proof.
  intros. unfold filepath_Abs. destruct (filepath_IsAbs p).
  - by apply filepath_Clean_last.
  - by apply filepath_Join_last.
Qed.

(** ** Decimal numbers end in a digit *)

Lemma pretty_N_char_digit x : digit_of (pretty_N_char x) ≠ None.
Proof. unfold pretty_N_char. by repeat case_match. Qed.

Lemma pretty_N_go_last x s :
  s ≠ "" → string_last (pretty_N_go x s) = string_last s.
Proof.
  revert s. induction (N.lt_wf_0 x) as [x _ IH]; intros s Hs.
  destruct (decide (x = 0)%N) as [->|Hx]; [done|].
  rewrite pretty_N_go_step by lia.
  rewrite IH; [by destruct s|by apply N.div_lt; lia|done].
Qed.

Lemma pretty_N_last (x : N) :
  ∃ c, string_last (pretty x) = Some c ∧ digit_of c ≠ None.
Proof.
  unfold pretty, pretty_N. case_decide; [by exists "0"%char|].
  rewrite pretty_N_go_step by lia. rewrite pretty_N_go_last by done.
  eexists; split; [done|]. apply pretty_N_char_digit.
Qed.

Lemma strconv_FormatInt_last i :
  ∃ c, string_last (strconv_FormatInt i) = Some c ∧ digit_of c ≠ None.
Proof.
  unfold strconv_FormatInt, pretty, pretty_Z. destruct i as [|p|p].
  - by exists "0"%char.
  - apply (pretty_N_last (Npos p)).
  - destruct (pretty_N_last (Npos p)) as (c & Hc & Hd). exists c. split; [|done].
    rewrite string_last_app; [done|]. by eapply string_last_Some_ne.
Qed.

Lemma digit_of_not_sep c : digit_of c ≠ None → c ≠ "/"%char ∧ c ≠ "."%char ∧ c ≠ "n"%char.
Proof. intros Hd. by repeat split; intros ->. Qed.

(** ** The output directory and the last-run record never share a path *)

Lemma tempdir_last E c w :
  ∃ ch, string_last (tempdir_at E c w) = Some ch ∧ digit_of ch ≠ None.
Proof.
  destruct (strconv_FormatInt_last (time_Unix (clock E (ticks w)))) as (ch & Hch & Hd).
  exists ch. split; [|done].
  destruct (digit_of_not_sep _ Hd) as (? & ? & ?).
  apply filepath_Join_last; [|done..].
  rewrite !string_last_app; [done|by eapply string_last_Some_ne|].
  by destruct (strconv_FormatInt _).
Qed.

Lemma tempdir_nonempty E c w : tempdir_at E c w ≠ "".
Proof.
  destruct (tempdir_last E c w) as (ch & Hch & _). by eapply string_last_Some_ne.
Qed.

Lemma tempdir_cache_distinct E c c' w :
  filepath_Abs E (tempdir_at E c w) ≠ filepath_Abs E (cache_file E c').
Proof.
  destruct (tempdir_last E c w) as (ch & Hch & Hd).
  destruct (digit_of_not_sep _ Hd) as (? & ? & ?).
  intros Heq.
  assert (string_last (filepath_Abs E (tempdir_at E c w)) = Some ch) as Hl1
    by (by apply filepath_Abs_last).
  assert (string_last (filepath_Abs E (cache_file E c')) = Some "n"%char) as Hl2.
  { apply filepath_Abs_last; [|done..]. apply filepath_Join_last; [|done..].
    by rewrite string_last_app. }
  congruence.
Qed.

(** ** [ParseInt] reads back what [FormatInt] writes *)

Lemma digit_of_pretty_N_char y :
  (y < 10)%N → digit_of (pretty_N_char y) = Some (Z.of_N y).
Proof.
  intros Hy.
  assert (y = 0 ∨ y = 1 ∨ y = 2 ∨ y = 3 ∨ y = 4 ∨ y = 5 ∨ y = 6 ∨ y = 7
          ∨ y = 8 ∨ y = 9)%N as Hcases by lia.
  by repeat destruct Hcases as [->|Hcases]; try subst y.
Qed.

Lemma ParseUint_loop_pretty x s :
  Z.of_N x ≤ maxUint64 →
  ParseUint_loop (pretty_N_go x s) 0 = ParseUint_loop s (Z.of_N x).
Proof.
  revert s. induction (N.lt_wf_0 x) as [x _ IH]; intros s Hx.
  destruct (decide (x = 0)%N) as [->|Hpos]; [done|].
  rewrite pretty_N_go_step by lia.
  assert (x `div` 10 < x)%N by (apply N.div_lt; lia).
  rewrite IH by (done || lia). simpl ParseUint_loop.
  rewrite digit_of_pretty_N_char by (apply N.mod_lt; lia).
  pose proof (N.div_mod x 10 ltac:(lia)) as Hdm.
  clear IH. change maxUint64 with 18446744073709551615 in *.
  change (18446744073709551615 `div` 10 + 1) with 1844674407370955162.
  set (q := (x `div` 10)%N) in *. set (m := (x `mod` 10)%N) in *.
  clearbody q m.
  assert (Z.of_N q * 10 + Z.of_N m = Z.of_N x) as -> by lia.
  destruct (Z.leb_spec 1844674407370955162 (Z.of_N q)); [exfalso; lia|].
  destruct (Z.ltb_spec 18446744073709551615 (Z.of_N x)); [exfalso; lia|done].
Qed.

Lemma pretty_N_go_head x s :
  (0 < x)%N → ∃ ch r, pretty_N_go x s = String ch r ∧ digit_of ch ≠ None.
Proof.
  revert s. induction (N.lt_wf_0 x) as [x _ IH]; intros s Hx.
  rewrite pretty_N_go_step by done.
  destruct (decide (x `div` 10 = 0)%N) as [->|Hd].
  - rewrite pretty_N_go_0. eexists _, _. split; [done|]. apply pretty_N_char_digit.
  - apply IH; [apply N.div_lt; lia|by apply N.neq_0_lt_0].
Qed.

Lemma strconv_ParseUint_pretty (p : positive) :
  Z.pos p ≤ maxUint64 →
  ∃ ch r, pretty (Npos p) = String ch r ∧ digit_of ch ≠ None ∧
          strconv_ParseUint (String ch r) = inr (Z.pos p).
Proof.
  intros Hp. unfold pretty, pretty_N. case_decide; [done|].
  destruct (pretty_N_go_head (Npos p) "") as (ch & r & Heq & Hd); [lia|].
  exists ch, r. repeat split; [done..|].
  unfold strconv_ParseUint. rewrite <-Heq.
  by rewrite ParseUint_loop_pretty.
Qed.

Lemma strconv_ParseInt_digits ch r un :
  digit_of ch ≠ None → strconv_ParseUint (String ch r) = inr un → un < 2 ^ 63 →
  strconv_ParseInt (String ch r) = Ok un.
Proof.
  intros Hd Hparse Hun. unfold strconv_ParseInt.
  assert (Ascii.eqb ch "-" = false) as ->
    by (destruct (Ascii.eqb_spec ch "-") as [->|]; done).
  assert (Ascii.eqb ch "+" = false) as ->
    by (destruct (Ascii.eqb_spec ch "+") as [->|]; done).
  cbn [orb negb andb]. rewrite Hparse.
  destruct (Z.leb_spec (2 ^ 63) un); [exfalso; lia|done].
Qed.

Lemma strconv_ParseInt_minus s un :
  strconv_ParseUint s = inr un → un ≤ 2 ^ 63 →
  strconv_ParseInt (String "-" s) = Ok (- un).
Proof.
  intros Hparse Hun. unfold strconv_ParseInt.
  change (Ascii.eqb "-" "-") with true.
  change (Ascii.eqb "-" "+") with false.
  cbn [orb negb andb]. rewrite Hparse.
  destruct (Z.ltb_spec (2 ^ 63) un); [exfalso; lia|done].
Qed.

Lemma strconv_ParseInt_FormatInt i :
  - 2 ^ 63 ≤ i < 2 ^ 63 →
  strconv_ParseInt (strconv_FormatInt i) = Ok i.
Proof.
  intros Hi. unfold strconv_FormatInt, pretty, pretty_Z.
  assert (2 ^ 63 < maxUint64) by done.
  destruct i as [|p|p]; [done|..].
  - destruct (strconv_ParseUint_pretty p) as (ch & r & Heq & Hd & Hparse); [lia|].
    change (pretty p) with (pretty (Npos p)). rewrite Heq.
    apply strconv_ParseInt_digits; [done..|lia].
  - destruct (strconv_ParseUint_pretty p) as (ch & r & Heq & Hd & Hparse); [lia|].
    change (pretty p) with (pretty (Npos p)). rewrite Heq.
    change (Z.neg p) with (- Z.pos p).
    apply strconv_ParseInt_minus; [done|lia].
Qed.

(** ** What the collect step does to the world *)

Arguments filepath_Join : simpl never.
Arguments filepath_Clean : simpl never.
Arguments filepath_Abs : simpl never.
Arguments strconv_FormatInt : simpl never.
Arguments strconv_ParseInt : simpl never.
Arguments tempdir_at : simpl never.
Arguments cache_file : simpl never.

Ltac munfold :=
  unfold bind, attempt, ret, fail, defer, modify, slog, log_Printf in *; simpl in *.

Lemma generateCollectionDirectory_inv E c w r w1 :
  generateCollectionDirectory E c w = (r, w1) →
  ticks w1 = S (ticks w) ∧ stdout w1 = stdout w ∧
  ((r = Ok (tempdir_at E c w) ∧
    fs w1 !! filepath_Abs E (tempdir_at E c w) = Some NDir ∧
    ∀ q, q ≠ filepath_Abs E (tempdir_at E c w) → fs w1 !! q = fs w !! q)
   ∨ (r = Err (errorString "cannot create collector directory") ∧ fs w1 = fs w)).
Proof.
  unfold generateCollectionDirectory, time_Now, os_MkdirAll. munfold.
  change (filepath_Join _) with (tempdir_at E c w).
  destruct (fs w !! filepath_Abs E (tempdir_at E c w)) as [[|data]|] eqn:Hq;
    [| |destruct (fault E OpMkdir _)];
    intros [= <- <-]; simpl; (split; [done|split; [done|]]).
  - left. by repeat split.
  - by right.
  - by right.
  - left. repeat split; [by rewrite lookup_insert_eq|].
    intros q Hne. by rewrite lookup_insert_ne.
Qed.

Lemma SetLastRun_inv E c w r w1 :
  SetLastRun E c w = (r, w1) →
  ticks w1 = S (ticks w) ∧ stdout w1 = stdout w ∧ logs w1 = logs w ∧
  (∀ q, q ≠ filepath_Abs E (cache_file E c) → fs w1 !! q = fs w !! q) ∧
  (fs w1 !! filepath_Abs E (cache_file E c) = Some NDir ↔
   fs w !! filepath_Abs E (cache_file E c) = Some NDir) ∧
  (fault E OpWrite (filepath_Abs E (cache_file E c)) = false →
   fs w !! filepath_Abs E (cache_file E c) ≠ Some NDir →
   r = Ok tt ∧
   fs w1 !! filepath_Abs E (cache_file E c)
   = Some (NFile (strconv_FormatInt (time_Unix (clock E (ticks w)))))).
Proof.
  unfold SetLastRun, time_Now, os_WriteFile. munfold.
  destruct (fault E OpWrite _) eqn:Hf.
  { intros [= <- <-]; simpl. by repeat split. }
  destruct (fs w !! filepath_Abs E (cache_file E c)) as [[|data]|] eqn:Hq;
    intros [= <- <-]; simpl; repeat split; try done;
    try (intros q Hne; by rewrite lookup_insert_ne);
    rewrite ?lookup_insert_eq; try done; try (by intros [= ]).
Qed.

Lemma Collect_directory_failed E c w e w1 :
  generateCollectionDirectory E c w = (Err e, w1) →
  Collect E c w = (Err e, w1).
Proof. intros Hg. unfold Collect. munfold. by rewrite Hg. Qed.

Lemma Collect_run_failed E c w d w1 e out err :
  generateCollectionDirectory E c w = (Ok d, w1) →
  exec_Run E (command_name c) (command_args c) (collect_env E d) = (Some e, out, err) →
  Collect E c w
  = (Err (errorString ("could not run collector: " +:+ Error e)),
     add_log (run_failed_record e err) (add_log (executing_record c) w1)).
Proof.
  intros Hg Hr. unfold Collect. munfold. rewrite Hg.
  unfold collect_env in Hr. by rewrite Hr.
Qed.

Lemma Collect_Ok_inv E c w d w' :
  Collect E c w = (Ok d, w') →
  let q := filepath_Abs E (cache_file E c) in
  d = tempdir_at E c w ∧
  (∃ out err, exec_Run E (command_name c) (command_args c) (collect_env E d)
              = (None, out, err)) ∧
  fs w' !! filepath_Abs E d = Some NDir ∧
  stdout w' = stdout w ∧
  ticks w' = S (S (ticks w)) ∧
  (fault E OpWrite q = false → fs w !! q ≠ Some NDir →
   fs w' !! q = Some (NFile (strconv_FormatInt (time_Unix (clock E (S (ticks w))))))).
Proof.
  unfold Collect. munfold.
  destruct (generateCollectionDirectory E c w) as [[d0|e] w1] eqn:Hg; [|done].
  apply generateCollectionDirectory_inv in Hg
    as (Ht1 & Ho1 & [(Hd & Hdir & Hframe)|(? & _)]); [|done].
  injection Hd as ->.
  destruct (exec_Run _ _ _ _) as [[[e|] out] err] eqn:Hr; [done|].
  destruct (SetLastRun E c _) as [r w2] eqn:Hs.
  apply SetLastRun_inv in Hs as (Ht2 & Ho2 & _ & Hframe2 & Hdir2 & Hw).
  simpl in *.
  assert (filepath_Abs E (tempdir_at E c w) ≠ filepath_Abs E (cache_file E c))
    as Hne by apply tempdir_cache_distinct.
  assert (fs w2 !! filepath_Abs E (tempdir_at E c w) = Some NDir) as Hdir'.
  { by rewrite Hframe2. }
  intros Hres.
  assert (d = tempdir_at E c w ∧ stdout w' = stdout w2 ∧ fs w' = fs w2
          ∧ ticks w' = ticks w2) as (-> & Ho & Hfs & Ht).
  { destruct r; injection Hres as <- <-; done. }
  rewrite Hfs, Ho, Ht, Ho2, Ho1, Ht2, Ht1.
  repeat split; [by eauto|done|].
  intros Hfault Hq. rewrite Ht1 in Hw.
  apply Hw; [done|]. by rewrite Hframe.
Qed.

Lemma Collect_succeeds E c w d w1 out err r w2 :
  generateCollectionDirectory E c w = (Ok d, w1) →
  exec_Run E (command_name c) (command_args c) (collect_env E d) = (None, out, err) →
  SetLastRun E c (add_log (executing_record c) w1) = (r, w2) →
  Collect E c w
  = (Ok d, match r with
           | Ok _ => w2
           | Err e => add_log (timestamp_failed_record c e) w2
           end).
Proof.
  intros Hg Hr Hs. unfold Collect. munfold. rewrite Hg.
  unfold collect_env in Hr. rewrite Hr.
  unfold executing_record in Hs. simpl in Hs. rewrite Hs.
  by destruct r.
Qed.

(** ** Reading the last-run record *)

Lemma GetLastRun_read E c w data :
  fault E OpRead (filepath_Abs E (cache_file E c)) = false →
  fs w !! filepath_Abs E (cache_file E c) = Some (NFile data) →
  ∀ i, strconv_ParseInt data = Ok i → GetLastRun E c w = (Ok i, w).
Proof.
  intros Hf Hq i Hi. unfold GetLastRun, os_ReadFile. munfold.
  by rewrite Hf, Hq, Hi.
Qed.

Lemma GetLastRun_same_entry E c w w' :
  fs w !! filepath_Abs E (cache_file E c) = fs w' !! filepath_Abs E (cache_file E c) →
  (GetLastRun E c w).1 = (GetLastRun E c w').1.
Proof.
  intros Hq. unfold GetLastRun, os_ReadFile. munfold. rewrite Hq.
  destruct (fault E OpRead _); [done|].
  destruct (fs w' !! _) as [[|data]|]; [done| |done].
  by destruct (strconv_ParseInt data).
Qed.

(** C4 (as amended).  When the command of a definition is run and exits
    with a status other than zero, [Collect] fails; the error it returns
    is made of the exit status alone, the captured standard error goes
    into the error record of the log and not into the error; and the
    last-run record of the collector is left as it was, so that
    [GetLastRun] answers as before. *)
Theorem C4_nonzero_exit_fails_without_record
    E c w d w1 code out err :
  generateCollectionDirectory E c w = (Ok d, w1) →
  command_name c ≠ "" →
  spawn E (command_name c) (command_args c) (collect_env E d) = Exited code out err →
  code ≠ 0 →
  ∃ w',
    Collect E c w
    = (Err (errorString ("could not run collector: exit status " +:+ pretty code)), w') ∧
    last (logs w') = Some (run_failed_record (ExitError code) err) ∧
    fs w' !! filepath_Abs E (cache_file E c) = fs w !! filepath_Abs E (cache_file E c) ∧
    (GetLastRun E c w').1 = (GetLastRun E c w).1.
Proof.
  intros Hg Hname Hspawn Hcode.
  assert (exec_Run E (command_name c) (command_args c) (collect_env E d)
          = (Some (ExitError code), out, err)) as Hrun.
  { unfold exec_Run. rewrite Hspawn.
    destruct (decide (command_name c = "")); [done|].
    by destruct (decide (code = 0)). }
  eexists. split; [exact (Collect_run_failed _ _ _ _ _ _ _ _ Hg Hrun)|].
  apply generateCollectionDirectory_inv in Hg
    as (_ & _ & [(Hd & _ & Hframe)|(? & _)]); [|done].
  assert (fs w1 !! filepath_Abs E (cache_file E c)
          = fs w !! filepath_Abs E (cache_file E c)) as Hsame.
  { apply Hframe. intros Heq. by apply (tempdir_cache_distinct E c c w). }
  split; [|split].
  - simpl. by rewrite last_snoc.
  - done.
  - by apply GetLastRun_same_entry.
Qed.

Lemma C4_nonzero_exit_witness :
  ∃ w',
    Collect host0 (mk_collector "bad" "false") boot
    = (Err (errorString ("could not run collector: exit status " +:+ pretty 1)), w') ∧
    last (logs w') = Some (run_failed_record (ExitError 1) "boom") ∧
    fs w' !! filepath_Abs host0 (cache_file host0 (mk_collector "bad" "false"))
    = fs boot !! filepath_Abs host0 (cache_file host0 (mk_collector "bad" "false")) ∧
    (GetLastRun host0 (mk_collector "bad" "false") w').1
    = (GetLastRun host0 (mk_collector "bad" "false") boot).1.
Proof.
  apply (C4_nonzero_exit_fails_without_record host0 (mk_collector "bad" "false")
           boot "/tmp/bad-1700000000"
           (generateCollectionDirectory host0 (mk_collector "bad" "false") boot).2
           1 "" "boom").
  - vm_compute. reflexivity.
  - vm_compute. discriminate.
  - vm_compute. reflexivity.
  - discriminate.
Defined.

(** C4 as the specification states it fails: the error [Collect] returns
    for a command that exits with status 1 is the same whatever the
    command wrote to its standard error, so the error does not carry it. *)
Lemma C4_error_carries_no_stderr :
  (Collect (host "boom" no_fault pack_ok send_ok) (mk_collector "bad" "false") boot).1
  = Err (errorString "could not run collector: exit status 1") ∧
  (Collect (host "disk quota exceeded" no_fault pack_ok send_ok)
     (mk_collector "bad" "false") boot).1
  = Err (errorString "could not run collector: exit status 1").
Proof. split; vm_compute; reflexivity. Qed.

(** C5 (as amended).  A collect run whose directory is created and whose
    command exits with status zero succeeds whatever becomes of the
    last-run record, and a record that could not be written is logged.
    After a successful collect run whose record could be written,
    [GetLastRun] returns the whole second at which it was written: on a
    wall clock that does not go backwards this is no later than the
    completion of the call and no earlier than the second in which the
    call started, which is less than a second before the start itself. *)
Theorem C5_last_run_is_the_second_of_the_call E c w :
  (∀ d w1 out err r w2,
     generateCollectionDirectory E c w = (Ok d, w1) →
     exec_Run E (command_name c) (command_args c) (collect_env E d) = (None, out, err) →
     SetLastRun E c (add_log (executing_record c) w1) = (r, w2) →
     ∃ w', Collect E c w = (Ok d, w') ∧
           ∀ e, r = Err e → last (logs w') = Some (timestamp_failed_record c e)) ∧
  (∀ w0 t0 d w' t1 w'',
     (∀ i j, (i ≤ j)%nat → wall (clock E i) ≤ wall (clock E j)) →
     - 2 ^ 63 ≤ time_Unix (clock E (S (ticks w))) < 2 ^ 63 →
     time_Now E w0 = (Ok t0, w) →
     Collect E c w = (Ok d, w') →
     time_Now E w' = (Ok t1, w'') →
     fault E OpWrite (filepath_Abs E (cache_file E c)) = false →
     fs w !! filepath_Abs E (cache_file E c) ≠ Some NDir →
     fault E OpRead (filepath_Abs E (cache_file E c)) = false →
     ∃ t, GetLastRun E c w'' = (Ok t, w'') ∧
          time_Unix t0 ≤ t ≤ time_Unix t1 ∧
          wall t0 - 1000000000 < t * 1000000000 ≤ wall t1).
Proof.
  split.
  - intros d w1 out err r w2 Hg Hr Hs. eexists. split.
    + exact (Collect_succeeds _ _ _ _ _ _ _ _ _ Hg Hr Hs).
    + intros e ->. simpl. by rewrite last_snoc.
  - intros w0 t0 d w' t1 w'' Hmono Hrange Ht0 Hc Ht1 Hwr Hq Hrd.
    apply Collect_Ok_inv in Hc as (_ & _ & _ & _ & Hticks & Hrec).
    specialize (Hrec Hwr Hq).
    unfold time_Now in Ht0, Ht1. injection Ht0 as <- <-. injection Ht1 as <- <-.
    cbn [ticks tick] in *.
    exists (time_Unix (clock E (S (S (ticks w0))))). split.
    + apply GetLastRun_read
        with (data := strconv_FormatInt (time_Unix (clock E (S (S (ticks w0))))));
        [done|done|]. by apply strconv_ParseInt_FormatInt.
    + rewrite Hticks.
      pose proof (Hmono (ticks w0) (S (S (ticks w0))) ltac:(lia)) as Hlo.
      pose proof (Hmono (S (S (ticks w0))) (S (S (S (ticks w0)))) ltac:(lia)) as Hhi.
      unfold time_Unix.
      pose proof (Z.mul_div_le (wall (clock E (S (S (ticks w0))))) 1000000000
                    ltac:(lia)) as Hfloor.
      pose proof (Z.mul_succ_div_gt (wall (clock E (S (S (ticks w0))))) 1000000000
                    ltac:(lia)) as Hceil.
      repeat split; [by apply Z.div_le_mono|by apply Z.div_le_mono|lia|lia].
Qed.

Lemma C5_last_run_witness :
  ∃ t, GetLastRun host0 (mk_collector "mock" "echo hi")
         (tick (Collect host0 (mk_collector "mock" "echo hi") (tick boot)).2)
       = (Ok t, tick (Collect host0 (mk_collector "mock" "echo hi") (tick boot)).2) ∧
       time_Unix (host_clock 0) ≤ t ≤ time_Unix (host_clock 3) ∧
       wall (host_clock 0) - 1000000000 < t * 1000000000 ≤ wall (host_clock 3).
Proof.
  apply (proj2 (C5_last_run_is_the_second_of_the_call host0
                  (mk_collector "mock" "echo hi") (tick boot))
           boot (host_clock 0) "/tmp/mock-1700000000"
           (Collect host0 (mk_collector "mock" "echo hi") (tick boot)).2
           (host_clock 3)
           (tick (Collect host0 (mk_collector "mock" "echo hi") (tick boot)).2)).
  - intros i j Hij. unfold host0, host, host_clock. simpl. lia.
  - split; [apply Z.leb_le|apply Z.ltb_lt]; vm_compute; reflexivity.
  - reflexivity.
  - vm_compute. reflexivity.
  - vm_compute. reflexivity.
  - reflexivity.
  - vm_compute. discriminate.
  - reflexivity.
Defined.

(** C5 as the specification states it fails twice over. The record holds
    whole seconds: a call that starts half a second into a second is
    followed by a record that reads as the beginning of that second,
    before the start. And where the record cannot be written the collect
    run still succeeds, and the lookup that follows finds no record. *)
Lemma C5_record_is_before_the_start_or_missing :
  ((GetLastRun host0 (mk_collector "mock" "echo hi")
      (Collect host0 (mk_collector "mock" "echo hi") (tick boot)).2).1
   = Ok 1700000000 ∧
   1700000000 * 1000000000 < wall (clock host0 (ticks boot))) ∧
  ((Collect host_readonly (mk_collector "mock" "echo hi") boot).1
   = Ok "/tmp/mock-1700000000" ∧
   (GetLastRun host_readonly (mk_collector "mock" "echo hi")
      (Collect host_readonly (mk_collector "mock" "echo hi") boot).2).1
   = Err (PathError "open" "/tmp/mock.last-run" ENOENT)).
Proof. repeat split; vm_compute; reflexivity. Qed.

(** ** The run *)

Lemma os_RemoveAll_gone E p w :
  p ≠ "" → endsWithDot p = false → fault E OpRemove (filepath_Abs E p) = false →
  ∃ w', os_RemoveAll E p w = (Ok tt, w') ∧
        fs w' !! filepath_Abs E p = None ∧
        (∀ q, fs w !! q = None → fs w' !! q = None) ∧
        stdout w' = stdout w ∧ logs w' = logs w.
Proof.
  intros Hp Hdot Hf. unfold os_RemoveAll. destruct (decide (p = "")); [done|].
  rewrite Hdot, Hf. eexists. split; [done|]. simpl. repeat split.
  - apply map_lookup_filter_None. right. intros x _. simpl.
    unfold under. by rewrite bool_decide_eq_true_2.
  - intros q Hq. apply map_lookup_filter_None. by left.
Qed.

Lemma doRun_wipe_tempdir_gone E d w :
  d ≠ "" ∧ endsWithDot d = false → fault E OpRemove (filepath_Abs E d) = false →
  fs (doRun_wipe_tempdir E false d w).2 !! filepath_Abs E d = None ∧
  (∀ q, fs w !! q = None → fs (doRun_wipe_tempdir E false d w).2 !! q = None) ∧
  stdout (doRun_wipe_tempdir E false d w).2 = stdout w.
Proof.
  intros [Hd Hdot] Hf.
  destruct (os_RemoveAll_gone E d w Hd Hdot Hf) as (w' & Hrm & Hq & Hfr & Ho & _).
  unfold doRun_wipe_tempdir. munfold. rewrite Hrm. simpl. done.
Qed.

Lemma doRun_wipe_tempdir_kept E d w :
  fs (doRun_wipe_tempdir E true d w).2 = fs w ∧
  stdout (doRun_wipe_tempdir E true d w).2 = stdout w.
Proof. done. Qed.

(** Wiping the archive never touches another path, and never prints. *)
Lemma doRun_wipe_archive_frame E a w :
  (∀ q, q ≠ filepath_Abs E a →
        fs (doRun_wipe_archive E a w).2 !! q = fs w !! q) ∧
  (∀ q, fs w !! q = None → fs (doRun_wipe_archive E a w).2 !! q = None) ∧
  stdout (doRun_wipe_archive E a w).2 = stdout w.
Proof.
  unfold doRun_wipe_archive, os_Remove. munfold.
  destruct (fault E OpRemove _); [done|].
  destruct (fs w !! filepath_Abs E a) as [[|data]|] eqn:Hq; [|simpl..|done].
  - destruct (has_entries _ _); [done|]. simpl. repeat split.
    + intros q Hne. by rewrite lookup_delete_ne.
    + intros q Hn. destruct (decide (filepath_Abs E a = q)) as [<-|];
        [by rewrite lookup_delete_eq|by rewrite lookup_delete_ne].
  - repeat split.
    + intros q Hne. by rewrite lookup_delete_ne.
    + intros q Hn. destruct (decide (filepath_Abs E a = q)) as [<-|];
        [by rewrite lookup_delete_eq|by rewrite lookup_delete_ne].
Qed.

Lemma doRun_wipe_archive_gone E a w data :
  fault E OpRemove (filepath_Abs E a) = false →
  fs w !! filepath_Abs E a = Some (NFile data) →
  fs (doRun_wipe_archive E a w).2 !! filepath_Abs E a = None.
Proof.
  intros Hf Hq. unfold doRun_wipe_archive, os_Remove. munfold.
  rewrite Hf, Hq. simpl. by rewrite lookup_delete_eq.
Qed.

Lemma Compress_packed E d a w :
  pack E d = Ok a →
  Compress E d w
  = (Ok a, add_call (Packed d) (set_fs <[filepath_Abs E a := NFile ""]> w)).
Proof. intros Hp. unfold Compress. by rewrite Hp. Qed.

Lemma endsWithDot_last p c :
  string_last p = Some c → c ≠ "."%char → endsWithDot p = false.
Proof.
  intros Hc Hdot. unfold endsWithDot. apply orb_false_iff. split.
  - apply bool_decide_eq_false. intros ->. simpl in Hc. congruence.
  - apply andb_false_iff. left. apply bool_decide_eq_false. congruence.
Qed.

(** The directory a collect run returns can be removed by name. *)
Lemma Collect_tempdir_nonempty E c w d w' :
  Collect E c w = (Ok d, w') → d ≠ "" ∧ endsWithDot d = false.
Proof.
  intros Hc. apply Collect_Ok_inv in Hc as (-> & _).
  split; [apply tempdir_nonempty|].
  destruct (tempdir_last E c w) as (ch & Hch & Hd).
  destruct (digit_of_not_sep _ Hd) as (_ & ? & _).
  by eapply endsWithDot_last.
Qed.

(** C9 (as amended).  In a run that is to upload and not to keep, when
    packing succeeds and the upload fails, the run returns the upload's
    error and prints no summary; the packaged artifact and the output
    directory are both removed, as far as the removals succeed. *)
Theorem C9_upload_failure_cleans_up_without_summary
    E cmd w c w1 d w2 a e :
  flag_keep cmd = false → flag_no_upload cmd = false →
  GetCollector E (arg_collector cmd) w = (Ok c, w1) →
  Collect E c (tick w1) = (Ok d, w2) →
  pack E d = Ok a →
  send E a (ContentType (Exec c)) = Some e →
  fault E OpRemove (filepath_Abs E d) = false →
  fault E OpRemove (filepath_Abs E a) = false →
  ∃ w', doRun E cmd w = (Err e, w') ∧
        fs w' !! filepath_Abs E d = None ∧
        fs w' !! filepath_Abs E a = None ∧
        stdout w' = stdout w2.
Proof.
  intros Hk Hn Hg Hc Hp Hs Hfd Hfa.
  pose proof (Collect_tempdir_nonempty _ _ _ _ _ Hc) as Hd.
  unfold doRun. unfold bind at 1. unfold attempt at 1. rewrite Hg.
  unfold NewCollectorInfoDTO, time_Since, time_Now.
  unfold bind, ret, attempt. simpl. rewrite Hc. simpl.
  rewrite Hk, Hn. simpl.
  fold (doRun_wipe_tempdir E false d).
  unfold defer at 1. rewrite (Compress_packed _ _ _ _ Hp).
  unfold defer at 1. unfold Upload. simpl. rewrite Hs. simpl.
  eexists. split; [reflexivity|].
  match goal with
  | |- context [doRun_wipe_archive E a ?w0] => set (wa := w0)
  end.
  assert (fs wa !! filepath_Abs E a = Some (NFile "")) as Ha
    by (subst wa; simpl; by rewrite lookup_insert_eq).
  pose proof (doRun_wipe_archive_gone E a wa "" Hfa Ha) as Hgone.
  destruct (doRun_wipe_archive_frame E a wa) as (_ & _ & Hout).
  destruct (doRun_wipe_tempdir_gone E d (doRun_wipe_archive E a wa).2 Hd Hfd)
    as (Hdir & Hframe & Hout').
  repeat split; [done|by apply Hframe|].
  etrans; [exact Hout'|]. by rewrite Hout.
Qed.

Ltac doRun_collected Hg Hc :=
  unfold doRun; unfold bind at 1; unfold attempt at 1; rewrite Hg;
  unfold NewCollectorInfoDTO, time_Since, time_Now;
  unfold bind, ret, attempt; simpl; rewrite Hc; simpl.

Lemma doRun_report_prints cmd info cd ud keep upload d w :
  ∃ dto,
    doRun_report cmd info cd ud keep upload d w = (Ok tt, add_output (printed cmd dto) w) ∧
    run_Keep dto = keep ∧ run_KeepPath dto = (if keep then d else "") ∧
    run_Upload dto = upload ∧ run_CollectDuration dto = cd ∧
    run_UploadDuration dto = ud.
Proof.
  unfold doRun_report, printed, printRunJSON, printRunHuman, modify.
  eexists. split; [by destruct (decide (flag_format cmd = "json"))|done].
Qed.

(** Neither loading a definition nor the collect step packs or sends
    anything. *)
Lemma GetCollector_calls E id w : calls (GetCollector E id w).2 = calls w.
Proof.
  unfold GetCollector, ensureCollectorsDirectory, newCollectorFromPath, os_Stat,
    os_ReadFile, newCollectorFromConfiguration.
  munfold.
  repeat (match goal with
          | |- context [decide ?P] => destruct (decide P)
          | |- context [fault ?a ?b ?q] => destruct (fault a b q)
          | |- context [match ?m !! ?q with _ => _ end] =>
              destruct (m !! q) as [[|?]|]
          | |- context [toml_Decode E ?d] => destruct (toml_Decode E d)
          | |- context [exec_Run ?a ?b ?c ?d] =>
              destruct (exec_Run a b c d) as [[[?|] ?] ?]
          end; simpl; try done).
Qed.

Lemma Collect_calls E c w : calls (Collect E c w).2 = calls w.
Proof.
  unfold Collect, generateCollectionDirectory, SetLastRun, time_Now,
    os_MkdirAll, os_WriteFile.
  munfold.
  repeat (match goal with
          | |- context [decide ?P] => destruct (decide P)
          | |- context [fault ?a ?b ?q] => destruct (fault a b q)
          | |- context [match ?m !! ?q with _ => _ end] =>
              destruct (m !! q) as [[|?]|]
          | |- context [toml_Decode E ?d] => destruct (toml_Decode E d)
          | |- context [exec_Run ?a ?b ?c ?d] =>
              destruct (exec_Run a b c d) as [[[?|] ?] ?]
          end; simpl; try done).
Qed.

(** C1 (as amended).  A run asked not to upload keeps its output,
    whether keeping was asked for or not: once the collect step has
    succeeded nothing is packed, nothing is sent and nothing is removed
    (the calls to the packer and to the uploader are those made before
    the run, and the files are those the collect step left), the run
    succeeds, the output directory is there when the run completes, and
    the summary reports it as kept, with its path, and as not uploaded. *)
Theorem C1_no_upload_keeps_the_directory E cmd w c w1 d w2 :
  flag_no_upload cmd = true →
  GetCollector E (arg_collector cmd) w = (Ok c, w1) →
  Collect E c (tick w1) = (Ok d, w2) →
  ∃ w' dto,
    doRun E cmd w = (Ok tt, w') ∧
    calls w' = calls w ∧
    fs w' = fs w2 ∧
    fs w' !! filepath_Abs E d = Some NDir ∧
    stdout w' = stdout w2 ++ [printed cmd dto] ∧
    run_Keep dto = true ∧ run_KeepPath dto = d ∧
    run_Upload dto = false ∧ run_UploadDuration dto = 0.
Proof.
  intros Hn Hg Hc.
  pose proof Hc as Hinv. apply Collect_Ok_inv in Hinv as (_ & _ & Hdir & _).
  assert (calls w2 = calls w) as Hcalls.
  { pose proof (Collect_calls E c (tick w1)) as H2.
    pose proof (GetCollector_calls E (arg_collector cmd) w) as H1.
    rewrite Hc in H2. rewrite Hg in H1. simpl in *. by rewrite H2. }
  doRun_collected Hg Hc. rewrite Hn, orb_true_r. simpl.
  unfold defer.
  match goal with
  | |- context [doRun_report cmd ?i ?cd ?ud ?k ?u d ?w0] =>
      destruct (doRun_report_prints cmd i cd ud k u d w0)
        as (dto & -> & Hk & Hp & Hu & _ & Hud)
  end.
  eexists _, dto. split; [reflexivity|]. simpl. by repeat split.
Qed.

(** C3 (as amended).  After a run whose collect step has succeeded,
    whether packing and upload then succeed or fail: if neither keeping
    nor skipping the upload was asked for, the output directory is no
    longer there when the run completes, provided its removal does not
    fail; if one of them was asked for, the directory is there, and when
    the run succeeds its path is in the summary. *)
Theorem C3_directory_after_the_run E cmd w c w1 d w2 r w' :
  GetCollector E (arg_collector cmd) w = (Ok c, w1) →
  Collect E c (tick w1) = (Ok d, w2) →
  doRun E cmd w = (r, w') →
  (flag_keep cmd || flag_no_upload cmd = false →
   fault E OpRemove (filepath_Abs E d) = false →
   fs w' !! filepath_Abs E d = None) ∧
  (flag_keep cmd || flag_no_upload cmd = true →
   (∀ a, pack E d = Ok a → filepath_Abs E a ≠ filepath_Abs E d) →
   fs w' !! filepath_Abs E d = Some NDir ∧
   (r = Ok tt →
    ∃ dto, last (stdout w') = Some (printed cmd dto) ∧
           run_Keep dto = true ∧ run_KeepPath dto = d)).
Proof.
  intros Hg Hc.
  pose proof (Collect_tempdir_nonempty _ _ _ _ _ Hc) as Hd.
  pose proof Hc as Hinv. apply Collect_Ok_inv in Hinv as (_ & _ & Hdir & _).
  doRun_collected Hg Hc.
  set (w3 := add_log _ (tick w2)).
  assert (fs w3 !! filepath_Abs E d = Some NDir) as Hdir3 by done.
  destruct (flag_no_upload cmd) eqn:Hn; simpl.
  { (* no upload: the directory is kept *)
    rewrite orb_true_r. unfold defer.
    match goal with
    | |- context [doRun_report cmd ?i ?cd ?ud ?k ?u d ?w0] =>
        destruct (doRun_report_prints cmd i cd ud k u d w0)
          as (dto & -> & Hk & Hp & _)
    end.
    simpl. intros [= <- <-]. split; [done|]. intros _ _. split; [done|].
    intros _. exists dto. simpl. by rewrite last_snoc. }
  rewrite orb_false_r. unfold defer at 1.
  destruct (pack E d) as [a|e] eqn:Hp.
  2:{ (* packing fails *)
    unfold Compress. rewrite Hp. intros [= <- <-]. split.
    - intros Hk Hf. rewrite Hk.
      by destruct (doRun_wipe_tempdir_gone E d (add_call (Packed d) w3) Hd Hf)
        as (? & _).
    - intros Hk _. rewrite Hk. by split. }
  rewrite (Compress_packed _ _ _ _ Hp). unfold defer at 1.
  set (w4 := set_fs _ w3).
  assert (∀ w5 : World, fs w5 = fs w4 →
            (fault E OpRemove (filepath_Abs E d) = false →
             fs (doRun_wipe_tempdir E false d (doRun_wipe_archive E a w5).2).2
               !! filepath_Abs E d = None) ∧
            (filepath_Abs E a ≠ filepath_Abs E d →
             fs (doRun_wipe_tempdir E true d (doRun_wipe_archive E a w5).2).2
               !! filepath_Abs E d = Some NDir)) as Hclean.
  { intros w5 Hfs5. split.
    - intros Hf.
      by destruct (doRun_wipe_tempdir_gone E d (doRun_wipe_archive E a w5).2 Hd Hf)
        as (? & _).
    - intros Hne. destruct (doRun_wipe_archive_frame E a w5) as (Hfa & _).
      simpl. rewrite Hfa by done. rewrite Hfs5. subst w4. simpl.
      by rewrite lookup_insert_ne. }
  unfold Upload. simpl.
  destruct (send E a (ContentType (Exec c))) as [e|] eqn:Hs; simpl.
  { (* the upload fails *)
    intros [= <- <-]. split.
    - intros Hk Hf. rewrite Hk. by apply Hclean.
    - intros Hk Hpack. rewrite Hk. split; [|done].
      apply Hclean; [done|]. by apply Hpack. }
  match goal with
  | |- context [doRun_report cmd ?i ?cd ?ud ?k ?u d ?w0] =>
      destruct (doRun_report_prints cmd i cd ud k u d w0)
        as (dto & -> & Hkeep & Hpath & _)
  end.
  simpl. intros [= <- <-]. split.
  - intros Hk Hf. rewrite Hk. by apply Hclean.
  - intros Hk Hpack. rewrite Hk in *. split.
    + apply Hclean; [done|]. by apply Hpack.
    + intros _. exists dto. split; [|done].
      match goal with
      | |- context [doRun_wipe_archive E a ?w0] =>
          destruct (doRun_wipe_archive_frame E a w0) as (_ & _ & Hout)
      end.
      change (doRun_wipe_tempdir E true d) with
        (slog Debug "keeping temporary directory" [("path", d)]).
      simpl. rewrite Hout. simpl. by rewrite last_snoc.
Qed.

Lemma C9_upload_failure_witness :
  ∃ w', doRun host_refusing (run_args "mock" false false) boot
        = (Err (CollaboratorError "upload failed"), w') ∧
        fs w' !! filepath_Abs host_refusing "/tmp/mock-1700000000" = None ∧
        fs w' !! filepath_Abs host_refusing "/tmp/mock-1700000000.tar.xz" = None ∧
        stdout w' = stdout (collected host_refusing).
Proof.
  apply (C9_upload_failure_cleans_up_without_summary host_refusing
           (run_args "mock" false false) boot mock_loaded (loaded host_refusing)
           "/tmp/mock-1700000000" (collected host_refusing)
           "/tmp/mock-1700000000.tar.xz" (CollaboratorError "upload failed"));
    vm_compute; reflexivity.
Defined.

(** C9 as the specification states it fails: when the upload fails the run
    ends with the upload's error and nothing is printed, so there is no
    summary that reports the upload as unsuccessful or holds the collect
    duration. *)
Lemma C9_upload_failure_prints_nothing :
  (doRun host_refusing (run_args "mock" false false) boot).1
  = Err (CollaboratorError "upload failed") ∧
  stdout (doRun host_refusing (run_args "mock" false false) boot).2 = [].
Proof. split; vm_compute; reflexivity. Qed.

Lemma C1_no_upload_witness :
  ∃ w' dto,
    doRun host0 (run_args "mock" false true) boot = (Ok tt, w') ∧
    calls w' = calls boot ∧
    fs w' = fs (collected host0) ∧
    fs w' !! filepath_Abs host0 "/tmp/mock-1700000000" = Some NDir ∧
    stdout w' = stdout (collected host0) ++ [printed (run_args "mock" false true) dto] ∧
    run_Keep dto = true ∧ run_KeepPath dto = "/tmp/mock-1700000000" ∧
    run_Upload dto = false ∧ run_UploadDuration dto = 0.
Proof.
  apply (C1_no_upload_keeps_the_directory host0 (run_args "mock" false true)
           boot mock_loaded (loaded host0) "/tmp/mock-1700000000" (collected host0));
    vm_compute; reflexivity.
Defined.

(** C1 as the specification states it fails: a run asked not to upload and
    not asked to keep succeeds and leaves its output directory in place. *)
Lemma C1_no_upload_alone_keeps_the_directory :
  flag_keep (run_args "mock" false true) = false ∧
  flag_no_upload (run_args "mock" false true) = true ∧
  (doRun host0 (run_args "mock" false true) boot).1 = Ok tt ∧
  fs (doRun host0 (run_args "mock" false true) boot).2 !! "/tmp/mock-1700000000"
  = Some NDir.
Proof. repeat split; vm_compute; reflexivity. Qed.

Lemma C3_directory_witness :
  fs (doRun host0 (run_args "mock" false false) boot).2
    !! filepath_Abs host0 "/tmp/mock-1700000000" = None ∧
  fs (doRun host0 (run_args "mock" true false) boot).2
    !! filepath_Abs host0 "/tmp/mock-1700000000" = Some NDir ∧
  ∃ dto, last (stdout (doRun host0 (run_args "mock" true false) boot).2)
         = Some (printed (run_args "mock" true false) dto) ∧
         run_Keep dto = true ∧ run_KeepPath dto = "/tmp/mock-1700000000".
Proof.
  assert (GetCollector host0 "mock" boot = (Ok mock_loaded, loaded host0)) as Hg
    by (vm_compute; reflexivity).
  assert (Collect host0 mock_loaded (tick (loaded host0))
          = (Ok "/tmp/mock-1700000000", collected host0)) as Hc
    by (vm_compute; reflexivity).
  split.
  - apply (C3_directory_after_the_run host0 (run_args "mock" false false) boot
             mock_loaded (loaded host0) "/tmp/mock-1700000000" (collected host0)
             (doRun host0 (run_args "mock" false false) boot).1
             (doRun host0 (run_args "mock" false false) boot).2);
      [exact Hg|exact Hc|by destruct (doRun _ _ _)|reflexivity|reflexivity].
  - destruct (C3_directory_after_the_run host0 (run_args "mock" true false) boot
                mock_loaded (loaded host0) "/tmp/mock-1700000000" (collected host0)
                (doRun host0 (run_args "mock" true false) boot).1
                (doRun host0 (run_args "mock" true false) boot).2)
      as [_ Hkept]; [exact Hg|exact Hc|by destruct (doRun _ _ _)|].
    destruct Hkept as [Hdir Hsum]; [reflexivity| |].
    + intros a [= <-]. vm_compute. discriminate.
    + split; [exact Hdir|]. apply Hsum. vm_compute. reflexivity.
Defined.

(** C3 as the specification states it fails. A run not asked to keep but
    asked not to upload leaves the directory in place; and a run asked to
    keep whose packing fails ends with the packing error and prints no
    summary for the path to appear in. *)
Lemma C3_kept_without_keep_and_no_summary_on_failure :
  (flag_keep (run_args "mock" false true) = false ∧
   fs (doRun host0 (run_args "mock" false true) boot).2 !! "/tmp/mock-1700000000"
   = Some NDir) ∧
  (flag_keep (run_args "mock" true false) = true ∧
   (doRun host_unpacked (run_args "mock" true false) boot).1
   = Err (CollaboratorError "packaging failed") ∧
   stdout (doRun host_unpacked (run_args "mock" true false) boot).2 = []).
Proof. repeat split; vm_compute; reflexivity. Qed.

(** A run whose command fails returns the error and leaves behind the
    directory it made: [Collect] returns no path when it fails, so the
    deferred removal is given the empty path and removes nothing. *)
Example failed_collect_leaves_the_directory :
  (doRun host0 (run_args "bad" false false) boot).1
  = Err (errorString "could not run collector: exit status 1") ∧
  fs (doRun host0 (run_args "bad" false false) boot).2 !! "/tmp/bad-1700000000"
  = Some NDir.
Proof. split; vm_compute; reflexivity. Qed.

(** ** Loading a definition *)

Lemma newCollectorFromConfiguration_parsed E path config cc w :
  toml_Decode E config = Some cc →
  newCollectorFromConfiguration E path config w
  = (Ok (set_Generated_Path cc path), add_log (parsed_record cc path) w).
Proof. intros Hd. unfold newCollectorFromConfiguration. by rewrite Hd. Qed.

Lemma newCollectorFromConfiguration_refused E path config w :
  toml_Decode E config = None →
  (newCollectorFromConfiguration E path config w).1
  = Err (errorString "cannot parse collector configuration").
Proof. intros Hd. unfold newCollectorFromConfiguration. by rewrite Hd. Qed.

(** A file that is there, can be read and is TOML is loaded, with the
    absolute path it was read from. *)
Lemma newCollectorFromPath_loads E p w data cc :
  filepath_Abs E p ≠ "" →
  fault E OpStat (filepath_Abs E (filepath_Abs E p)) = false →
  fault E OpRead (filepath_Abs E (filepath_Abs E p)) = false →
  fs w !! filepath_Abs E (filepath_Abs E p) = Some (NFile data) →
  toml_Decode E data = Some cc →
  newCollectorFromPath E p w
  = (Ok (set_Generated_Path cc (filepath_Abs E p)),
     add_log (parsed_record cc (filepath_Abs E p)) w).
Proof.
  intros Hne Hs Hr Hq Hd. unfold newCollectorFromPath, os_Stat, os_ReadFile. munfold.
  destruct (decide (filepath_Abs E p = "")) as [Hz|Hz]; [done|].
  rewrite Hs, Hq. simpl. rewrite Hr, Hq. simpl.
  by apply newCollectorFromConfiguration_parsed.
Qed.

(** And nothing else is: what is loaded was there, could be read and was
    TOML.  Loading changes no file and prints nothing. *)
Lemma newCollectorFromPath_inv E p w r w' :
  newCollectorFromPath E p w = (r, w') →
  fs w' = fs w ∧ stdout w' = stdout w ∧
  ∀ c, r = Ok c →
    ∃ data cc,
      fault E OpStat (filepath_Abs E (filepath_Abs E p)) = false ∧
      fault E OpRead (filepath_Abs E (filepath_Abs E p)) = false ∧
      fs w !! filepath_Abs E (filepath_Abs E p) = Some (NFile data) ∧
      toml_Decode E data = Some cc ∧
      c = set_Generated_Path cc (filepath_Abs E p).
Proof.
  unfold newCollectorFromPath, os_Stat, os_ReadFile, newCollectorFromConfiguration.
  munfold.
  destruct (decide (filepath_Abs E p = "")) as [Hz|Hz]; simpl.
  { intros [= <- <-]. by repeat split. }
  destruct (fault E OpStat _) eqn:Hs; simpl.
  { intros [= <- <-]. by repeat split. }
  destruct (fs w !! _) as [n|] eqn:Hq; simpl.
  2:{ intros [= <- <-]. by repeat split. }
  destruct (fault E OpRead _) eqn:Hr; simpl.
  { intros [= <- <-]. by repeat split. }
  rewrite Hq. destruct n as [|data]; simpl.
  { intros [= <- <-]. by repeat split. }
  destruct (toml_Decode E data) as [cc|] eqn:Hd; simpl.
  - intros [= <- <-]. repeat split. intros c [= <-]. by exists data, cc.
  - intros [= <- <-]. by repeat split.
Qed.

Lemma newCollectorFromPath_result E p w w2 :
  fs w = fs w2 →
  (newCollectorFromPath E p w).1 = (newCollectorFromPath E p w2).1.
Proof.
  intros Hfs.
  unfold newCollectorFromPath, os_Stat, os_ReadFile, newCollectorFromConfiguration.
  munfold. rewrite Hfs.
  destruct (decide (filepath_Abs E p = "")) as [Hz|Hz]; [done|].
  destruct (fault E OpStat _); [done|].
  destruct (fs w2 !! _) as [n|] eqn:Hq; simpl; [|done].
  destruct (fault E OpRead _); [done|].
  rewrite Hfs, Hq. destruct n as [|data]; simpl; [done|].
  by destruct (toml_Decode E data).
Qed.

Lemma ensureCollectorsDirectory_inv E w r w' :
  ensureCollectorsDirectory E w = (r, w') →
  fs w' = fs w ∧ stdout w' = stdout w.
Proof.
  unfold ensureCollectorsDirectory, os_Stat. munfold.
  destruct (decide (CONFIGURATIONS_DIR E = "")) as [Hz|Hz]; simpl; [by intros [= <- <-]|].
  destruct (fault E OpStat _); simpl; [by intros [= <- <-]|].
  destruct (fs w !! _); simpl; by intros [= <- <-].
Qed.

Lemma ensureCollectorsDirectory_exists E w n :
  CONFIGURATIONS_DIR E ≠ "" →
  fs w !! filepath_Abs E (CONFIGURATIONS_DIR E) = Some n →
  ensureCollectorsDirectory E w = (Ok tt, w).
Proof.
  intros Hne Hq. unfold ensureCollectorsDirectory, os_Stat. munfold.
  destruct (decide (CONFIGURATIONS_DIR E = "")) as [Hz|Hz]; [done|].
  destruct (fault E OpStat _); simpl; [done|]. by rewrite Hq.
Qed.

(** The directory check refuses the empty name. *)
Lemma ensureCollectorsDirectory_named E w w' :
  ensureCollectorsDirectory E w = (Ok tt, w') → CONFIGURATIONS_DIR E ≠ "".
Proof.
  unfold ensureCollectorsDirectory, os_Stat. munfold.
  by destruct (decide (CONFIGURATIONS_DIR E = "")) as [Hz|Hz].
Qed.

Lemma GetCollector_named E id w c w' :
  GetCollector E id w = (Ok c, w') → CONFIGURATIONS_DIR E ≠ "".
Proof.
  unfold GetCollector. unfold bind.
  destruct (ensureCollectorsDirectory E w) as [[[]|e] w1] eqn:He; [|done].
  intros _. by eapply ensureCollectorsDirectory_named.
Qed.

(** The path [GetCollector] resolves an id to. *)
Lemma GetCollector_inv E id w c w' :
  GetCollector E id w = (Ok c, w') →
  fs w' = fs w ∧ stdout w' = stdout w ∧
  ∃ data cc,
    fault E OpStat (filepath_Abs E (definition_path E id)) = false ∧
    fault E OpRead (filepath_Abs E (definition_path E id)) = false ∧
    fs w !! filepath_Abs E (definition_path E id) = Some (NFile data) ∧
    toml_Decode E data = Some cc ∧
    c = set_Generated_Path cc (definition_path E id).
Proof.
  unfold GetCollector. unfold bind.
  destruct (ensureCollectorsDirectory E w) as [[[]|e] w1] eqn:He; [|done].
  apply ensureCollectorsDirectory_inv in He as [Hfs Ho].
  intros Hl. apply newCollectorFromPath_inv in Hl as (Hfs' & Ho' & Hc).
  rewrite Hfs', Ho', Hfs, Ho. repeat split.
  destruct (Hc c eq_refl) as (data & cc & ? & ? & Hq & ? & ?).
  rewrite Hfs in Hq. by exists data, cc.
Qed.

(** A definition with the empty command gets as far as the launch. *)
Lemma Collect_empty_command E c w d w1 :
  Command (Exec c) = "" →
  generateCollectionDirectory E c w = (Ok d, w1) →
  (Collect E c w).1 = Err (errorString "could not run collector: exec: no command").
Proof.
  intros Hcmd Hg.
  assert (exec_Run E (command_name c) (command_args c) (collect_env E d)
          = (Some (errorString "exec: no command"), "", "")) as Hr.
  { unfold exec_Run, command_name. by rewrite Hcmd. }
  by rewrite (Collect_run_failed _ _ _ _ _ _ _ _ Hg Hr).
Qed.

(** C2 (as amended).  Loading looks at the document's syntax only: a
    document the TOML library accepts is loaded whatever its command is,
    an empty or a missing one too, and the only document refused as
    malformed is one the library rejects.  A definition loaded with the
    empty command is refused when it is run, where the subprocess is to
    be started. *)
Theorem C2_loading_refuses_only_what_the_parser_refuses E path config w :
  match toml_Decode E config with
  | Some cc =>
      (newCollectorFromConfiguration E path config w).1
      = Ok (set_Generated_Path cc path) ∧
      (Command (Exec cc) = "" →
       ∀ w0 d w1,
         generateCollectionDirectory E (set_Generated_Path cc path) w0 = (Ok d, w1) →
         (Collect E (set_Generated_Path cc path) w0).1
         = Err (errorString "could not run collector: exec: no command"))
  | None =>
      (newCollectorFromConfiguration E path config w).1
      = Err (errorString "cannot parse collector configuration")
  end.
Proof.
  destruct (toml_Decode E config) as [cc|] eqn:Hd.
  - split; [by rewrite (newCollectorFromConfiguration_parsed _ _ _ _ _ Hd)|].
    intros Hcmd w0 d w1 Hg. by eapply Collect_empty_command.
  - by apply newCollectorFromConfiguration_refused.
Qed.

Lemma C2_loading_witness :
  (newCollectorFromConfiguration host0 "/root/collectors.d/empty.toml" doc_empty boot).1
  = Ok (set_Generated_Path (mk_collector "empty" "") "/root/collectors.d/empty.toml") ∧
  (Collect host0
     (set_Generated_Path (mk_collector "empty" "") "/root/collectors.d/empty.toml")
     boot).1
  = Err (errorString "could not run collector: exec: no command").
Proof.
  destruct (C2_loading_refuses_only_what_the_parser_refuses host0
              "/root/collectors.d/empty.toml" doc_empty boot) as [Hload Hrun].
  split; [exact Hload|].
  apply (Hrun eq_refl boot "/tmp/empty-1700000000"
           (generateCollectionDirectory host0
              (set_Generated_Path (mk_collector "empty" "")
                 "/root/collectors.d/empty.toml") boot).2).
  vm_compute. reflexivity.
Defined.

(** C2 as the specification states it fails: the definition whose command
    is the empty string and the one without an [exec] table are both
    loaded, their command splitting into no token that is not empty, and a
    run of the first reaches the launch of the subprocess. *)
Lemma C2_empty_command_is_loaded :
  (GetCollector host0 "empty" boot).1
  = Ok (set_Generated_Path (mk_collector "empty" "") "/root/collectors.d/empty.toml") ∧
  (GetCollector host0 "noexec" boot).1
  = Ok (set_Generated_Path (mk_noexec "noexec") "/root/collectors.d/noexec.toml") ∧
  strings_Split " " "" = [""] ∧
  (doRun host0 (run_args "empty" false false) boot).1
  = Err (errorString "could not run collector: exec: no command").
Proof. repeat split; vm_compute; reflexivity. Qed.

(** ** The algebra of clean paths *)

Lemma filepath_Clean_render p :
  filepath_Clean p = render (filepath_IsAbs p) (Clean_stack p).
Proof. done. Qed.

Lemma strings_Split_concat sep a b :
  strings_Split sep (a +:+ String sep b) = strings_Split sep a ++ strings_Split sep b.
Proof.
  induction a as [|c r IH]; simpl.
  - by rewrite Ascii.eqb_refl.
  - rewrite IH. destruct (Ascii.eqb c sep); [done|].
    pose proof (strings_Split_nonempty sep r).
    by destruct (strings_Split sep r).
Qed.

Lemma strings_Split_no_sep sep s :
  Forall (λ x, strings_ContainsByte x sep = false) (strings_Split sep s).
Proof.
  induction s as [|c r IH]; simpl; [by repeat constructor|].
  destruct (Ascii.eqb c sep) eqn:Hc; [by constructor|].
  destruct (strings_Split sep r) as [|h t]; [by repeat constructor; simpl; rewrite Hc|].
  inversion IH; subst. constructor; [|done]. simpl. by rewrite Hc.
Qed.

Lemma strings_Join_cons x y rest sep :
  strings_Join (x :: y :: rest) sep = x +:+ sep +:+ strings_Join (y :: rest) sep.
Proof. done. Qed.

Lemma strings_Split_Join kept :
  kept ≠ [] →
  Forall (λ x, strings_ContainsByte x Separator = false) kept →
  strings_Split Separator (strings_Join kept "/") = kept.
Proof.
  induction kept as [|x [|y rest] IH]; intros Hne Hall; [done|..].
  - inversion Hall; subst. by apply strings_Split_plain.
  - inversion Hall; subst. rewrite strings_Join_cons.
    change (x +:+ "/" +:+ strings_Join (y :: rest) "/")
      with (x +:+ String Separator (strings_Join (y :: rest) "/")).
    rewrite strings_Split_concat, IH by done.
    by rewrite strings_Split_plain.
Qed.

Lemma string_app_cons x (a b : string) : String x a +:+ b = String x (a +:+ b).
Proof. done. Qed.

Lemma string_app_assoc (a b c : string) : (a +:+ b) +:+ c = a +:+ b +:+ c.
Proof.
  induction a as [|x a IH]; [done|]. by rewrite !string_app_cons, IH.
Qed.

Lemma strings_Join_snoc kept n :
  kept ≠ [] → strings_Join (kept ++ [n]) "/" = strings_Join kept "/" +:+ "/" +:+ n.
Proof.
  induction kept as [|x [|y rest] IH]; intros Hne; [done|done|].
  change ((x :: y :: rest) ++ [n]) with (x :: y :: (rest ++ [n])).
  rewrite !strings_Join_cons.
  change (y :: rest ++ [n]) with ((y :: rest) ++ [n]). rewrite IH by done.
  by rewrite !string_app_assoc.
Qed.

(** *** The kept elements *)

Lemma Clean_step_ok rooted stack elem :
  stack_ok rooted stack → stack_ok rooted (Clean_step rooted stack elem).
Proof.
  intros Hok. unfold Clean_step.
  destruct (decide (elem = "" ∨ elem = ".")) as [|Hn]; [done|].
  destruct (decide (elem = "..")) as [->|Hd].
  - destruct stack as [|top rest].
    + by destruct rooted.
    + destruct (decide (top = "..")) as [->|Ht].
      * simpl in *. destruct Hok as (? & ? & Hr & ?).
        destruct (Hr eq_refl) as [-> ?]. by repeat split.
      * simpl in Hok. by destruct Hok as (_ & _ & _ & ?).
  - simpl. repeat split; [by intros ->; apply Hn; left
                         |by intros ->; apply Hn; right|done..].
Qed.

Lemma Clean_fold_ok rooted comps stack :
  stack_ok rooted stack → stack_ok rooted (fold_left (Clean_step rooted) comps stack).
Proof.
  revert stack. induction comps as [|x xs IH]; intros stack Hok; [done|].
  simpl. apply IH. by apply Clean_step_ok.
Qed.

Lemma Clean_step_no_sep rooted stack elem :
  strings_ContainsByte elem Separator = false →
  Forall (λ x, strings_ContainsByte x Separator = false) stack →
  Forall (λ x, strings_ContainsByte x Separator = false) (Clean_step rooted stack elem).
Proof.
  intros He Hall. unfold Clean_step.
  destruct (decide (elem = "" ∨ elem = ".")); [done|].
  destruct (decide (elem = "..")) as [->|].
  - destruct stack as [|top rest]; [destruct rooted; by repeat constructor|].
    destruct (decide (top = "..")); [by constructor|]. by inversion Hall.
  - by constructor.
Qed.

Lemma Clean_fold_no_sep rooted comps stack :
  Forall (λ x, strings_ContainsByte x Separator = false) comps →
  Forall (λ x, strings_ContainsByte x Separator = false) stack →
  Forall (λ x, strings_ContainsByte x Separator = false)
    (fold_left (Clean_step rooted) comps stack).
Proof.
  revert stack. induction comps as [|x xs IH]; intros stack Hc Hs; [done|].
  inversion Hc; subst. simpl. apply IH; [done|]. by apply Clean_step_no_sep.
Qed.

Lemma Clean_stack_ok p : stack_ok (filepath_IsAbs p) (Clean_stack p).
Proof. by apply Clean_fold_ok. Qed.

Lemma Clean_stack_no_sep p :
  Forall (λ x, strings_ContainsByte x Separator = false) (Clean_stack p).
Proof. apply Clean_fold_no_sep; [apply strings_Split_no_sep|done]. Qed.

(** Reading a stack of kept elements again keeps all of them. *)
Lemma Clean_fold_rev rooted stack :
  stack_ok rooted stack →
  fold_left (Clean_step rooted) (rev stack) [] = stack.
Proof.
  induction stack as [|top rest IH]; intros Hok; [done|].
  simpl in Hok. destruct Hok as (Hne & Hnd & Hdd & Hrest).
  simpl. rewrite fold_left_app, IH by done. simpl.
  unfold Clean_step.
  destruct (decide (top = "" ∨ top = ".")) as [[?|?]|_]; [done..|].
  destruct (decide (top = "..")) as [->|]; [|done].
  destruct (Hdd eq_refl) as [-> Hr].
  destruct rest as [|t rest']; [done|]. subst t.
  by destruct (decide (".." = "..")).
Qed.

Lemma rev_nil_inv {A} (l : list A) : rev l = [] → l = [].
Proof. destruct l as [|x l]; [done|]. simpl. by destruct (rev l). Qed.

Lemma stack_ok_Forall rooted stack :
  stack_ok rooted stack → Forall (λ x, x ≠ "" ∧ x ≠ ".") stack.
Proof.
  induction stack as [|t rest IH]; [done|]. simpl.
  intros (? & ? & _ & ?). constructor; [done|]. by apply IH.
Qed.


(** A written path starts with the separator exactly when it is rooted. *)
Lemma render_IsAbs rooted stack :
  stack_ok rooted stack →
  Forall (λ x, strings_ContainsByte x Separator = false) stack →
  filepath_IsAbs (render rooted stack) = rooted.
Proof.
  intros Hok Hsep. unfold render. destruct rooted.
  { reflexivity. }
  destruct (rev stack) as [|x rest] eqn:Hrev; [done|].
  assert (x ∈ stack) as Hx.
  { apply list_elem_of_In, in_rev. rewrite Hrev. by left. }
  apply stack_ok_Forall in Hok.
  rewrite Forall_forall in Hok, Hsep.
  destruct (Hok x Hx) as [Hne _]. specialize (Hsep x Hx).
  destruct x as [|c x']; [done|].
  simpl in Hsep. apply orb_false_iff in Hsep as [Hc _].
  assert (∃ tl, strings_Join (String c x' :: rest) "/" = String c tl) as [tl ->].
  { destruct rest; [by eexists|].
    rewrite strings_Join_cons, string_app_cons. by eexists. }
  change (filepath_IsAbs (String c tl)) with (Ascii.eqb Separator c && true).
  by rewrite Ascii.eqb_sym, Hc.
Qed.

(** Cleaning a written path reads back its elements. *)
Lemma Clean_stack_render rooted stack :
  stack_ok rooted stack →
  Forall (λ x, strings_ContainsByte x Separator = false) stack →
  fold_left (Clean_step rooted) (strings_Split Separator (render rooted stack)) []
  = stack.
Proof.
  intros Hok Hsep. unfold render.
  assert (Forall (λ x, strings_ContainsByte x Separator = false) (rev stack)) as Hsep'
    by (by apply List.Forall_rev).
  destruct (rev stack) as [|x rest] eqn:Hrev.
  - apply rev_nil_inv in Hrev as ->. by destruct rooted.
  - destruct rooted.
    + change ("/" +:+ strings_Join (x :: rest) "/")
        with ("" +:+ String Separator (strings_Join (x :: rest) "/")).
      rewrite strings_Split_concat, strings_Split_Join by done.
      simpl strings_Split. simpl app.
      change (fold_left (Clean_step true) ("" :: x :: rest) [])
        with (fold_left (Clean_step true) (x :: rest) []).
      rewrite <-Hrev. by apply Clean_fold_rev.
    + rewrite strings_Split_Join by done.
      rewrite <-Hrev. by apply Clean_fold_rev.
Qed.

Lemma filepath_Clean_IsAbs p :
  filepath_IsAbs (filepath_Clean p) = filepath_IsAbs p.
Proof.
  rewrite filepath_Clean_render.
  apply render_IsAbs; [apply Clean_stack_ok|apply Clean_stack_no_sep].
Qed.

Lemma Clean_stack_Clean p : Clean_stack (filepath_Clean p) = Clean_stack p.
Proof.
  unfold Clean_stack at 1. rewrite filepath_Clean_IsAbs, filepath_Clean_render.
  apply Clean_stack_render; [apply Clean_stack_ok|apply Clean_stack_no_sep].
Qed.

(** [filepath.Clean] is idempotent. *)
Lemma filepath_Clean_idemp p :
  filepath_Clean (filepath_Clean p) = filepath_Clean p.
Proof.
  rewrite (filepath_Clean_render (filepath_Clean p)).
  by rewrite filepath_Clean_IsAbs, Clean_stack_Clean.
Qed.

(** *** One more element at the end *)

Lemma filepath_IsAbs_app d x :
  d ≠ "" → filepath_IsAbs (d +:+ x) = filepath_IsAbs d.
Proof. destruct d as [|c d']; [done|]. intros _. by rewrite string_app_cons. Qed.

Lemma plain_name_step rooted stack n :
  plain_name n → Clean_step rooted stack n = n :: stack.
Proof. intros (? & ? & ? & _). by apply Clean_step_name. Qed.

Lemma Clean_stack_snoc d n :
  d ≠ "" → plain_name n →
  Clean_stack (d +:+ "/" +:+ n) = n :: Clean_stack d.
Proof.
  intros Hd Hn. unfold Clean_stack. rewrite filepath_IsAbs_app by done.
  change (d +:+ "/" +:+ n) with (d +:+ String Separator n).
  rewrite strings_Split_concat, (strings_Split_plain _ n) by apply Hn.
  rewrite fold_left_app. simpl. by apply plain_name_step.
Qed.

Lemma strings_Join_nonempty x rest sep : x ≠ "" → strings_Join (x :: rest) sep ≠ "".
Proof.
  intros Hx. destruct x as [|c x']; [done|].
  destruct rest; [done|]. by rewrite strings_Join_cons, string_app_cons.
Qed.

Lemma strings_Join_not_dot x rest :
  x ≠ "" → x ≠ "." → strings_Join (x :: rest) "/" ≠ ".".
Proof.
  intros Hx Hd. destruct rest; [done|].
  rewrite strings_Join_cons. destruct x as [|c x']; [done|].
  rewrite string_app_cons. intros [= -> Heq]. by destruct x'.
Qed.

(** The path of the entry [n] of the directory written [c]. *)
Lemma filepath_Clean_snoc d n :
  d ≠ "" → plain_name n →
  filepath_Clean (d +:+ "/" +:+ n)
  = if decide (filepath_Clean d = ".") then n
    else dir_prefix (filepath_Clean d) +:+ n.
Proof.
  intros Hd Hn.
  rewrite (filepath_Clean_render (d +:+ "/" +:+ n)), (filepath_Clean_render d).
  rewrite Clean_stack_snoc, filepath_IsAbs_app by done.
  pose proof (Clean_stack_ok d) as Hok.
  pose proof (Clean_stack_no_sep d) as Hsep.
  pose proof (render_IsAbs _ _ Hok Hsep) as Habs.
  revert Habs. unfold render. simpl rev.
  destruct (rev (Clean_stack d)) as [|x rest] eqn:Hrev.
  - simpl app. destruct (filepath_IsAbs d); intros _; [|done].
    by destruct (decide ("/" +:+ strings_Join [] "/" = ".")).
  - assert (x ≠ "" ∧ x ≠ ".") as [Hx1 Hx2].
    { apply stack_ok_Forall in Hok. rewrite Forall_forall in Hok. apply Hok.
      apply list_elem_of_In, in_rev. rewrite Hrev. by left. }
    rewrite strings_Join_snoc by done.
    destruct (filepath_IsAbs d); intros Habs.
    + destruct (decide (_ = ".")) as [|_]; [done|].
      unfold dir_prefix. destruct (decide (_ = "/")) as [Heq|_].
      * injection Heq as Heq. by apply strings_Join_nonempty in Heq.
      * by rewrite !string_app_assoc.
    + destruct (decide (_ = ".")) as [Heq|_].
      { by apply strings_Join_not_dot in Heq. }
      unfold dir_prefix. destruct (decide (_ = "/")) as [Heq|_].
      * by rewrite Heq in Habs.
      * by rewrite !string_app_assoc.
Qed.

(** *** A relative path joined to a directory *)

Lemma Clean_step_skip rooted stack x :
  x = "" ∨ x = "." → Clean_step rooted stack x = stack.
Proof. intros Hx. unfold Clean_step. by destruct (decide (x = "" ∨ x = ".")). Qed.

Lemma Clean_step_up rooted stack :
  Clean_step rooted stack ".."
  = match stack with
    | top :: rest => if decide (top = "..") then ".." :: stack else rest
    | [] => if rooted then [] else [".."]
    end.
Proof. done. Qed.

Lemma Clean_fold_relative rooted comps stack :
  fold_left (Clean_step rooted) (rev (fold_left (Clean_step false) comps [])) stack
  = fold_left (Clean_step rooted) comps stack.
Proof.
  induction comps as [|x xs IH] using rev_ind; [done|].
  rewrite !fold_left_app. simpl. rewrite <-IH.
  pose proof (Clean_fold_ok false xs [] I) as Hok.
  set (st := fold_left (Clean_step false) xs []) in *. clearbody st. clear IH.
  destruct (decide (x = "" ∨ x = ".")) as [Hs|Hn].
  { by rewrite !Clean_step_skip. }
  destruct (decide (x = "..")) as [->|Hd].
  - rewrite (Clean_step_up false). destruct st as [|top rest]; [done|].
    destruct (decide (top = "..")) as [->|Ht].
    + simpl. by rewrite fold_left_app.
    + simpl in Hok. destruct Hok as (Ht1 & Ht2 & _).
      simpl. rewrite fold_left_app. simpl.
      rewrite (Clean_step_name rooted _ top) by done.
      rewrite Clean_step_up. by destruct (decide (top = "..")).
  - assert (x ≠ "") by (intros ->; apply Hn; auto).
    assert (x ≠ ".") by (intros ->; apply Hn; auto).
    rewrite !Clean_step_name by done.
    simpl. rewrite fold_left_app. simpl. by rewrite Clean_step_name.
Qed.

Lemma Clean_fold_Clean rooted b stack :
  filepath_IsAbs b = false →
  fold_left (Clean_step rooted) (strings_Split Separator (filepath_Clean b)) stack
  = fold_left (Clean_step rooted) (strings_Split Separator b) stack.
Proof.
  intros Hb. rewrite <-(Clean_fold_relative rooted (strings_Split Separator b)).
  assert (fold_left (Clean_step false) (strings_Split Separator b) [] = Clean_stack b)
    as -> by (unfold Clean_stack; by rewrite Hb).
  pose proof (Clean_stack_ok b) as Hok. pose proof (Clean_stack_no_sep b) as Hsep.
  rewrite filepath_Clean_render, Hb. unfold render.
  destruct (rev (Clean_stack b)) as [|x rest] eqn:Hrev.
  - simpl. by rewrite Clean_step_skip by auto.
  - rewrite strings_Split_Join; [done..|].
    rewrite <-Hrev. by apply List.Forall_rev.
Qed.

Lemma filepath_Clean_join_clean a b :
  a ≠ "" → filepath_IsAbs b = false →
  filepath_Clean (a +:+ "/" +:+ filepath_Clean b) = filepath_Clean (a +:+ "/" +:+ b).
Proof.
  intros Ha Hb.
  rewrite (filepath_Clean_render (a +:+ "/" +:+ _)),
          (filepath_Clean_render (a +:+ "/" +:+ b)).
  rewrite !filepath_IsAbs_app by done. f_equal.
  unfold Clean_stack. rewrite !filepath_IsAbs_app by done.
  change (a +:+ "/" +:+ filepath_Clean b) with (a +:+ String Separator (filepath_Clean b)).
  change (a +:+ "/" +:+ b) with (a +:+ String Separator b).
  rewrite !strings_Split_concat, !fold_left_app.
  by apply Clean_fold_Clean.
Qed.

(** *** Absolute paths *)

Lemma filepath_Join_pair a b :
  a ≠ "" → filepath_Join [a; b] = filepath_Clean (a +:+ "/" +:+ b).
Proof. intros Ha. unfold filepath_Join. by destruct (decide (a = "")). Qed.

Lemma filepath_Join_single b :
  b ≠ "" → filepath_Join [""; b] = filepath_Clean b.
Proof.
  intros Hb. unfold filepath_Join. destruct (decide ("" = "")); [|done].
  by destruct (decide (b = "")).
Qed.

Lemma filepath_IsAbs_nonempty p : filepath_IsAbs p = true → p ≠ "".
Proof. by intros H ->. Qed.

Lemma filepath_Clean_trailing d :
  d ≠ "" → filepath_Clean (d +:+ "/" +:+ "") = filepath_Clean d.
Proof.
  intros Hd. rewrite !filepath_Clean_render, filepath_IsAbs_app by done. f_equal.
  unfold Clean_stack. rewrite filepath_IsAbs_app by done.
  change (d +:+ "/" +:+ "") with (d +:+ String Separator "").
  rewrite strings_Split_concat, fold_left_app. simpl.
  by rewrite Clean_step_skip by auto.
Qed.

Section Absolute.

Context (E : Env).
Hypothesis cwd_rooted : filepath_IsAbs (cwd E) = true.

Lemma cwd_nonempty : cwd E ≠ "".
Proof. by apply filepath_IsAbs_nonempty. Qed.

Lemma filepath_Abs_relative p :
  filepath_IsAbs p = false →
  filepath_Abs E p = filepath_Clean (cwd E +:+ "/" +:+ p).
Proof.
  intros Hp. unfold filepath_Abs. rewrite Hp.
  apply filepath_Join_pair, cwd_nonempty.
Qed.

Lemma filepath_Abs_rooted p :
  filepath_IsAbs p = true → filepath_Abs E p = filepath_Clean p.
Proof. intros Hp. unfold filepath_Abs. by rewrite Hp. Qed.

Lemma filepath_Abs_IsAbs p : filepath_IsAbs (filepath_Abs E p) = true.
Proof.
  destruct (filepath_IsAbs p) eqn:Hp.
  - by rewrite filepath_Abs_rooted, filepath_Clean_IsAbs.
  - rewrite filepath_Abs_relative, filepath_Clean_IsAbs by done.
    rewrite filepath_IsAbs_app; [done|apply cwd_nonempty].
Qed.

Lemma filepath_Abs_is_clean p :
  filepath_Clean (filepath_Abs E p) = filepath_Abs E p.
Proof.
  destruct (filepath_IsAbs p) eqn:Hp.
  - by rewrite filepath_Abs_rooted, filepath_Clean_idemp.
  - by rewrite filepath_Abs_relative, filepath_Clean_idemp.
Qed.

(** Resolving a resolved path changes nothing. *)
Lemma filepath_Abs_idemp p : filepath_Abs E (filepath_Abs E p) = filepath_Abs E p.
Proof.
  rewrite (filepath_Abs_rooted (filepath_Abs E p)) by apply filepath_Abs_IsAbs.
  apply filepath_Abs_is_clean.
Qed.

Lemma filepath_Abs_Clean p : filepath_Abs E (filepath_Clean p) = filepath_Abs E p.
Proof.
  destruct (filepath_IsAbs p) eqn:Hp.
  - rewrite !filepath_Abs_rooted by (by rewrite ?filepath_Clean_IsAbs).
    apply filepath_Clean_idemp.
  - rewrite !filepath_Abs_relative by (by rewrite ?filepath_Clean_IsAbs).
    apply filepath_Clean_join_clean; [apply cwd_nonempty|done].
Qed.

Lemma filepath_Abs_not_dot p : filepath_Abs E p ≠ ".".
Proof.
  intros Heq. pose proof (filepath_Abs_IsAbs p) as Habs. by rewrite Heq in Habs.
Qed.

Lemma plain_name_relative n : plain_name n → filepath_IsAbs n = false ∧ n ≠ "".
Proof.
  intros (Hne & _ & _ & Hsep). split; [|done].
  destruct n as [|c n']; [done|]. simpl in Hsep.
  apply orb_false_iff in Hsep as [Hc _].
  change (filepath_IsAbs (String c n')) with (Ascii.eqb Separator c && true).
  by rewrite Ascii.eqb_sym, Hc.
Qed.

(** The entry [n] of the directory [d] has the path of [d], the
    separator and [n]. *)
Lemma filepath_Abs_entry d n :
  plain_name n →
  filepath_Abs E (filepath_Join [d; n]) = dir_prefix (filepath_Abs E d) +:+ n.
Proof.
  intros Hn. destruct (plain_name_relative n Hn) as [Hrel Hne].
  assert (∀ a, filepath_IsAbs a = true →
               filepath_Clean (a +:+ "/" +:+ n) = dir_prefix (filepath_Clean a) +:+ n)
    as Hentry.
  { intros a Ha. rewrite filepath_Clean_snoc by (by apply filepath_IsAbs_nonempty || done).
    destruct (decide (filepath_Clean a = ".")) as [Heq|]; [|done].
    pose proof (filepath_Clean_IsAbs a) as Hc. by rewrite Heq, Ha in Hc. }
  destruct (decide (d = "")) as [->|Hd].
  - rewrite filepath_Join_single, filepath_Abs_Clean by done.
    rewrite filepath_Abs_relative by done.
    rewrite Hentry by done.
    rewrite (filepath_Abs_relative "") by done.
    by rewrite filepath_Clean_trailing by apply cwd_nonempty.
  - rewrite filepath_Join_pair, filepath_Abs_Clean by done.
    destruct (filepath_IsAbs d) eqn:Habs.
    + rewrite !filepath_Abs_rooted by (by rewrite ?filepath_IsAbs_app).
      by apply Hentry.
    + rewrite !filepath_Abs_relative by (by rewrite ?filepath_IsAbs_app).
      replace (cwd E +:+ "/" +:+ d +:+ "/" +:+ n)
        with ((cwd E +:+ "/" +:+ d) +:+ "/" +:+ n)
        by (by rewrite !string_app_assoc).
      apply Hentry. rewrite filepath_IsAbs_app; [done|apply cwd_nonempty].
Qed.

End Absolute.

(** *** The pattern of the scan *)

Arguments Ascii.eqb : simpl never.

Lemma strings_ContainsByte_app a b ch :
  strings_ContainsByte (a +:+ b) ch = strings_ContainsByte a ch || strings_ContainsByte b ch.
Proof.
  induction a as [|c a IH]; [done|].
  rewrite string_app_cons. simpl. by rewrite IH, orb_assoc.
Qed.

Lemma filepath_Split_snoc s n :
  strings_ContainsByte n Separator = false →
  filepath_Split (s +:+ String Separator n) = (s +:+ String Separator "", n).
Proof.
  intros Hn. induction s as [|c s IH].
  - change ("" +:+ String Separator n) with (String Separator n).
    cbn [filepath_Split]. destruct (filepath_Split n) as [d f]. by rewrite Hn.
  - rewrite !string_app_cons. cbn [filepath_Split]. rewrite IH.
    rewrite strings_ContainsByte_app. cbn [strings_ContainsByte].
    by rewrite Ascii.eqb_refl, orb_true_r.
Qed.

Lemma filepath_Split_plain n :
  strings_ContainsByte n Separator = false → filepath_Split n = ("", n).
Proof.
  induction n as [|c n IH]; [done|]. simpl.
  intros [Hc Hn]%orb_false_iff. rewrite (IH Hn), Hn.
  by rewrite Hc.
Qed.

Lemma string_init_snoc s c : string_init (s +:+ String c "") = s.
Proof.
  induction s as [|a s IH]; [done|].
  rewrite string_app_cons. simpl. rewrite IH.
  by destruct s.
Qed.

Lemma filepath_Clean_nonempty p : filepath_Clean p ≠ "".
Proof.
  rewrite filepath_Clean_render. pose proof (Clean_stack_ok p) as Hok.
  unfold render. destruct (filepath_IsAbs p); [done|].
  destruct (rev (Clean_stack p)) as [|x rest] eqn:Hrev; [done|].
  apply strings_Join_nonempty.
  apply stack_ok_Forall in Hok. rewrite Forall_forall in Hok.
  apply (Hok x). apply list_elem_of_In, in_rev. rewrite Hrev. by left.
Qed.

Lemma star_plain : plain_name "*".
Proof. done. Qed.

(** The pattern [Join(dir, "*")] splits into the cleaned [dir] and the
    star. *)
Lemma scan_pattern_split dir :
  ∃ pre, filepath_Split (filepath_Join [dir; "*"]) = (pre, "*") ∧
         cleanGlobPath pre = filepath_Clean dir.
Proof.
  destruct (decide (dir = "")) as [->|Hd].
  { by exists "". }
  rewrite filepath_Join_pair, filepath_Clean_snoc by (done || apply star_plain).
  destruct (decide (filepath_Clean dir = ".")) as [->|Hdot].
  { by exists "". }
  unfold dir_prefix. destruct (decide (filepath_Clean dir = "/")) as [->|Hroot].
  { by exists "/". }
  exists (filepath_Clean dir +:+ "/"). split.
  - rewrite string_app_assoc. by apply (filepath_Split_snoc _ "*").
  - unfold cleanGlobPath.
    destruct (decide (_ = "")) as [Heq|_].
    { by destruct (filepath_Clean dir). }
    destruct (decide (_ = "/")) as [Heq|_].
    { pose proof (filepath_Clean_nonempty dir).
      destruct (filepath_Clean dir) as [|c [|]]; done. }
    apply string_init_snoc.
Qed.

(** Cleaning brings in no byte but the separator and the dot. *)
Lemma strings_Split_bytes sep s x ch :
  x ∈ strings_Split sep s → strings_ContainsByte x ch = true →
  strings_ContainsByte s ch = true.
Proof.
  revert x. induction s as [|c r IH]; intros x Hx Hch.
  - simpl in Hx. apply list_elem_of_singleton in Hx as ->. done.
  - simpl in Hx. destruct (Ascii.eqb c sep).
    + apply elem_of_cons in Hx as [->|Hx]; [done|].
      simpl. rewrite (IH x Hx Hch). apply orb_true_r.
    + pose proof (strings_Split_nonempty sep r).
      destruct (strings_Split sep r) as [|h t]; [done|].
      apply elem_of_cons in Hx as [->|Hx].
      * simpl in Hch. apply orb_true_iff in Hch as [Hc|Hh]; simpl.
        -- by rewrite Hc.
        -- rewrite (IH h); [apply orb_true_r|by left|done].
      * simpl. rewrite (IH x); [apply orb_true_r|by right|done].
Qed.

Lemma Clean_step_elems rooted stack elem x :
  x ∈ Clean_step rooted stack elem → x = ".." ∨ x = elem ∨ x ∈ stack.
Proof.
  unfold Clean_step.
  destruct (decide (elem = "" ∨ elem = ".")); [by auto|].
  destruct (decide (elem = "..")) as [->|].
  - destruct stack as [|top rest].
    + destruct rooted; [by auto|]. intros ->%list_elem_of_singleton. by left.
    + destruct (decide (top = "..")).
      * intros [->|?]%elem_of_cons; by auto.
      * intros ?. right. right. by right.
  - intros [->|?]%elem_of_cons; by auto.
Qed.

Lemma Clean_fold_elems rooted comps stack x :
  x ∈ fold_left (Clean_step rooted) comps stack →
  x = ".." ∨ x ∈ comps ∨ x ∈ stack.
Proof.
  revert stack. induction comps as [|c cs IH]; intros stack Hx; [by auto|].
  simpl in Hx. apply IH in Hx as [?|[?|Hx]]; [by auto|by right; left; right|].
  apply Clean_step_elems in Hx as [?|[->|?]]; [by auto|by right; left; left|by auto].
Qed.

Lemma strings_Join_bytes l ch :
  strings_ContainsByte (strings_Join l "/") ch = true →
  ch = "/"%char ∨ ∃ x, x ∈ l ∧ strings_ContainsByte x ch = true.
Proof.
  induction l as [|x [|y rest] IH]; intros Hch; [done|..].
  - right. exists x. split; [by left|done].
  - rewrite strings_Join_cons, !strings_ContainsByte_app in Hch.
    apply orb_true_iff in Hch as [Hx|Hch].
    { right. exists x. split; [by left|done]. }
    apply orb_true_iff in Hch as [Hs|Hr].
    { left. simpl in Hs. rewrite orb_false_r in Hs.
      by apply Ascii.eqb_eq in Hs. }
    destruct (IH Hr) as [?|(z & Hz & ?)]; [by left|].
    right. exists z. split; [by right|done].
Qed.

Lemma filepath_Clean_bytes p ch :
  strings_ContainsByte (filepath_Clean p) ch = true →
  ch = "/"%char ∨ ch = "."%char ∨ strings_ContainsByte p ch = true.
Proof.
  rewrite filepath_Clean_render. unfold render. intros Hch.
  assert (strings_ContainsByte (strings_Join (rev (Clean_stack p)) "/") ch = true
          ∨ ch = "/"%char ∨ ch = "."%char) as [HJ|[?|?]]; [|clear Hch|by auto..].
  { destruct (filepath_IsAbs p).
    - rewrite strings_ContainsByte_app in Hch.
      apply orb_true_iff in Hch as [Hs|?]; [|by left].
      right. left. simpl in Hs. rewrite orb_false_r in Hs. by apply Ascii.eqb_eq in Hs.
    - destruct (rev (Clean_stack p)); [|by left].
      right. right. simpl in Hch. rewrite orb_false_r in Hch.
      by apply Ascii.eqb_eq in Hch. }
  apply strings_Join_bytes in HJ as [?|(x & Hx & Hxc)]; [by left|].
  apply list_elem_of_In, in_rev, list_elem_of_In in Hx.
  apply Clean_fold_elems in Hx as [->|[Hx|Hx]].
  - right. left. simpl in Hxc. rewrite orb_false_r, orb_diag in Hxc.
    by apply Ascii.eqb_eq in Hxc.
  - right. right. by eapply strings_Split_bytes.
  - by apply elem_of_nil in Hx.
Qed.

Lemma hasMeta_Clean p : hasMeta p = false → hasMeta (filepath_Clean p) = false.
Proof.
  unfold hasMeta. intros Hp.
  repeat (apply orb_false_iff in Hp as [Hp ?]).
  repeat (apply orb_false_iff; split);
    (destruct (strings_ContainsByte (filepath_Clean p) _) eqn:Hc; [|done];
     apply filepath_Clean_bytes in Hc as [?|[?|?]]; congruence).
Qed.

(** ** Scanning the directory of definitions *)

Lemma strip_prefix_app p s : strip_prefix p (p +:+ s) = Some s.
Proof.
  induction p as [|c p IH]; [done|].
  rewrite string_app_cons. cbn [strip_prefix]. by rewrite Ascii.eqb_refl.
Qed.

Lemma entry_name_entry d n :
  plain_name n → entry_name d (dir_prefix d +:+ n) = Some n.
Proof.
  intros (Hne & Hd & Hdd & Hsep). unfold entry_name. rewrite strip_prefix_app.
  destruct (decide (n = "" ∨ n = "." ∨ n = "..")) as [[?|[?|?]]|_]; [done..|].
  by rewrite Hsep.
Qed.

Lemma entry_name_plain d k n : entry_name d k = Some n → plain_name n.
Proof.
  unfold entry_name. destruct (strip_prefix _ k) as [m|]; [|done].
  destruct (decide (m = "" ∨ m = "." ∨ m = "..")) as [|Hm]; [done|].
  destruct (strings_ContainsByte m Separator) eqn:Hsep; [done|].
  intros [= <-]. repeat split; [| | |done]; intros ->; apply Hm; auto.
Qed.

(** The names listed are those of the entries the directory has. *)
Lemma sorted_names_elem (m : gmap string node) d n :
  n ∈ sorted_names m d ↔ ∃ k, is_Some (m !! k) ∧ entry_name d k = Some n.
Proof.
  unfold sorted_names. rewrite merge_sort_Permutation, list_elem_of_omap.
  split.
  - intros (k & Hk & Hn). exists k. split; [|done].
    apply list_elem_of_fmap in Hk as ([k' v] & -> & Hkv).
    apply elem_of_map_to_list in Hkv. by exists v.
  - intros (k & [v Hv] & Hn). exists k. split; [|done].
    apply list_elem_of_fmap. exists (k, v). split; [done|].
    by apply elem_of_map_to_list.
Qed.

(** The listing never fails and changes nothing. *)
Lemma glob_total E dir w : ∃ files, glob E dir w = (Ok files, w).
Proof.
  unfold glob, os_Stat. munfold.
  destruct (decide (dir = "")) as [Hz|Hz]; simpl; [by eexists|].
  destruct (fault E OpStat _); simpl; [by eexists|].
  destruct (fs w !! _) as [[|data]|]; simpl; [|by eexists..].
  destruct (fault E OpReaddir _); by eexists.
Qed.

Lemma glob_lists E dir w :
  dir ≠ "" →
  fault E OpStat (filepath_Abs E dir) = false →
  fault E OpReaddir (filepath_Abs E dir) = false →
  fs w !! filepath_Abs E dir = Some NDir →
  glob E dir w
  = (Ok ((λ n, filepath_Join [dir; n]) <$> sorted_names (fs w) (filepath_Abs E dir)), w).
Proof.
  intros Hne Hs Hr Hq. unfold glob, os_Stat. munfold.
  destruct (decide (dir = "")) as [Hz|Hz]; [done|].
  rewrite Hs, Hq. simpl. by rewrite Hr.
Qed.

Lemma filepath_Glob_scan E w :
  hasMeta (CONFIGURATIONS_DIR E) = false →
  filepath_Glob E (filepath_Join [CONFIGURATIONS_DIR E; "*"]) w
  = glob E (filepath_Clean (CONFIGURATIONS_DIR E)) w.
Proof.
  intros Hmeta. unfold filepath_Glob.
  destruct (scan_pattern_split (CONFIGURATIONS_DIR E)) as (pre & -> & ->).
  rewrite (hasMeta_Clean _ Hmeta). by rewrite bool_decide_eq_true_2.
Qed.

(** *** The loop over the files *)

Lemma load_same_files E w w2 file :
  fs w = fs w2 → load E w file = load E w2 file.
Proof.
  intros Hfs. unfold load. by rewrite (newCollectorFromPath_result E file w w2 Hfs).
Qed.

Lemma omap_load_same_files E w w2 (files : list string) :
  fs w = fs w2 → omap (load E w) files = omap (load E w2) files.
Proof.
  intros Hfs. induction files as [|f rest IH]; [done|].
  cbn [omap list_omap]. by rewrite IH, (load_same_files E w w2 f Hfs).
Qed.

Lemma newCollectorFromPath_logs E p w r w' :
  newCollectorFromPath E p w = (r, w') → ∀ l, l ∈ logs w → l ∈ logs w'.
Proof.
  unfold newCollectorFromPath, os_Stat, os_ReadFile, newCollectorFromConfiguration.
  munfold.
  destruct (decide (filepath_Abs E p = "")) as [Hz|Hz]; simpl.
  { intros [= <- <-] l Hl. simpl. apply elem_of_app. by left. }
  destruct (fault E OpStat _); simpl.
  { intros [= <- <-] l Hl. simpl. apply elem_of_app. by left. }
  destruct (fs w !! _) as [n|] eqn:Hq; simpl.
  2:{ intros [= <- <-] l Hl. simpl. apply elem_of_app. by left. }
  destruct (fault E OpRead _); simpl.
  { intros [= <- <-] l Hl. simpl. apply elem_of_app. by left. }
  rewrite Hq. destruct n as [|data]; simpl.
  { intros [= <- <-] l Hl. simpl. apply elem_of_app. by left. }
  destruct (toml_Decode E data); simpl;
    intros [= <- <-] l Hl; simpl; apply elem_of_app; by left.
Qed.

(** The loop returns every file that loads, in the order of the files,
    and leaves a line in the log for every file that does not. *)
Lemma GetCollectors_loop_spec E files : ∀ acc w,
  ∃ w', GetCollectors_loop E files acc w = (Ok (acc ++ omap (load E w) files), w') ∧
        fs w' = fs w ∧ stdout w' = stdout w ∧
        (∀ l, l ∈ logs w → l ∈ logs w') ∧
        (∀ file e, file ∈ files → (newCollectorFromPath E file w).1 = Err e →
                   skipped_record file e ∈ logs w').
Proof.
  induction files as [|file rest IH]; intros acc w.
  - exists w. simpl. rewrite app_nil_r. repeat split; [done|].
    intros ?? Hin. by apply elem_of_nil in Hin.
  - cbn [GetCollectors_loop]. unfold bind at 1. unfold attempt at 1.
    destruct (newCollectorFromPath E file w) as [r w1] eqn:Hl.
    pose proof (newCollectorFromPath_inv _ _ _ _ _ Hl) as (Hfs1 & Ho1 & _).
    pose proof (newCollectorFromPath_logs _ _ _ _ _ Hl) as Hlog1.
    assert (load E w file = match r with Ok c => Some c | Err _ => None end) as Hload
      by (unfold load; by rewrite Hl).
    destruct r as [c|e].
    + destruct (IH (acc ++ [c]) w1) as (w' & Hrun & Hfs & Ho & Hlog & Hskip).
      exists w'. rewrite Hrun. cbn [omap list_omap]. rewrite Hload.
      rewrite <-app_assoc. simpl.
      rewrite (omap_load_same_files E w w1 rest) by done.
      split; [done|]. split; [by rewrite Hfs|]. split; [by rewrite Ho|].
      split; [by auto|].
      intros f e [->|Hin]%elem_of_cons Hf.
      * by rewrite Hl in Hf.
      * apply Hskip; [done|].
        by rewrite <-(newCollectorFromPath_result E f w w1).
    + unfold bind, log_Printf, modify.
      set (w2 := add_log _ w1).
      destruct (IH acc w2) as (w' & Hrun & Hfs & Ho & Hlog & Hskip).
      exists w'. rewrite Hrun. cbn [omap list_omap]. rewrite Hload.
      rewrite (omap_load_same_files E w w2 rest) by done.
      split; [done|]. split; [by rewrite Hfs|]. split; [by rewrite Ho|]. split.
      * intros l Hin. apply Hlog. subst w2. simpl. apply elem_of_app. left. by auto.
      * intros f e' [->|Hin]%elem_of_cons Hf.
        -- rewrite Hl in Hf. injection Hf as <-.
           apply Hlog. subst w2. simpl. apply elem_of_app. right. by left.
        -- apply Hskip; [done|].
           by rewrite <-(newCollectorFromPath_result E f w w2).
Qed.

(** The scan of a directory whose name has no pattern byte: the files
    are those the listing gives, the result is every one of them that
    loads. *)
Lemma GetCollectors_scan E w :
  hasMeta (CONFIGURATIONS_DIR E) = false →
  CONFIGURATIONS_DIR E ≠ "" →
  is_Some (fs w !! filepath_Abs E (CONFIGURATIONS_DIR E)) →
  ∃ files w',
    glob E (filepath_Clean (CONFIGURATIONS_DIR E)) w = (Ok files, w) ∧
    GetCollectors E w = (Ok (omap (load E w) files), w') ∧
    fs w' = fs w ∧
    ∀ file e, file ∈ files → (newCollectorFromPath E file w).1 = Err e →
              skipped_record file e ∈ logs w'.
Proof.
  intros Hmeta Hne [nd Hdir].
  destruct (glob_total E (filepath_Clean (CONFIGURATIONS_DIR E)) w) as [files Hglob].
  destruct (GetCollectors_loop_spec E files [] w) as (w' & Hloop & Hfs & _ & _ & Hskip).
  exists files, w'. split; [done|].
  unfold GetCollectors. unfold bind at 1.
  rewrite (ensureCollectorsDirectory_exists _ _ _ Hne Hdir).
  unfold bind, attempt. rewrite (filepath_Glob_scan _ _ Hmeta), Hglob.
  by rewrite Hloop.
Qed.

Section Scan.

Context (E : Env).
Hypothesis cwd_rooted : filepath_IsAbs (cwd E) = true.

Lemma scan_lists_entry w n :
  fault E OpStat (filepath_Abs E (CONFIGURATIONS_DIR E)) = false →
  fault E OpReaddir (filepath_Abs E (CONFIGURATIONS_DIR E)) = false →
  fs w !! filepath_Abs E (CONFIGURATIONS_DIR E) = Some NDir →
  plain_name n →
  is_Some (fs w !! (dir_prefix (filepath_Abs E (CONFIGURATIONS_DIR E)) +:+ n)) →
  ∃ files,
    glob E (filepath_Clean (CONFIGURATIONS_DIR E)) w = (Ok files, w) ∧
    filepath_Join [filepath_Clean (CONFIGURATIONS_DIR E); n] ∈ files.
Proof.
  intros Hs Hr Hdir Hn Hfile.
  rewrite <-(filepath_Abs_Clean E cwd_rooted (CONFIGURATIONS_DIR E)) in Hs, Hr, Hdir, Hfile.
  eexists. split; [by apply glob_lists; [apply filepath_Clean_nonempty|..]|].
  apply list_elem_of_fmap. exists n. split; [done|].
  apply sorted_names_elem. eexists. split; [exact Hfile|].
  by apply entry_name_entry.
Qed.

(** A file of the directory that is there, can be read and is TOML is in
    the result of the scan. *)
Lemma GetCollectors_includes w n data cc :
  hasMeta (CONFIGURATIONS_DIR E) = false →
  CONFIGURATIONS_DIR E ≠ "" →
  fault E OpStat (filepath_Abs E (CONFIGURATIONS_DIR E)) = false →
  fault E OpReaddir (filepath_Abs E (CONFIGURATIONS_DIR E)) = false →
  fs w !! filepath_Abs E (CONFIGURATIONS_DIR E) = Some NDir →
  plain_name n →
  fs w !! (dir_prefix (filepath_Abs E (CONFIGURATIONS_DIR E)) +:+ n) = Some (NFile data) →
  fault E OpStat (dir_prefix (filepath_Abs E (CONFIGURATIONS_DIR E)) +:+ n) = false →
  fault E OpRead (dir_prefix (filepath_Abs E (CONFIGURATIONS_DIR E)) +:+ n) = false →
  toml_Decode E data = Some cc →
  ∃ cs w', GetCollectors E w = (Ok cs, w') ∧
           set_Generated_Path cc (dir_prefix (filepath_Abs E (CONFIGURATIONS_DIR E)) +:+ n)
           ∈ cs.
Proof.
  intros Hmeta Hne Hs Hr Hdir Hn Hfile Hfs Hfr Hdec.
  destruct (GetCollectors_scan E w Hmeta Hne) as (files & w' & Hglob & Hrun & _);
    [by eexists|].
  destruct (scan_lists_entry w n Hs Hr Hdir Hn) as (files' & Hglob' & Hin);
    [by eexists|].
  rewrite Hglob in Hglob'. injection Hglob' as <-.
  exists (omap (load E w) files), w'. split; [done|].
  apply list_elem_of_omap. eexists. split; [exact Hin|].
  assert (filepath_Abs E (filepath_Join [filepath_Clean (CONFIGURATIONS_DIR E); n])
          = dir_prefix (filepath_Abs E (CONFIGURATIONS_DIR E)) +:+ n) as Hpath.
  { rewrite filepath_Abs_entry by done. by rewrite filepath_Abs_Clean. }
  assert (filepath_Abs E (dir_prefix (filepath_Abs E (CONFIGURATIONS_DIR E)) +:+ n)
          = dir_prefix (filepath_Abs E (CONFIGURATIONS_DIR E)) +:+ n) as Hidem.
  { rewrite <-Hpath. by apply filepath_Abs_idemp. }
  unfold load.
  rewrite (newCollectorFromPath_loads E _ w data cc); rewrite ?Hpath, ?Hidem; try done.
  intros Heq. pose proof (filepath_Abs_IsAbs E cwd_rooted
    (dir_prefix (filepath_Abs E (CONFIGURATIONS_DIR E)) +:+ n)) as Habs.
  by rewrite Hidem, Heq in Habs.
Qed.

Lemma definition_name_plain id :
  strings_ContainsByte id Separator = false → plain_name (id +:+ ".toml").
Proof.
  intros Hid.
  assert (string_last (id +:+ ".toml") = Some "l"%char) as Hlast
    by (by rewrite string_last_app).
  repeat split; try (intros Heq; by rewrite Heq in Hlast).
  by rewrite strings_ContainsByte_app, Hid.
Qed.

Lemma definition_path_entry id :
  strings_ContainsByte id Separator = false →
  definition_path E id
  = dir_prefix (filepath_Abs E (CONFIGURATIONS_DIR E)) +:+ id +:+ ".toml".
Proof.
  intros Hid. unfold definition_path.
  by rewrite filepath_Abs_entry by (done || by apply definition_name_plain).
Qed.

End Scan.


(** C8.  A definition that [GetCollector] loads by an id that is a
    file's stem, with no separator in it, is among the definitions a
    following [GetCollectors] returns from the same directory, when that
    directory can be listed and its name has no pattern byte. *)
Theorem C8_loaded_one_is_among_all E id w c w1 :
  hasMeta (CONFIGURATIONS_DIR E) = false →
  filepath_IsAbs (cwd E) = true →
  strings_ContainsByte id Separator = false →
  fs w !! filepath_Abs E (CONFIGURATIONS_DIR E) = Some NDir →
  fault E OpStat (filepath_Abs E (CONFIGURATIONS_DIR E)) = false →
  fault E OpReaddir (filepath_Abs E (CONFIGURATIONS_DIR E)) = false →
  GetCollector E id w = (Ok c, w1) →
  ∃ cs w2, GetCollectors E w1 = (Ok cs, w2) ∧ c ∈ cs.
Proof.
  intros Hmeta Hcwd Hid Hdir Hs Hr Hg.
  pose proof (GetCollector_named _ _ _ _ _ Hg) as Hne.
  apply GetCollector_inv in Hg as (Hfs & _ & data & cc & Hfs1 & Hfr & Hq & Hdec & ->).
  rewrite (definition_path_entry E Hcwd id Hid) in *.
  assert (filepath_Abs E (dir_prefix (filepath_Abs E (CONFIGURATIONS_DIR E))
                          +:+ id +:+ ".toml")
          = dir_prefix (filepath_Abs E (CONFIGURATIONS_DIR E)) +:+ id +:+ ".toml")
    as Hidem.
  { rewrite <-(definition_path_entry E Hcwd id Hid).
    by apply filepath_Abs_idemp. }
  rewrite Hidem in *.
  apply (GetCollectors_includes E Hcwd w1 (id +:+ ".toml") data cc);
    rewrite ?Hfs; try done.
  by apply definition_name_plain.
Qed.



(** The scan of the host: the file that is no TOML and the directory are
    passed over, each with its line in the log, and the five definitions
    are returned. *)
Example scan_of_the_host :
  ids_and_paths (GetCollectors host0 boot).1
  = [("bad", "/root/collectors.d/bad.toml");
     ("empty", "/root/collectors.d/empty.toml");
     ("mock", "/root/collectors.d/mock.toml");
     ("noexec", "/root/collectors.d/noexec.toml");
     ("other", "/root/collectors.d/stem.toml")] ∧
  log_msg <$> logs (GetCollectors host0 boot).2
  = ["collector parsed"; "collector parsed"; "cannot parse collector configuration";
     "collector 'collectors.d/garbage.toml' is malformed, skipping: cannot parse collector configuration";
     "collector parsed"; "collector parsed"; "collector parsed";
     "cannot read collector configuration";
     "collector 'collectors.d/sub' is malformed, skipping: cannot read collector configuration from '/root/collectors.d/sub'"].
Proof. split; vm_compute; reflexivity. Qed.

Lemma C8_loaded_one_witness :
  ∃ cs w2, GetCollectors host0 (loaded host0) = (Ok cs, w2) ∧ mock_loaded ∈ cs.
Proof.
  apply (C8_loaded_one_is_among_all host0 "mock" boot mock_loaded (loaded host0));
    vm_compute; reflexivity.
Defined.

(** C8 as the specification states it fails: an id may name a file further
    down, which [GetCollector] loads and the scan of the directory never
    reaches. No definition of the scan's result has the id asked for, the
    id of that document, or its path. *)
Lemma C8_nested_id_is_loaded_but_not_scanned :
  (GetCollector host0 "sub/x" boot).1
  = Ok (set_Generated_Path (mk_collector "nested" "echo hi")
          "/root/collectors.d/sub/x.toml") ∧
  ids_and_paths (GetCollectors host0 (GetCollector host0 "sub/x" boot).2).1
  = [("bad", "/root/collectors.d/bad.toml");
     ("empty", "/root/collectors.d/empty.toml");
     ("mock", "/root/collectors.d/mock.toml");
     ("noexec", "/root/collectors.d/noexec.toml");
     ("other", "/root/collectors.d/stem.toml")].
Proof. split; vm_compute; reflexivity. Qed.

(* ===================================================================== *)
(** * Further properties of the library *)
(* ===================================================================== *)

(** ** Loading reads and logs, and does nothing else *)

Lemma quiet_refl w : quiet w w.
Proof. by repeat split. Qed.

Lemma quiet_trans w1 w2 w3 : quiet w1 w2 → quiet w2 w3 → quiet w1 w3.
Proof.
  intros (Hf1 & Ht1 & Ho1 & Hl1) (Hf2 & Ht2 & Ho2 & Hl2).
  repeat split; [congruence..|by etrans].
Qed.

Lemma quiet_add_log r w : quiet w (add_log r w).
Proof. repeat split. simpl. by apply prefix_app_r. Qed.

Lemma newCollectorFromPath_quiet E p w :
  quiet w (newCollectorFromPath E p w).2.
Proof.
  unfold newCollectorFromPath, os_Stat, os_ReadFile, newCollectorFromConfiguration.
  munfold.
  destruct (decide (filepath_Abs E p = "")) as [Hz|Hz]; simpl; [apply quiet_add_log|].
  destruct (fault E OpStat _); simpl; [apply quiet_add_log|].
  destruct (fs w !! _) as [n|] eqn:Hq; simpl; [|apply quiet_add_log].
  destruct (fault E OpRead _); simpl; [apply quiet_add_log|].
  rewrite Hq. destruct n as [|data]; simpl; [apply quiet_add_log|].
  destruct (toml_Decode E data); simpl; apply quiet_add_log.
Qed.

Lemma ensureCollectorsDirectory_quiet E w :
  quiet w (ensureCollectorsDirectory E w).2.
Proof.
  unfold ensureCollectorsDirectory, os_Stat. munfold.
  destruct (decide (CONFIGURATIONS_DIR E = "")) as [Hz|Hz]; simpl; [apply quiet_add_log|].
  destruct (fault E OpStat _); simpl; [apply quiet_refl|].
  destruct (fs w !! _); simpl; [apply quiet_refl|apply quiet_add_log].
Qed.

Lemma GetCollector_quiet E id w : quiet w (GetCollector E id w).2.
Proof.
  unfold GetCollector, bind.
  pose proof (ensureCollectorsDirectory_quiet E w) as He.
  destruct (ensureCollectorsDirectory E w) as [[[]|e] w1]; [|done].
  eapply quiet_trans; [exact He|]. apply newCollectorFromPath_quiet.
Qed.

Lemma GetCollectors_loop_quiet E files : ∀ acc w,
  quiet w (GetCollectors_loop E files acc w).2.
Proof.
  induction files as [|file rest IH]; intros acc w; [apply quiet_refl|].
  cbn [GetCollectors_loop]. unfold bind at 1. unfold attempt at 1.
  pose proof (newCollectorFromPath_quiet E file w) as Hl.
  destruct (newCollectorFromPath E file w) as [[c|e] w1]; simpl in Hl.
  - eapply quiet_trans; [exact Hl|]. apply IH.
  - unfold bind, log_Printf, modify.
    eapply quiet_trans; [exact Hl|].
    eapply quiet_trans; [apply quiet_add_log|]. apply IH.
Qed.

Lemma filepath_Glob_same_world E pattern w :
  (filepath_Glob E pattern w).2 = w.
Proof.
  unfold filepath_Glob. destruct (filepath_Split pattern) as [dir file].
  destruct (_ || _); [done|].
  by destruct (glob_total E (cleanGlobPath dir) w) as [files ->].
Qed.

Lemma GetCollectors_quiet E w : quiet w (GetCollectors E w).2.
Proof.
  unfold GetCollectors. unfold bind at 1.
  pose proof (ensureCollectorsDirectory_quiet E w) as He.
  destruct (ensureCollectorsDirectory E w) as [[[]|e] w1]; [|done].
  simpl in He. eapply quiet_trans; [exact He|].
  unfold bind, attempt.
  pose proof (filepath_Glob_same_world E
                (filepath_Join [CONFIGURATIONS_DIR E; "*"]) w1) as Hg.
  destruct (filepath_Glob E _ w1) as [[files|e] w2]; simpl in Hg; subst w2.
  - apply GetCollectors_loop_quiet.
  - unfold log_Printf, modify. apply quiet_add_log.
Qed.

(** X1.  Loading definitions only reads and logs.  Whatever [GetCollector]
    and [GetCollectors] return, the file system, the clock and the
    standard output are as before, and the log has only grown. *)
Theorem X1_loading_only_reads_and_logs E id w :
  (fs (GetCollector E id w).2 = fs w ∧
   ticks (GetCollector E id w).2 = ticks w ∧
   stdout (GetCollector E id w).2 = stdout w ∧
   logs w `prefix_of` logs (GetCollector E id w).2) ∧
  (fs (GetCollectors E w).2 = fs w ∧
   ticks (GetCollectors E w).2 = ticks w ∧
   stdout (GetCollectors E w).2 = stdout w ∧
   logs w `prefix_of` logs (GetCollectors E w).2).
Proof. split; [apply GetCollector_quiet|apply GetCollectors_quiet]. Qed.

(** ** The errors of loading *)

Lemma os_Stat_files E p w0 w : fs w0 = fs w → (os_Stat E p w0).1 = (os_Stat E p w).1.
Proof.
  intros Hfs. unfold os_Stat. rewrite Hfs.
  destruct (decide (p = "")); [done|]. destruct (fault E OpStat _); [done|].
  by destruct (fs w !! _).
Qed.

Lemma os_ReadFile_files E p w0 w :
  fs w0 = fs w → (os_ReadFile E p w0).1 = (os_ReadFile E p w).1.
Proof.
  intros Hfs. unfold os_ReadFile. rewrite Hfs.
  destruct (fault E OpRead _); [done|]. by destruct (fs w !! _) as [[|data]|].
Qed.

(** The directory check, by what [os.Stat] answers. *)
Lemma ensureCollectorsDirectory_result E w :
  (ensureCollectorsDirectory E w).1
  = match (os_Stat E (CONFIGURATIONS_DIR E) w).1 with
    | Err e0 =>
        if os_IsNotExist e0
        then Err (errorString ("configuration directory '" +:+ CONFIGURATIONS_DIR E
                               +:+ "' not found"))
        else Ok tt
    | Ok _ => Ok tt
    end.
Proof.
  unfold ensureCollectorsDirectory. munfold.
  destruct (os_Stat E (CONFIGURATIONS_DIR E) w) as [[n|e0] w1]; simpl; [done|].
  by destruct (os_IsNotExist e0).
Qed.

(** The steps of loading a file, by what the file operations answer. *)
Lemma newCollectorFromPath_steps E p w :
  (newCollectorFromPath E p w).1
  = match (os_Stat E (filepath_Abs E p) w).1 with
    | Err _ => Err (errorString "no such collector")
    | Ok _ =>
        match (os_ReadFile E (filepath_Abs E p) w).1 with
        | Err _ =>
            Err (errorString ("cannot read collector configuration from '"
                              +:+ filepath_Abs E p +:+ "'"))
        | Ok data =>
            match toml_Decode E data with
            | None => Err (errorString "cannot parse collector configuration")
            | Some cc => Ok (set_Generated_Path cc (filepath_Abs E p))
            end
        end
    end.
Proof.
  unfold newCollectorFromPath, os_Stat, os_ReadFile, newCollectorFromConfiguration.
  munfold.
  destruct (decide (filepath_Abs E p = "")) as [Hz|Hz]; simpl; [done|].
  destruct (fault E OpStat _); simpl; [done|].
  destruct (fs w !! _) as [n|] eqn:Hq; simpl; [|done].
  destruct (fault E OpRead _); simpl; [done|].
  rewrite Hq. destruct n as [|data]; simpl; [done|].
  by destruct (toml_Decode E data).
Qed.

(** X2.  [GetCollector] fails in four ways and in no other, decided in
    this order.  It fails with [configuration directory '...' not found]
    exactly when [os.Stat] of the configured directory answers an error
    that [os.IsNotExist] accepts.  Otherwise it goes on to the file
    [<directory>/<id>.toml], made absolute, and fails with [no such
    collector] when [os.Stat] of the file answers any error; with [cannot
    read collector configuration from '<file>'] when the file is there
    and [os.ReadFile] answers any error; with [cannot parse collector
    configuration] when the TOML library refuses what was read.  The
    error of the operating system is part of none of them. *)
Theorem X2_GetCollector_fails_in_four_ways E id w e :
  let dir := CONFIGURATIONS_DIR E in
  let file := filepath_Abs E (filepath_Join [dir; id +:+ ".toml"]) in
  (GetCollector E id w).1 = Err e ↔
  (∃ e0, (os_Stat E dir w).1 = Err e0 ∧ os_IsNotExist e0 = true ∧
         e = errorString ("configuration directory '" +:+ dir +:+ "' not found"))
  ∨ ((∀ e0, (os_Stat E dir w).1 = Err e0 → os_IsNotExist e0 = false) ∧
     ((∃ e1, (os_Stat E file w).1 = Err e1 ∧ e = errorString "no such collector")
      ∨ (∃ n, (os_Stat E file w).1 = Ok n ∧
           ((∃ e1, (os_ReadFile E file w).1 = Err e1 ∧
                   e = errorString ("cannot read collector configuration from '"
                                    +:+ file +:+ "'"))
            ∨ (∃ data, (os_ReadFile E file w).1 = Ok data ∧
                       toml_Decode E data = None ∧
                       e = errorString "cannot parse collector configuration"))))).
Proof.
  intros dir file.
  pose proof (ensureCollectorsDirectory_result E w) as He.
  pose proof (ensureCollectorsDirectory_inv E w) as Hinv.
  unfold GetCollector, bind.
  destruct (ensureCollectorsDirectory E w) as [[[]|e'] w1]; simpl in He.
  - destruct (Hinv _ _ eq_refl) as [Hfs _].
    rewrite newCollectorFromPath_steps.
    rewrite (os_Stat_files E _ w1 w Hfs), (os_ReadFile_files E _ w1 w Hfs).
    fold dir in He.
    change (filepath_Abs E (filepath_Join [CONFIGURATIONS_DIR E; id +:+ ".toml"]))
      with file.
    assert (∀ e0, (os_Stat E dir w).1 = Err e0 → os_IsNotExist e0 = false) as Hdir.
    { intros e0 H0. rewrite H0 in He. by destruct (os_IsNotExist e0). }
    split.
    + intros Hres. right. split; [done|].
      destruct (os_Stat E file w).1 as [n|e1]; simpl in Hres;
        [|left; exists e1; by injection Hres as <-].
      right. exists n. split; [done|].
      destruct (os_ReadFile E file w).1 as [data|e1]; simpl in Hres;
        [|left; exists e1; by injection Hres as <-].
      right. exists data. destruct (toml_Decode E data); [done|].
      by injection Hres as <-.
    + intros [(e0 & H0 & Hno & _)|[_ Hfile]].
      { by rewrite (Hdir _ H0) in Hno. }
      destruct Hfile as [(e1 & -> & ->)|(n & -> & [(e1 & -> & ->)|(data & -> & -> & ->)])];
        done.
  - fold dir in He. simpl. split.
    + intros [= <-]. left.
      destruct (os_Stat E dir w).1 as [n|e0]; [done|]. exists e0.
      destruct (os_IsNotExist e0); [|done]. by injection He as ->.
    + intros [(e0 & H0 & Hno & ->)|[Hdir _]].
      * rewrite H0, Hno in He. by injection He as ->.
      * destruct (os_Stat E dir w).1 as [n|e0]; [done|].
        by rewrite (Hdir e0 eq_refl) in He.
Qed.

Lemma X2_GetCollector_fails_witness :
  (∃ e0, (os_Stat host0 (CONFIGURATIONS_DIR host0) boot).1 = Err e0 ∧
         os_IsNotExist e0 = true ∧
         errorString "no such collector"
         = errorString ("configuration directory '" +:+ CONFIGURATIONS_DIR host0
                        +:+ "' not found"))
  ∨ ((∀ e0, (os_Stat host0 (CONFIGURATIONS_DIR host0) boot).1 = Err e0 →
            os_IsNotExist e0 = false) ∧
     ((∃ e1, (os_Stat host0 "/root/collectors.d/absent.toml" boot).1 = Err e1 ∧
             errorString "no such collector" = errorString "no such collector")
      ∨ (∃ n, (os_Stat host0 "/root/collectors.d/absent.toml" boot).1 = Ok n ∧
           ((∃ e1, (os_ReadFile host0 "/root/collectors.d/absent.toml" boot).1 = Err e1 ∧
                   errorString "no such collector"
                   = errorString ("cannot read collector configuration from '"
                                  +:+ "/root/collectors.d/absent.toml" +:+ "'"))
            ∨ (∃ data, (os_ReadFile host0 "/root/collectors.d/absent.toml" boot).1
                       = Ok data ∧
                       toml_Decode host0 data = None ∧
                       errorString "no such collector"
                       = errorString "cannot parse collector configuration"))))).
Proof.
  apply (proj1 (X2_GetCollector_fails_in_four_ways host0 "absent" boot
                  (errorString "no such collector"))).
  vm_compute. reflexivity.
Defined.

(** ** A definition and the path it was read from *)

(** What is loaded from a file depends on the absolute path alone. *)
Lemma newCollectorFromPath_same_file E p1 p2 w :
  filepath_Abs E p1 = filepath_Abs E p2 →
  (newCollectorFromPath E p1 w).1 = (newCollectorFromPath E p2 w).1.
Proof.
  intros Heq. by rewrite !newCollectorFromPath_steps, Heq.
Qed.

Lemma newCollectorFromPath_Path E p w c w' :
  newCollectorFromPath E p w = (Ok c, w') → Path (Generated c) = filepath_Abs E p.
Proof.
  intros Hl. apply newCollectorFromPath_inv in Hl as (_ & _ & Hc).
  by destruct (Hc c eq_refl) as (data & cc & _ & _ & _ & _ & ->).
Qed.

(** X3.  A loaded definition holds the absolute path of its file, and
    loading from that path again, in the world the first loading left,
    gives the same definition. *)
Theorem X3_reload_from_the_recorded_path E p w c w' :
  filepath_IsAbs (cwd E) = true →
  newCollectorFromPath E p w = (Ok c, w') →
  filepath_IsAbs (Path (Generated c)) = true ∧
  (newCollectorFromPath E (Path (Generated c)) w').1 = Ok c.
Proof.
  intros Hcwd Hl.
  pose proof (newCollectorFromPath_Path _ _ _ _ _ Hl) as Hp.
  pose proof (newCollectorFromPath_inv _ _ _ _ _ Hl) as (Hfs & _ & _).
  split.
  - rewrite Hp. by apply filepath_Abs_IsAbs.
  - rewrite (newCollectorFromPath_result E _ w' w Hfs).
    rewrite (newCollectorFromPath_same_file E _ p).
    + by rewrite Hl.
    + rewrite Hp. by apply filepath_Abs_idemp.
Qed.

Lemma X3_reload_witness :
  filepath_IsAbs (Path (Generated mock_loaded)) = true ∧
  (newCollectorFromPath host0 (Path (Generated mock_loaded))
     (newCollectorFromPath host0 "collectors.d/mock.toml" boot).2).1 = Ok mock_loaded.
Proof.
  apply (X3_reload_from_the_recorded_path host0 "collectors.d/mock.toml" boot).
  - reflexivity.
  - vm_compute. reflexivity.
Defined.

(** What the scan returns was loaded from a file of the listing. *)
Lemma GetCollectors_Ok_inv E w cs w' :
  GetCollectors E w = (Ok cs, w') →
  ∃ files,
    (filepath_Glob E (filepath_Join [CONFIGURATIONS_DIR E; "*"]) w).1 = Ok files ∧
    (ensureCollectorsDirectory E w).1 = Ok tt ∧
    cs = omap (load E w) files.
Proof.
  unfold GetCollectors. unfold bind at 1.
  pose proof (ensureCollectorsDirectory_quiet E w) as (Hfs1 & _).
  destruct (ensureCollectorsDirectory E w) as [[[]|e] w1]; [|done].
  simpl in Hfs1. unfold bind, attempt.
  pose proof (filepath_Glob_same_world E
                (filepath_Join [CONFIGURATIONS_DIR E; "*"])) as Hsame.
  pose proof (Hsame w1) as Hg1. pose proof (Hsame w) as Hg.
  assert ((filepath_Glob E (filepath_Join [CONFIGURATIONS_DIR E; "*"]) w1).1
          = (filepath_Glob E (filepath_Join [CONFIGURATIONS_DIR E; "*"]) w).1) as Hres.
  { unfold filepath_Glob. destruct (filepath_Split _) as [dir file].
    destruct (_ || _); [simpl; by rewrite Hfs1|].
    unfold glob, os_Stat. munfold. rewrite Hfs1.
    destruct (decide (_ = "")) as [Hz|Hz]; [done|].
    destruct (fault E OpStat _); [done|].
    destruct (fs w !! _) as [[|data]|]; simpl; [|done..].
    destruct (fault E OpReaddir _); simpl; [done|]. by rewrite Hfs1. }
  destruct (filepath_Glob E _ w1) as [[files|e] w2]; simpl in Hg1, Hres; subst w2;
    [|done].
  destruct (GetCollectors_loop_spec E files [] w1) as (w3 & Hloop & _).
  rewrite Hloop. intros [= <- <-]. exists files. split; [done|]. split; [done|].
  simpl. by apply omap_load_same_files.
Qed.

Lemma load_Some E w file c :
  load E w file = Some c → (newCollectorFromPath E file w).1 = Ok c.
Proof. unfold load. by destruct (newCollectorFromPath E file w).1; intros [= ->]. Qed.

(** X4.  A definition the scan returns is the one [GetCollector] loads
    by any id that resolves to the same file: the two ways of loading
    agree on every file both reach. *)
Theorem X4_scanned_one_loads_by_id E w cs w' c id :
  GetCollectors E w = (Ok cs, w') →
  c ∈ cs →
  Path (Generated c) = definition_path E id →
  (GetCollector E id w).1 = Ok c.
Proof.
  intros Hscan Hin Hpath.
  apply GetCollectors_Ok_inv in Hscan as (files & _ & Hens & ->).
  apply list_elem_of_omap in Hin as (file & _ & Hload).
  apply load_Some in Hload.
  destruct (newCollectorFromPath E file w) as [r w1] eqn:Hl. simpl in Hload. subst r.
  pose proof (newCollectorFromPath_Path _ _ _ _ _ Hl) as Hp.
  unfold GetCollector, bind.
  pose proof (ensureCollectorsDirectory_quiet E w) as (Hfs & _).
  destruct (ensureCollectorsDirectory E w) as [[[]|e] w0]; [|done]. simpl in Hfs.
  rewrite (newCollectorFromPath_result E _ w0 w Hfs).
  rewrite (newCollectorFromPath_same_file E _ file).
  - by rewrite Hl.
  - fold (definition_path E id). congruence.
Qed.

Lemma X4_scanned_one_witness :
  (GetCollector host0 "mock" boot).1 = Ok mock_loaded.
Proof.
  apply (X4_scanned_one_loads_by_id host0 boot
           (match (GetCollectors host0 boot).1 with Ok cs => cs | Err _ => [] end)
           (GetCollectors host0 boot).2 mock_loaded "mock").
  - vm_compute. reflexivity.
  - vm_compute. do 2 (apply elem_of_cons; right). apply elem_of_cons. by left.
  - vm_compute. reflexivity.
Defined.

(** ** The order of the scan *)

Lemma strip_prefix_Some p k s : strip_prefix p k = Some s → k = p +:+ s.
Proof.
  revert k. induction p as [|a p IH]; intros k; simpl.
  - by intros [= ->].
  - destruct k as [|b k]; [done|].
    destruct (Ascii.eqb_spec a b) as [->|]; [|done].
    intros Hs. by rewrite (IH _ Hs).
Qed.

Lemma entry_name_Some d k n : entry_name d k = Some n → k = dir_prefix d +:+ n.
Proof.
  unfold entry_name. destruct (strip_prefix _ k) as [m|] eqn:Hs; [|done].
  apply strip_prefix_Some in Hs.
  destruct (decide _); [done|]. destruct (strings_ContainsByte m _); [done|].
  by intros [= <-].
Qed.

Lemma NoDup_omap_entry_name d (ks : list string) :
  NoDup ks → NoDup (omap (entry_name d) ks).
Proof.
  induction 1 as [|k ks Hk Hnd IH]; [constructor|].
  cbn [omap list_omap]. destruct (entry_name d k) as [n|] eqn:Hn; [|done].
  constructor; [|done]. intros Hin.
  apply list_elem_of_omap in Hin as (k' & Hk' & Hn').
  apply entry_name_Some in Hn, Hn'. by subst.
Qed.

Lemma sorted_names_NoDup (m : gmap string node) d : NoDup (sorted_names m d).
Proof.
  unfold sorted_names. rewrite merge_sort_Permutation.
  apply NoDup_omap_entry_name, NoDup_fst_map_to_list.
Qed.

Lemma sorted_names_sorted (m : gmap string node) d :
  StronglySorted String.le (sorted_names m d).
Proof. apply (StronglySorted_merge_sort String.le). Qed.

Lemma sorted_names_plain (m : gmap string node) d :
  Forall plain_name (sorted_names m d).
Proof.
  apply Forall_forall. intros n Hn.
  apply sorted_names_elem in Hn as (k & _ & Hk). by eapply entry_name_plain.
Qed.

Lemma Ascii_compare_refl a : Ascii.compare a a = Eq.
Proof. unfold Ascii.compare. apply N.compare_refl. Qed.

(** The order of two strings is that of what follows a common prefix. *)
Lemma String_le_prefix p a b : String.le a b → String.le (p +:+ a) (p +:+ b).
Proof.
  intros Hab. induction p as [|c p IH]; [done|].
  unfold String.le, String.leb in *. rewrite !string_app_cons. simpl.
  by rewrite Ascii_compare_refl.
Qed.

Lemma string_app_inj (p a b : string) : p +:+ a = p +:+ b → a = b.
Proof.
  induction p as [|c p IH]; [done|]. rewrite !string_app_cons. intros [= ?]. auto.
Qed.

Lemma StronglySorted_sublist {A} (R : relation A) (l1 l2 : list A) :
  l1 `sublist_of` l2 → StronglySorted R l2 → StronglySorted R l1.
Proof.
  induction 1 as [|x l1 l2 Hsub IH|x l1 l2 Hsub IH]; intros Hs; [done|..].
  - apply StronglySorted_inv in Hs as [Hs Hall]. constructor; [by apply IH|].
    apply Forall_forall. intros y Hy. rewrite Forall_forall in Hall.
    apply Hall. by eapply elem_of_sublist.
  - apply StronglySorted_inv in Hs as [Hs _]. by apply IH.
Qed.

(** The listing of a directory: nothing, or its entries by name. *)
Lemma glob_inv E dir w :
  (glob E dir w).1 = Ok [] ∨
  (glob E dir w).1
  = Ok ((λ n, filepath_Join [dir; n]) <$> sorted_names (fs w) (filepath_Abs E dir)).
Proof.
  unfold glob, os_Stat. munfold.
  destruct (decide (dir = "")) as [Hz|Hz]; simpl; [by left|].
  destruct (fault E OpStat _); simpl; [by left|].
  destruct (fs w !! _) as [[|data]|]; simpl; [|by left..].
  destruct (fault E OpReaddir _); [by left|by right].
Qed.

Section Order.

Context (E : Env).
Hypothesis cwd_rooted : filepath_IsAbs (cwd E) = true.

(** The paths of what loads from the entries of a directory, in the
    order of the entries. *)
Lemma loaded_paths_sublist w dir (names : list string) :
  Forall plain_name names →
  paths_of (omap (load E w) ((λ n, filepath_Join [dir; n]) <$> names))
  `sublist_of` ((λ n, dir_prefix (filepath_Abs E dir) +:+ n) <$> names).
Proof.
  induction 1 as [|n names Hn Hall IH]; [constructor|].
  cbn [fmap list_fmap omap list_omap].
  destruct (load E w (filepath_Join [dir; n])) as [c|] eqn:Hl.
  - apply load_Some in Hl.
    destruct (newCollectorFromPath E _ w) as [r w1] eqn:Hr. simpl in Hl. subst r.
    apply newCollectorFromPath_Path in Hr.
    unfold paths_of. cbn [fmap list_fmap]. rewrite Hr.
    rewrite (filepath_Abs_entry E cwd_rooted) by done.
    by apply sublist_skip.
  - by apply sublist_cons.
Qed.

Lemma scanned_paths_sublist w cs w' :
  hasMeta (CONFIGURATIONS_DIR E) = false →
  GetCollectors E w = (Ok cs, w') →
  ∃ names,
    StronglySorted String.le names ∧ NoDup names ∧ Forall plain_name names ∧
    paths_of cs `sublist_of`
      ((λ n, dir_prefix (filepath_Abs E (CONFIGURATIONS_DIR E)) +:+ n) <$> names).
Proof.
  intros Hmeta Hscan.
  apply GetCollectors_Ok_inv in Hscan as (files & Hglob & _ & ->).
  rewrite (filepath_Glob_scan _ _ Hmeta) in Hglob.
  destruct (glob_inv E (filepath_Clean (CONFIGURATIONS_DIR E)) w) as [Hg|Hg];
    rewrite Hglob in Hg; injection Hg as ->.
  - exists []. repeat split; constructor.
  - eexists. split; [apply sorted_names_sorted|].
    split; [apply sorted_names_NoDup|]. split; [apply sorted_names_plain|].
    rewrite <-(filepath_Abs_Clean E cwd_rooted (CONFIGURATIONS_DIR E)).
    apply loaded_paths_sublist, sorted_names_plain.
Qed.

End Order.

(** X5.  The scan returns the definitions in the byte order of their
    files' names, each file once at most, and every one of them from a
    file directly in the directory of definitions. *)
Theorem X5_scan_is_in_name_order E w cs w' :
  hasMeta (CONFIGURATIONS_DIR E) = false →
  filepath_IsAbs (cwd E) = true →
  GetCollectors E w = (Ok cs, w') →
  StronglySorted String.le (paths_of cs) ∧
  NoDup (paths_of cs) ∧
  ∀ c, c ∈ cs →
    ∃ n, plain_name n ∧
         Path (Generated c)
         = dir_prefix (filepath_Abs E (CONFIGURATIONS_DIR E)) +:+ n.
Proof.
  intros Hmeta Hcwd Hscan.
  destruct (scanned_paths_sublist E Hcwd w cs w' Hmeta Hscan)
    as (names & Hsorted & Hnd & Hplain & Hsub).
  set (g := λ n : string, dir_prefix (filepath_Abs E (CONFIGURATIONS_DIR E)) +:+ n) in *.
  split; [|split].
  - eapply StronglySorted_sublist; [exact Hsub|].
    eapply StronglySorted_fmap; [|exact Hsorted].
    intros a b. apply String_le_prefix.
  - eapply sublist_NoDup; [|exact Hsub].
    apply NoDup_fmap_2; [|done]. intros a b. apply string_app_inj.
  - intros c Hc.
    assert (Path (Generated c) ∈ g <$> names) as Hin.
    { eapply elem_of_sublist; [|exact Hsub].
      apply list_elem_of_fmap. by exists c. }
    apply list_elem_of_fmap in Hin as (n & -> & Hn).
    exists n. split; [|done]. rewrite Forall_forall in Hplain. by apply Hplain.
Qed.

Lemma X5_scan_order_witness :
  StronglySorted String.le
    ["/root/collectors.d/bad.toml"; "/root/collectors.d/empty.toml";
     "/root/collectors.d/mock.toml"; "/root/collectors.d/noexec.toml";
     "/root/collectors.d/stem.toml"] ∧
  NoDup
    ["/root/collectors.d/bad.toml"; "/root/collectors.d/empty.toml";
     "/root/collectors.d/mock.toml"; "/root/collectors.d/noexec.toml";
     "/root/collectors.d/stem.toml"] ∧
  ∀ c, c ∈ match (GetCollectors host0 boot).1 with Ok cs => cs | Err _ => [] end →
    ∃ n, plain_name n ∧
         Path (Generated c)
         = dir_prefix (filepath_Abs host0 (CONFIGURATIONS_DIR host0)) +:+ n.
Proof.
  apply (X5_scan_is_in_name_order host0 boot
           (match (GetCollectors host0 boot).1 with Ok cs => cs | Err _ => [] end)
           (GetCollectors host0 boot).2).
  - reflexivity.
  - reflexivity.
  - vm_compute. reflexivity.
Defined.

(** ** Nothing to scan *)




(** ** The last-run record *)

Lemma GetLastRun_quiet E c w : quiet w (GetLastRun E c w).2.
Proof.
  unfold GetLastRun, os_ReadFile. munfold.
  destruct (fault E OpRead _); [apply quiet_refl|].
  destruct (fs w !! _) as [[|data]|]; [apply quiet_refl| |apply quiet_refl].
  destruct (strconv_ParseInt data); [apply quiet_refl|apply quiet_add_log].
Qed.

Lemma SetLastRun_Ok_inv E c w w' :
  SetLastRun E c w = (Ok tt, w') →
  w' = set_fs <[filepath_Abs E (cache_file E c)
                := NFile (strconv_FormatInt (time_Unix (clock E (ticks w))))]> (tick w).
Proof.
  unfold SetLastRun, time_Now, os_WriteFile. munfold.
  destruct (fault E OpWrite _); [done|].
  by destruct (fs w !! _) as [[|data]|]; intros [= <-].
Qed.

(** X7.  What [SetLastRun] writes, [GetLastRun] reads back: after a
    [SetLastRun] that succeeded, [GetLastRun] returns the second of the
    clock reading [SetLastRun] made, for every time that fits 64 bits. *)
Theorem X7_SetLastRun_then_GetLastRun E c w w' :
  SetLastRun E c w = (Ok tt, w') →
  fault E OpRead (filepath_Abs E (cache_file E c)) = false →
  - 2 ^ 63 ≤ time_Unix (clock E (ticks w)) < 2 ^ 63 →
  GetLastRun E c w' = (Ok (time_Unix (clock E (ticks w))), w').
Proof.
  intros Hs Hr Hrange. apply SetLastRun_Ok_inv in Hs as ->.
  eapply GetLastRun_read; [done| |by apply strconv_ParseInt_FormatInt].
  simpl. by rewrite lookup_insert_eq.
Qed.

Lemma X7_SetLastRun_witness :
  GetLastRun host0 mock_loaded (SetLastRun host0 mock_loaded boot).2
  = (Ok (time_Unix (clock host0 (ticks boot))), (SetLastRun host0 mock_loaded boot).2).
Proof.
  apply (X7_SetLastRun_then_GetLastRun host0 mock_loaded boot).
  - vm_compute. reflexivity.
  - reflexivity.
  - split; [apply Z.leb_le|apply Z.ltb_lt]; vm_compute; reflexivity.
Defined.

Lemma ParseUint_loop_inr s : ∀ n v,
  ParseUint_loop s n = inr v →
  all_digits s = true ∧ (0 ≤ n ≤ maxUint64 → 0 ≤ v ≤ maxUint64).
Proof.
  induction s as [|ch r IH]; intros n v; cbn [ParseUint_loop all_digits].
  - by intros [= <-].
  - destruct (digit_of ch) as [d|] eqn:Hd; [|done].
    destruct (Z.leb_spec (maxUint64 `div` 10 + 1) n) as [|Hn]; [done|].
    destruct (Z.ltb_spec maxUint64 (n * 10 + d)) as [|Hn1]; [done|].
    intros Hloop. apply IH in Hloop as [Hall Hv]. split.
    + rewrite Hall, andb_true_r. by apply bool_decide_eq_true.
    + intros Hrange. apply Hv. split; [|done].
      unfold digit_of in Hd.
      destruct (_ && _) eqn:Hb; [|done]. injection Hd as <-.
      apply andb_true_iff in Hb as [Hlo%Z.leb_le _]. lia.
Qed.

Lemma strconv_ParseInt_Ok data i :
  strconv_ParseInt data = Ok i →
  - 2 ^ 63 ≤ i < 2 ^ 63 ∧
  ∃ sign digits,
    data = sign +:+ digits ∧ (sign = "" ∨ sign = "+" ∨ sign = "-") ∧
    digits ≠ "" ∧ all_digits digits = true.
Proof.
  unfold strconv_ParseInt. destruct data as [|ch r]; [done|].
  set (neg := Ascii.eqb ch "-").
  set (s := if Ascii.eqb ch "+" || neg then r else String ch r).
  destruct (strconv_ParseUint s) as [[]|un] eqn:Hp; [done..|].
  assert (s ≠ "") as Hs by (intros Heq; by rewrite Heq in Hp).
  assert (ParseUint_loop s 0 = inr un) as Hloop
    by (unfold strconv_ParseUint in Hp; by destruct s).
  apply ParseUint_loop_inr in Hloop as [Hall Hun].
  specialize (Hun ltac:(done)).
  assert (∃ sign, String ch r = sign +:+ s ∧ (sign = "" ∨ sign = "+" ∨ sign = "-") ∧
                  neg = bool_decide (sign = "-")) as (sign & Heq & Hsign & Hneg).
  { subst s neg. destruct (Ascii.eqb_spec ch "+") as [->|Hplus].
    - exists "+". by auto.
    - destruct (Ascii.eqb_spec ch "-") as [->|Hminus].
      + exists "-". by auto.
      + exists "". by auto. }
  change (2 ^ 63) with 9223372036854775808 in *.
  destruct neg; simpl.
  - destruct (Z.ltb_spec 9223372036854775808 un); [done|]. intros [= <-].
    split; [lia|]. by exists sign, s.
  - destruct (Z.leb_spec 9223372036854775808 un); [done|]. intros [= <-].
    split; [lia|]. by exists sign, s.
Qed.

(** X8.  [GetLastRun] returns a time only for a record that is an
    optional sign and then decimal digits, at least one and nothing
    else, no newline either; the time it returns fits 64 bits; and
    reading the record changes nothing. *)
Theorem X8_GetLastRun_reads_decimal_only E c w i w' :
  GetLastRun E c w = (Ok i, w') →
  w' = w ∧
  - 2 ^ 63 ≤ i < 2 ^ 63 ∧
  ∃ sign digits,
    fs w !! filepath_Abs E (cache_file E c) = Some (NFile (sign +:+ digits)) ∧
    (sign = "" ∨ sign = "+" ∨ sign = "-") ∧
    digits ≠ "" ∧ all_digits digits = true.
Proof.
  unfold GetLastRun, os_ReadFile. munfold.
  destruct (fault E OpRead _); [done|].
  destruct (fs w !! _) as [[|data]|]; [done| |done].
  destruct (strconv_ParseInt data) as [j|e] eqn:Hp; [|done].
  intros [= <- <-]. split; [done|].
  apply strconv_ParseInt_Ok in Hp as (Hrange & sign & digits & -> & Hsign & Hd & Hall).
  split; [done|]. by exists sign, digits.
Qed.

Lemma X8_GetLastRun_witness :
  (SetLastRun host0 mock_loaded boot).2 = (SetLastRun host0 mock_loaded boot).2 ∧
  - 2 ^ 63 ≤ 1700000000 < 2 ^ 63 ∧
  ∃ sign digits,
    fs (SetLastRun host0 mock_loaded boot).2
      !! filepath_Abs host0 (cache_file host0 mock_loaded)
    = Some (NFile (sign +:+ digits)) ∧
    (sign = "" ∨ sign = "+" ∨ sign = "-") ∧
    digits ≠ "" ∧ all_digits digits = true.
Proof.
  apply (X8_GetLastRun_reads_decimal_only host0 mock_loaded
           (SetLastRun host0 mock_loaded boot).2 1700000000
           (SetLastRun host0 mock_loaded boot).2).
  vm_compute. reflexivity.
Defined.

(** ** The id of a definition, where it is used *)




(** ** The directory of a collection *)

Lemma all_digits_pretty_N_go x s : all_digits (pretty_N_go x s) = all_digits s.
Proof.
  revert s. induction (N.lt_wf_0 x) as [x _ IH]; intros s.
  destruct (decide (x = 0)%N) as [->|Hx]; [done|].
  rewrite pretty_N_go_step by lia. rewrite IH by (apply N.div_lt; lia).
  cbn [all_digits]. rewrite bool_decide_eq_true_2; [done|apply pretty_N_char_digit].
Qed.

Lemma all_digits_pretty_N (x : N) : all_digits (pretty x) = true.
Proof.
  unfold pretty, pretty_N. case_decide; [done|]. by rewrite all_digits_pretty_N_go.
Qed.

Lemma all_digits_FormatInt i : 0 ≤ i → all_digits (strconv_FormatInt i) = true.
Proof.
  intros Hi. destruct i as [|p|p]; [done| |exfalso; lia].
  apply (all_digits_pretty_N (Npos p)).
Qed.

Lemma all_digits_no_byte s ch :
  all_digits s = true → digit_of ch = None → strings_ContainsByte s ch = false.
Proof.
  intros Hall Hch. induction s as [|a r IH]; [done|].
  cbn [all_digits] in Hall. apply andb_true_iff in Hall as [Ha%bool_decide_eq_true Hr].
  cbn [strings_ContainsByte]. rewrite (IH Hr), orb_false_r.
  destruct (Ascii.eqb_spec a ch) as [->|]; [by rewrite Hch in Ha|done].
Qed.

Lemma all_digits_nonempty_FormatInt i : strconv_FormatInt i ≠ "".
Proof.
  destruct (strconv_FormatInt_last i) as (ch & Hch & _). by eapply string_last_Some_ne.
Qed.

(** An id, a dash and digits can be read in one way only. *)
Lemma dash_digits_inj a1 : ∀ a2 d1 d2,
  all_digits d1 = true → all_digits d2 = true →
  a1 +:+ "-" +:+ d1 = a2 +:+ "-" +:+ d2 → a1 = a2 ∧ d1 = d2.
Proof.
  assert (∀ r d d', all_digits d' = true → d' ≠ r +:+ "-" +:+ d) as Hno.
  { intros r d d' Hall ->.
    apply (all_digits_no_byte _ "-") in Hall; [|done].
    rewrite strings_ContainsByte_app in Hall.
    apply orb_false_iff in Hall as [_ Hall]. by cbn in Hall. }
  induction a1 as [|x a1 IH]; intros a2 d1 d2 H1 H2.
  - destruct a2 as [|y a2].
    + change (String "-" d1 = String "-" d2 → "" = "" ∧ d1 = d2). by intros [= ->].
    + change (String "-" d1 = String y (a2 +:+ "-" +:+ d2) → "" = String y a2 ∧ d1 = d2).
      intros [= <- Heq]. by destruct (Hno a2 d2 d1 H1).
  - destruct a2 as [|y a2].
    + change (String x (a1 +:+ "-" +:+ d1) = String "-" d2 → String x a1 = "" ∧ d1 = d2).
      intros [= -> Heq]. by destruct (Hno a1 d1 d2 H2).
    + rewrite !string_app_cons. intros [= -> Heq].
      by destruct (IH _ _ _ H1 H2 Heq) as [-> ->].
Qed.

(** The name of a collection's directory is one element of a path. *)
Lemma collection_name_plain id i :
  strings_ContainsByte id Separator = false → 0 ≤ i →
  plain_name (id +:+ "-" +:+ strconv_FormatInt i).
Proof.
  intros Hid Hi.
  destruct (strconv_FormatInt_last i) as (ch & Hch & Hd).
  destruct (digit_of_not_sep _ Hd) as (_ & Hdot & _).
  assert (string_last (id +:+ "-" +:+ strconv_FormatInt i) = Some ch) as Hlast.
  { rewrite !string_last_app; [done|by eapply string_last_Some_ne|].
    by destruct (strconv_FormatInt i). }
  repeat split.
  - intros Heq. by rewrite Heq in Hlast.
  - intros Heq. rewrite Heq in Hlast. simpl in Hlast. congruence.
  - intros Heq. rewrite Heq in Hlast. simpl in Hlast. congruence.
  - rewrite !strings_ContainsByte_app, Hid. simpl.
    apply all_digits_no_byte; [by apply all_digits_FormatInt|done].
Qed.

(** The entries of one directory have different paths. *)
Lemma filepath_Join_inj d n1 n2 :
  plain_name n1 → plain_name n2 →
  filepath_Join [d; n1] = filepath_Join [d; n2] → n1 = n2.
Proof.
  intros Hn1 Hn2.
  assert (∀ n, plain_name n →
            ∃ pre, ∀ m, plain_name m →
              filepath_Join [d; m] = pre +:+ m) as Hshape.
  { intros _ _. destruct (decide (d = "")) as [->|Hd].
    - exists "". intros m Hm.
      rewrite filepath_Join_single by apply Hm.
      rewrite filepath_Clean_render. unfold Clean_stack.
      destruct (plain_name_relative m Hm) as [-> _].
      rewrite strings_Split_plain by apply Hm. simpl.
      by rewrite plain_name_step.
    - destruct (decide (filepath_Clean d = ".")).
      + exists "". intros m Hm. rewrite filepath_Join_pair, filepath_Clean_snoc by done.
        by destruct (decide (filepath_Clean d = ".")).
      + exists (dir_prefix (filepath_Clean d)). intros m Hm.
        rewrite filepath_Join_pair, filepath_Clean_snoc by done.
        by destruct (decide (filepath_Clean d = ".")). }
  destruct (Hshape n1 Hn1) as [pre Hpre].
  rewrite (Hpre n1 Hn1), (Hpre n2 Hn2). apply string_app_inj.
Qed.

(** X9.  The directory of a collection is named by the collector's id
    and the second alone: a second collection of the same collector in
    the same second is given the directory of the first, which is there
    already, and making it raises no error. *)
Theorem X9_same_second_same_directory E c w d w' :
  Collect E c w = (Ok d, w') →
  time_Unix (clock E (ticks w')) = time_Unix (clock E (ticks w)) →
  (∃ w1, generateCollectionDirectory E c w' = (Ok d, w1) ∧ fs w1 = fs w') ∧
  ∀ d2 w2, Collect E c w' = (Ok d2, w2) → d2 = d.
Proof.
  intros Hc Hsec.
  apply Collect_Ok_inv in Hc as (-> & _ & Hdir & _).
  assert (tempdir_at E c w' = tempdir_at E c w) as Hsame
    by (unfold tempdir_at; by rewrite Hsec).
  split.
  - unfold generateCollectionDirectory, time_Now, os_MkdirAll. munfold.
    change (filepath_Join _) with (tempdir_at E c w').
    rewrite Hsame, Hdir. simpl. by eexists.
  - intros d2 w2 Hc2. by apply Collect_Ok_inv in Hc2 as (-> & _).
Qed.

Lemma X9_same_second_witness :
  (∃ w1, generateCollectionDirectory host0 mock_loaded
           (Collect host0 mock_loaded boot).2 = (Ok "/tmp/mock-1700000000", w1) ∧
         fs w1 = fs (Collect host0 mock_loaded boot).2) ∧
  ∀ d2 w2, Collect host0 mock_loaded (Collect host0 mock_loaded boot).2 = (Ok d2, w2) →
           d2 = "/tmp/mock-1700000000".
Proof.
  apply (X9_same_second_same_directory host0 mock_loaded boot).
  - vm_compute. reflexivity.
  - vm_compute. reflexivity.
Defined.

(** X10.  Apart from that, the directories are distinct: for ids
    without a separator and times from 1970 on, two directories made by
    [generateCollectionDirectory] are the same only when both the ids and
    the seconds are. *)
Theorem X10_directories_differ_otherwise E c1 c2 w1 w2 d w1' w2' :
  strings_ContainsByte (ID (Meta c1)) Separator = false →
  strings_ContainsByte (ID (Meta c2)) Separator = false →
  0 ≤ time_Unix (clock E (ticks w1)) →
  0 ≤ time_Unix (clock E (ticks w2)) →
  generateCollectionDirectory E c1 w1 = (Ok d, w1') →
  generateCollectionDirectory E c2 w2 = (Ok d, w2') →
  ID (Meta c1) = ID (Meta c2) ∧
  time_Unix (clock E (ticks w1)) = time_Unix (clock E (ticks w2)).
Proof.
  intros Hid1 Hid2 Ht1 Ht2 Hg1 Hg2.
  apply generateCollectionDirectory_inv in Hg1 as (_ & _ & [([= Hd1] & _)|(? & _)]);
    [|done].
  apply generateCollectionDirectory_inv in Hg2 as (_ & _ & [([= Hd2] & _)|(? & _)]);
    [|done].
  rewrite Hd1 in Hd2. unfold tempdir_at in Hd2.
  apply filepath_Join_inj in Hd2; [|by apply collection_name_plain..].
  apply dash_digits_inj in Hd2 as [Hid Ht]; [|by apply all_digits_FormatInt..].
  split; [done|]. unfold strconv_FormatInt in Ht. by apply (inj pretty) in Ht.
Qed.

Lemma X10_directories_differ_witness :
  ID (Meta mock_loaded) = ID (Meta (mk_collector "mock" "true")) ∧
  time_Unix (clock host0 (ticks boot)) = time_Unix (clock host0 (ticks (tick boot))).
Proof.
  apply (X10_directories_differ_otherwise host0 mock_loaded (mk_collector "mock" "true")
           boot (tick boot) "/tmp/mock-1700000000"
           (generateCollectionDirectory host0 mock_loaded boot).2
           (generateCollectionDirectory host0 (mk_collector "mock" "true") (tick boot)).2).
  - reflexivity.
  - reflexivity.
  - apply Z.leb_le. vm_compute. reflexivity.
  - apply Z.leb_le. vm_compute. reflexivity.
  - vm_compute. reflexivity.
  - vm_compute. reflexivity.
Defined.

(* ===================================================================== *)
(** * Further properties of the [run] action *)
(* ===================================================================== *)

(** The collect step prints nothing. *)
Lemma Collect_stdout E c w : stdout (Collect E c w).2 = stdout w.
Proof.
  unfold Collect, generateCollectionDirectory, SetLastRun, time_Now,
    os_MkdirAll, os_WriteFile.
  munfold.
  repeat (match goal with
          | |- context [fault ?a ?b ?q] => destruct (fault a b q)
          | |- context [match ?m !! ?q with _ => _ end] =>
              destruct (m !! q) as [[|?]|]
          | |- context [exec_Run ?a ?b ?c ?d] =>
              destruct (exec_Run a b c d) as [[[?|] ?] ?]
          end; simpl; try done).
Qed.

(** A collection that fails after its directory was made leaves the
    directory. *)
Lemma Collect_Err_directory E c w e w' d w0 :
  Collect E c w = (Err e, w') →
  generateCollectionDirectory E c w = (Ok d, w0) →
  fs w' !! filepath_Abs E d = Some NDir.
Proof.
  intros Hc Hg. revert Hc. unfold Collect. munfold. rewrite Hg.
  apply generateCollectionDirectory_inv in Hg
    as (_ & _ & [([= ->] & Hdir & _)|(? & _)]); [|done].
  destruct (exec_Run _ _ _ _) as [[[e'|] out] err]; simpl.
  - by intros [= <- <-].
  - destruct (SetLastRun E c _) as [[[]|e'] w2]; by intros [= ].
Qed.

(** X12.  When the collect step of a run fails, the run returns its
    error, prints nothing and removes nothing, whatever the flags: the
    path it has to remove is the empty one.  A directory the collect
    step had made stays, and a run not asked to keep logs the empty path
    as wiped. *)
Theorem X12_failed_collect_removes_nothing E cmd w c w1 e w2 :
  GetCollector E (arg_collector cmd) w = (Ok c, w1) →
  Collect E c (tick w1) = (Err e, w2) →
  ∃ w',
    doRun E cmd w = (Err e, w') ∧
    fs w' = fs w2 ∧
    stdout w' = stdout w ∧
    (∀ d w0, generateCollectionDirectory E c (tick w1) = (Ok d, w0) →
             fs w' !! filepath_Abs E d = Some NDir) ∧
    (flag_keep cmd || flag_no_upload cmd = false →
     last (logs w') = Some (wiped_record "")).
Proof.
  intros Hg Hc.
  pose proof (GetCollector_quiet E (arg_collector cmd) w) as (_ & _ & Ho1 & _).
  rewrite Hg in Ho1. simpl in Ho1.
  pose proof (Collect_stdout E c (tick w1)) as Ho2.
  rewrite Hc in Ho2. simpl in Ho2.
  doRun_collected Hg Hc. unfold defer, fail.
  destruct (flag_keep cmd || flag_no_upload cmd) eqn:Hk; simpl.
  - eexists. split; [reflexivity|]. simpl. split; [done|].
    split; [congruence|]. split; [|done].
    intros d w0 Hgen. by eapply Collect_Err_directory.
  - eexists. split; [reflexivity|]. simpl. split; [done|].
    split; [congruence|]. split.
    + intros d w0 Hgen. by eapply Collect_Err_directory.
    + intros _. by rewrite last_snoc.
Qed.

Lemma X12_failed_collect_witness :
  ∃ w',
    doRun host0 (run_args "bad" false false) boot
    = (Err (errorString "could not run collector: exit status 1"), w') ∧
    fs w' = fs (Collect host0
                  (set_Generated_Path (mk_collector "bad" "false")
                     "/root/collectors.d/bad.toml")
                  (tick (GetCollector host0 "bad" boot).2)).2 ∧
    stdout w' = stdout boot ∧
    (∀ d w0,
       generateCollectionDirectory host0
         (set_Generated_Path (mk_collector "bad" "false") "/root/collectors.d/bad.toml")
         (tick (GetCollector host0 "bad" boot).2) = (Ok d, w0) →
       fs w' !! filepath_Abs host0 d = Some NDir) ∧
    (flag_keep (run_args "bad" false false) || flag_no_upload (run_args "bad" false false)
     = false →
     last (logs w') = Some (wiped_record "")).
Proof.
  apply (X12_failed_collect_removes_nothing host0 (run_args "bad" false false) boot
           (set_Generated_Path (mk_collector "bad" "false") "/root/collectors.d/bad.toml")
           (GetCollector host0 "bad" boot).2
           (errorString "could not run collector: exit status 1")).
  - vm_compute. reflexivity.
  - vm_compute. reflexivity.
Defined.

(** X13.  A run of a collector that cannot be loaded ends there: it
    returns the error of the loading, logged once more, and has read no
    clock, made no directory and printed nothing. *)
Theorem X13_run_of_a_collector_not_loaded E cmd w e w1 :
  GetCollector E (arg_collector cmd) w = (Err e, w1) →
  doRun E cmd w = (Err e, add_log (not_found_record e) w1) ∧
  fs w1 = fs w ∧ ticks w1 = ticks w ∧ stdout w1 = stdout w.
Proof.
  intros Hg.
  pose proof (GetCollector_quiet E (arg_collector cmd) w) as (Hfs & Ht & Ho & _).
  rewrite Hg in Hfs, Ht, Ho. simpl in *.
  split; [|done].
  unfold doRun. unfold bind at 1. unfold attempt at 1. by rewrite Hg.
Qed.

Lemma X13_run_not_loaded_witness :
  doRun host0 (run_args "absent" false false) boot
  = (Err (errorString "no such collector"),
     add_log (not_found_record (errorString "no such collector"))
       (GetCollector host0 "absent" boot).2) ∧
  fs (GetCollector host0 "absent" boot).2 = fs boot ∧
  ticks (GetCollector host0 "absent" boot).2 = ticks boot ∧
  stdout (GetCollector host0 "absent" boot).2 = stdout boot.
Proof.
  apply (X13_run_of_a_collector_not_loaded host0 (run_args "absent" false false) boot).
  vm_compute. reflexivity.
Defined.

Lemma doRun_report_printed cmd info cd ud keep upload d w :
  doRun_report cmd info cd ud keep upload d w
  = (Ok tt,
     add_output
       (printed cmd {| run_Collector := info; run_CollectDuration := cd;
                       run_UploadDuration := ud; run_Keep := keep;
                       run_KeepPath := if keep then d else "";
                       run_Upload := upload |}) w).
Proof.
  unfold doRun_report, printed, printRunJSON, printRunHuman, modify.
  by destruct (decide (flag_format cmd = "json")).
Qed.

(** The deferred removal of the directory makes no path and prints
    nothing. *)
Lemma doRun_wipe_tempdir_frame E keep d w :
  (∀ q, fs w !! q = None → fs (doRun_wipe_tempdir E keep d w).2 !! q = None) ∧
  stdout (doRun_wipe_tempdir E keep d w).2 = stdout w.
Proof.
  unfold doRun_wipe_tempdir, os_RemoveAll. munfold.
  destruct keep; [done|].
  destruct (decide (d = "")); [done|].
  destruct (endsWithDot d); [done|].
  destruct (fault E OpRemove _); [done|]. simpl. split; [|done].
  intros q Hq. apply map_lookup_filter_None. by left.
Qed.

(** X14.  A run that is to upload, whose collect step, packing and
    upload all succeed, succeeds and prints one summary: of the loaded
    definition, uploaded, kept as [--keep] says and with the path only
    when kept, and with the two durations read from the monotonic
    clock around the collect step and around the upload. *)
Theorem X14_uploading_run_prints_its_summary E cmd w c w1 d w2 a :
  flag_no_upload cmd = false →
  GetCollector E (arg_collector cmd) w = (Ok c, w1) →
  Collect E c (tick w1) = (Ok d, w2) →
  pack E d = Ok a →
  send E a (ContentType (Exec c)) = None →
  ∃ w' dto,
    doRun E cmd w = (Ok tt, w') ∧
    stdout w' = stdout w ++ [printed cmd dto] ∧
    run_Collector dto = info_of c ∧
    run_Upload dto = true ∧
    run_Keep dto = flag_keep cmd ∧
    run_KeepPath dto = (if flag_keep cmd then d else "") ∧
    run_CollectDuration dto
    = mono (clock E (ticks w2)) - mono (clock E (ticks w1)) ∧
    run_UploadDuration dto
    = mono (clock E (S (S (ticks w2)))) - mono (clock E (S (ticks w2))).
Proof.
  intros Hn Hg Hc Hp Hs.
  pose proof (GetCollector_quiet E (arg_collector cmd) w) as (_ & _ & Ho1 & _).
  rewrite Hg in Ho1. simpl in Ho1.
  pose proof (Collect_stdout E c (tick w1)) as Ho2.
  rewrite Hc in Ho2. simpl in Ho2.
  doRun_collected Hg Hc. rewrite Hn, orb_false_r. simpl.
  unfold defer at 1. rewrite (Compress_packed _ _ _ _ Hp).
  unfold defer at 1. unfold Upload. simpl. rewrite Hs. simpl.
  rewrite doRun_report_printed.
  eexists _, _. split; [reflexivity|]. split.
  - cbn [snd].
    match goal with
    | |- stdout (doRun_wipe_tempdir E ?k d ?w0).2 = _ =>
        destruct (doRun_wipe_tempdir_frame E k d w0) as [_ ->]
    end.
    match goal with
    | |- stdout (doRun_wipe_archive E a ?w0).2 = _ =>
        destruct (doRun_wipe_archive_frame E a w0) as (_ & _ & ->)
    end.
    simpl. rewrite Ho2, Ho1. reflexivity.
  - done.
Qed.

Lemma X14_uploading_run_witness :
  ∃ w' dto,
    doRun host0 (run_args "mock" false false) boot = (Ok tt, w') ∧
    stdout w' = stdout boot ++ [printed (run_args "mock" false false) dto] ∧
    run_Collector dto = info_of mock_loaded ∧
    run_Upload dto = true ∧
    run_Keep dto = flag_keep (run_args "mock" false false) ∧
    run_KeepPath dto
    = (if flag_keep (run_args "mock" false false) then "/tmp/mock-1700000000" else "") ∧
    run_CollectDuration dto
    = mono (clock host0 (ticks (collected host0)))
      - mono (clock host0 (ticks (loaded host0))) ∧
    run_UploadDuration dto
    = mono (clock host0 (S (S (ticks (collected host0)))))
      - mono (clock host0 (S (ticks (collected host0)))).
Proof.
  apply (X14_uploading_run_prints_its_summary host0 (run_args "mock" false false) boot
           mock_loaded (loaded host0) "/tmp/mock-1700000000" (collected host0)
           "/tmp/mock-1700000000.tar.xz");
    vm_compute; reflexivity.
Defined.

(** X15.  A run that has packed leaves no archive: however the upload
    ends and whether or not the output is kept, the archive is not there
    when the run completes, provided its removal does not fail. *)
Theorem X15_the_archive_is_always_removed E cmd w c w1 d w2 a r w' :
  flag_no_upload cmd = false →
  GetCollector E (arg_collector cmd) w = (Ok c, w1) →
  Collect E c (tick w1) = (Ok d, w2) →
  pack E d = Ok a →
  fault E OpRemove (filepath_Abs E a) = false →
  doRun E cmd w = (r, w') →
  fs w' !! filepath_Abs E a = None.
Proof.
  intros Hn Hg Hc Hp Hf.
  doRun_collected Hg Hc. rewrite Hn, orb_false_r. simpl.
  unfold defer at 1. rewrite (Compress_packed _ _ _ _ Hp).
  unfold defer at 1. unfold Upload. simpl.
  assert (∀ (k : bool) (w5 : World),
            fs w5 !! filepath_Abs E a = Some (NFile "") →
            fs (doRun_wipe_tempdir E k d (doRun_wipe_archive E a w5).2).2
              !! filepath_Abs E a = None) as Hclean.
  { intros k w5 Ha.
    destruct (doRun_wipe_tempdir_frame E k d (doRun_wipe_archive E a w5).2) as [Hnone _].
    apply Hnone. by eapply doRun_wipe_archive_gone. }
  destruct (send E a (ContentType (Exec c))) as [e|]; simpl.
  - intros [= <- <-]. apply Hclean. simpl. by rewrite lookup_insert_eq.
  - rewrite doRun_report_printed. intros [= <- <-]. apply Hclean.
    simpl. by rewrite lookup_insert_eq.
Qed.

Lemma X15_the_archive_witness :
  fs (doRun host_refusing (run_args "mock" true false) boot).2
    !! filepath_Abs host_refusing "/tmp/mock-1700000000.tar.xz" = None.
Proof.
  apply (X15_the_archive_is_always_removed host_refusing (run_args "mock" true false)
           boot mock_loaded (loaded host_refusing) "/tmp/mock-1700000000"
           (collected host_refusing) "/tmp/mock-1700000000.tar.xz"
           (doRun host_refusing (run_args "mock" true false) boot).1
           (doRun host_refusing (run_args "mock" true false) boot).2);
    vm_compute; reflexivity.
Defined.

(* ===================================================================== *)
(** * The actions [info], [list] and [timers] *)
(* ===================================================================== *)

Lemma NewCollectorInfoDTO_info_of c w : NewCollectorInfoDTO c w = (Ok (info_of c), w).
Proof. done. Qed.

(** X16.  [info] loads the named definition first.  When that fails it
    returns the error, logged once more; when it succeeds it prints the
    summary of the definition if the format is [json], and for any other
    format, the default too, fails as not implemented.  Nothing is
    printed but that summary. *)
Theorem X16_info_prints_json_only E cmd s :
  match GetCollector E (arg_collector cmd) (world s) with
  | (Ok c, w1) =>
      if decide (flag_format cmd = "json")
      then doInfo E cmd s
           = (Ok tt, {| world := w1;
                        console := console s ++ [PrintedInfoJSON (info_of c)] |})
      else doInfo E cmd s
           = (Err ErrorNotImplemented, {| world := w1; console := console s |})
  | (Err e, w1) =>
      doInfo E cmd s
      = (Err e, {| world := add_log (not_found_record e) w1; console := console s |})
  end.
Proof.
  destruct (GetCollector E (arg_collector cmd) (world s)) as [[c|e] w1] eqn:Hg.
  - destruct (decide (flag_format cmd = "json")) as [Hf|Hf];
      unfold doInfo, and_then, lift; unfold bind at 1; unfold attempt at 1;
      rewrite Hg; unfold bind, attempt, ret; rewrite NewCollectorInfoDTO_info_of;
      by destruct (decide (flag_format cmd = "json")).
  - unfold doInfo, and_then, lift. unfold bind at 1. unfold attempt at 1.
    by rewrite Hg.
Qed.

(** The loop of [doList] fills the entries from [i] on, one for each
    collector. *)
Lemma doList_loop_fills cs : ∀ (pre : list (option CollectorInfoDTO)) w,
  doList_loop (length pre) cs (pre ++ replicate (length cs) None) w
  = (Ok (pre ++ (Some ∘ info_of <$> cs)), w).
Proof.
  induction cs as [|c cs IH]; intros pre w; [done|].
  cbn [doList_loop]. unfold bind at 1. unfold attempt at 1.
  rewrite NewCollectorInfoDTO_info_of.
  cbn [length replicate fmap list_fmap].
  rewrite insert_app_r_alt by done. rewrite Nat.sub_diag. cbn [insert list_insert].
  specialize (IH (pre ++ [Some (info_of c)]) w).
  rewrite length_app, Nat.add_1_r, <-!app_assoc in IH. exact IH.
Qed.

Lemma printListHuman_rows_all cs :
  printListHuman_rows (Some ∘ info_of <$> cs) = Some (list_row <$> cs).
Proof.
  induction cs as [|c cs IH]; [done|].
  cbn [fmap list_fmap printListHuman_rows compose]. cbn [fmap] in IH. by rewrite IH.
Qed.

(** X17.  [list] prints one entry for every definition the scan
    returns, in the order of the scan, and never meets an entry left
    unset: in the format [json] the summaries, otherwise a table of ids
    and names.  It fails only when the scan does, with the error of the
    scan, and then prints nothing. *)
Theorem X17_list_prints_every_scanned_definition E cmd s :
  match GetCollectors E (world s) with
  | (Ok cs, w1) =>
      doList E cmd s
      = (Ok tt,
         {| world := w1;
            console :=
              console s ++
              [if decide (flag_format cmd = "json")
               then PrintedListJSON (Some ∘ info_of <$> cs)
               else PrintedTable ["ID"; "NAME"] (list_row <$> cs)] |})
  | (Err e, w1) =>
      doList E cmd s
      = (Err e, {| world := add_log (none_found_record e) w1; console := console s |})
  end.
Proof.
  destruct (GetCollectors E (world s)) as [[cs|e] w1] eqn:Hg;
    unfold doList, and_then, lift; unfold bind at 1; unfold attempt at 1;
    rewrite Hg; [|done].
  pose proof (doList_loop_fills cs [] w1) as Hfill.
  cbn [length app] in Hfill. rewrite Hfill.
  destruct (decide (flag_format cmd = "json")); [done|].
  unfold printListHuman. by rewrite printListHuman_rows_all.
Qed.

(** What [timers] shows for a collector depends on the files alone. *)
Lemma last_cell_same_files E w w' c : fs w = fs w' → last_cell E w c = last_cell E w' c.
Proof.
  intros Hfs. unfold last_cell.
  by rewrite (GetLastRun_same_entry E c w w') by (by rewrite Hfs).
Qed.

Lemma doPsHuman_loop_rows E cs : ∀ rows w,
  ∃ w', doPsHuman_loop E cs rows w = (Ok (rows ++ (timers_row E w <$> cs)), w') ∧
        quiet w w'.
Proof.
  induction cs as [|c cs IH]; intros rows w.
  - exists w. simpl. rewrite app_nil_r. split; [done|apply quiet_refl].
  - cbn [doPsHuman_loop]. unfold bind at 1. unfold attempt at 1.
    pose proof (GetLastRun_quiet E c w) as Hq.
    assert (last_cell E w c = match (GetLastRun E c w).1 with
                              | Ok i => Stamp i
                              | Err _ => Text "-"
                              end) as Hcell by done.
    destruct (GetLastRun E c w) as [r w1]. simpl in Hq, Hcell.
    destruct (IH (rows ++ [[Text (ID (Meta c));
                            match r with
                            | Ok lastTimestamp => Stamp lastTimestamp
                            | Err _ => Text "-"
                            end; Text ""]]) w1) as (w' & Hloop & Hq').
    exists w'. split; [|by eapply quiet_trans].
    rewrite Hloop. f_equal. f_equal. rewrite <-app_assoc. f_equal.
    cbn [fmap list_fmap app]. f_equal.
    + unfold timers_row. rewrite Hcell. by destruct r.
    + apply list_fmap_ext. intros _ c' _. unfold timers_row. f_equal. f_equal.
      apply last_cell_same_files. by destruct Hq as [-> _].
Qed.

(** X18.  [timers] in the format [json] fails as not implemented and
    does not look at anything.  Otherwise it scans the definitions and
    prints a table with one row for every definition, in the order of
    the scan: the id and the time of the last-run record, or a dash
    where [GetLastRun] gives an error; then an empty line and a hint.
    It changes no file, and fails only when the scan does. *)
Theorem X18_timers_rows E cmd s :
  if decide (flag_format cmd = "json")
  then doPs E cmd s = (Err ErrorNotImplemented, s)
  else
    match GetCollectors E (world s) with
    | (Ok cs, w1) =>
        ∃ w2,
          doPs E cmd s
          = (Ok tt,
             {| world := w2;
                console :=
                  console s ++
                  [PrintedTable ["ID"; "LAST"; "NEXT"] (timers_row E w1 <$> cs);
                   PrintedLine ""; PrintedLine timers_hint] |}) ∧
          fs w2 = fs (world s) ∧ quiet w1 w2
    | (Err e, w1) => doPs E cmd s = (Err e, {| world := w1; console := console s |})
    end.
Proof.
  unfold doPs. destruct (decide (flag_format cmd = "json")); [done|].
  pose proof (GetCollectors_quiet E (world s)) as (Hfs & _).
  destruct (GetCollectors E (world s)) as [[cs|e] w1] eqn:Hg;
    unfold doPsHuman, and_then, lift; unfold bind at 1; rewrite Hg; [|done].
  simpl in Hfs.
  destruct (doPsHuman_loop_rows E cs [] w1) as (w2 & -> & Hq).
  exists w2. split; [|split; [|done]].
  - unfold emit. simpl. by rewrite <-!app_assoc.
  - destruct Hq as [-> _]. done.
Qed.

(** The two tables on the host: every definition that loads has its row,
    and the one that was run has its time. *)
Example tables_of_the_host :
  console (doList host0 (plain_args "") session0).2
  = [PrintedTable ["ID"; "NAME"]
       [[Text "bad"; Text ""]; [Text "empty"; Text ""]; [Text "mock"; Text ""];
        [Text "noexec"; Text ""]; [Text "other"; Text ""]]] ∧
  console (doPs host0 (plain_args "") session_collected).2
  = [PrintedTable ["ID"; "LAST"; "NEXT"]
       [[Text "bad"; Text "-"; Text ""]; [Text "empty"; Text "-"; Text ""];
        [Text "mock"; Stamp 1700000000; Text ""];
        [Text "noexec"; Text "-"; Text ""]; [Text "other"; Text "-"; Text ""]];
     PrintedLine ""; PrintedLine timers_hint] ∧
  (doInfo host0 (plain_args "mock") session0).1 = Err ErrorNotImplemented.
Proof. repeat split; vm_compute; reflexivity. Qed.

(* ===================================================================== *)
(** * The command and the id, as they are taken *)
(* ===================================================================== *)






(** ** An id with dots *)

Lemma filepath_Clean_join_clean_l a b :
  a ≠ "" →
  filepath_Clean (filepath_Clean a +:+ "/" +:+ b) = filepath_Clean (a +:+ "/" +:+ b).
Proof.
  intros Ha. pose proof (filepath_Clean_nonempty a) as Hca.
  rewrite (filepath_Clean_render (_ +:+ "/" +:+ b)),
          (filepath_Clean_render (a +:+ "/" +:+ b)).
  rewrite !filepath_IsAbs_app, filepath_Clean_IsAbs by done. f_equal.
  unfold Clean_stack. rewrite !filepath_IsAbs_app, filepath_Clean_IsAbs by done.
  change (filepath_Clean a +:+ "/" +:+ b)
    with (filepath_Clean a +:+ String Separator b).
  change (a +:+ "/" +:+ b) with (a +:+ String Separator b).
  rewrite !strings_Split_concat, !fold_left_app. f_equal.
  pose proof (Clean_stack_Clean a) as Hst. unfold Clean_stack in Hst.
  by rewrite filepath_Clean_IsAbs in Hst.
Qed.

(** An element after [..] is an element of the parent. *)
Lemma filepath_Join_up d m :
  m ≠ "" →
  filepath_Join [d; "../" +:+ m] = filepath_Join [filepath_Join [d; ".."]; m].
Proof.
  intros Hm. destruct (decide (d = "")) as [->|Hd].
  - rewrite (filepath_Join_single ".."), (filepath_Join_single ("../" +:+ m)) by done.
    change (filepath_Clean "..") with "..". by rewrite filepath_Join_pair.
  - rewrite (filepath_Join_pair d ".."), (filepath_Join_pair d) by done.
    rewrite filepath_Join_pair by apply filepath_Clean_nonempty.
    rewrite filepath_Clean_join_clean_l by (by destruct d).
    by rewrite !string_app_assoc.
Qed.

(** X20.  The id is not confined to the directory of definitions: it is
    joined to the directory as a path, so the id [../n] names the file
    [n.toml] of the parent directory, and a definition it loads is read
    from there. *)
Theorem X20_an_id_with_dots_leaves_the_directory E n w c w' :
  filepath_IsAbs (cwd E) = true →
  strings_ContainsByte n Separator = false →
  GetCollector E ("../" +:+ n) w = (Ok c, w') →
  let parent := filepath_Abs E (filepath_Join [CONFIGURATIONS_DIR E; ".."]) in
  Path (Generated c) = dir_prefix parent +:+ n +:+ ".toml" ∧
  ∃ data cc,
    fs w !! (dir_prefix parent +:+ n +:+ ".toml") = Some (NFile data) ∧
    toml_Decode E data = Some cc ∧
    c = set_Generated_Path cc (dir_prefix parent +:+ n +:+ ".toml").
Proof.
  intros Hcwd Hn Hg parent.
  assert (definition_path E ("../" +:+ n) = dir_prefix parent +:+ n +:+ ".toml") as Hpath.
  { unfold definition_path.
    replace (("../" +:+ n) +:+ ".toml") with ("../" +:+ (n +:+ ".toml"))
      by (by rewrite string_app_assoc).
    rewrite filepath_Join_up by (by destruct n).
    apply (filepath_Abs_entry E Hcwd). by apply definition_name_plain. }
  apply GetCollector_inv in Hg as (_ & _ & data & cc & _ & _ & Hq & Hd & ->).
  rewrite Hpath in *. split; [done|].
  exists data, cc. split; [|done].
  rewrite <-Hq. f_equal. rewrite <-Hpath. symmetry. by apply filepath_Abs_idemp.
Qed.

Lemma X20_an_id_with_dots_witness :
  Path (Generated (set_Generated_Path (mk_collector "mock" "echo hi") "/root/outside.toml"))
  = dir_prefix (filepath_Abs host0 (filepath_Join [CONFIGURATIONS_DIR host0; ".."]))
    +:+ "outside" +:+ ".toml" ∧
  ∃ data cc,
    fs boot_outside
      !! (dir_prefix (filepath_Abs host0 (filepath_Join [CONFIGURATIONS_DIR host0; ".."]))
          +:+ "outside" +:+ ".toml") = Some (NFile data) ∧
    toml_Decode host0 data = Some cc ∧
    set_Generated_Path (mk_collector "mock" "echo hi") "/root/outside.toml"
    = set_Generated_Path cc
        (dir_prefix (filepath_Abs host0 (filepath_Join [CONFIGURATIONS_DIR host0; ".."]))
         +:+ "outside" +:+ ".toml").
Proof.
  apply (X20_an_id_with_dots_leaves_the_directory host0 "outside" boot_outside
           (set_Generated_Path (mk_collector "mock" "echo hi") "/root/outside.toml")
           (GetCollector host0 "../outside" boot_outside).2).
  - reflexivity.
  - reflexivity.
  - vm_compute. reflexivity.
Defined.

(* ===================================================================== *)
(** * The errors of the scan and of the collection's directory *)
(* ===================================================================== *)

(** X21.  For a directory of definitions whose name has no pattern byte
    the scan fails in one way only, and in that way always: when
    [os.Stat] of the directory, as it is configured, answers an error
    that [os.IsNotExist] accepts.  The error names the directory as it is
    configured, and the same line is the last of the log. *)
Theorem X21_scan_fails_only_without_directory E w e :
  hasMeta (CONFIGURATIONS_DIR E) = false →
  ((GetCollectors E w).1 = Err e ↔
   ∃ e0, (os_Stat E (CONFIGURATIONS_DIR E) w).1 = Err e0 ∧
         os_IsNotExist e0 = true ∧
         e = errorString ("configuration directory '" +:+ CONFIGURATIONS_DIR E
                          +:+ "' not found")) ∧
  ((GetCollectors E w).1 = Err e →
   last (log_msg <$> logs (GetCollectors E w).2) = Some (Error e)).
Proof.
  intros Hmeta.
  pose proof (ensureCollectorsDirectory_result E w) as He.
  destruct (ensureCollectorsDirectory E w) as [[[]|e'] w1] eqn:Hens; simpl in He.
  - assert (∃ cs w3, GetCollectors E w = (Ok cs, w3)) as (cs & w3 & ->).
    { unfold GetCollectors. unfold bind at 1. rewrite Hens.
      unfold bind, attempt. rewrite (filepath_Glob_scan _ _ Hmeta).
      destruct (glob_total E (filepath_Clean (CONFIGURATIONS_DIR E)) w1) as [files ->].
      destruct (GetCollectors_loop_spec E files [] w1) as (w3 & -> & _).
      by eexists _, _. }
    simpl. split; [split; [done|]|done].
    intros (e0 & H0 & Hno & _). rewrite H0, Hno in He. done.
  - assert (GetCollectors E w = (Err e', w1)) as ->.
    { unfold GetCollectors. unfold bind at 1. by rewrite Hens. }
    simpl.
    assert (e' = errorString ("configuration directory '" +:+ CONFIGURATIONS_DIR E
                              +:+ "' not found") ∧
            ∃ e0, (os_Stat E (CONFIGURATIONS_DIR E) w).1 = Err e0 ∧
                  os_IsNotExist e0 = true) as [-> Hstat].
    { destruct (os_Stat E (CONFIGURATIONS_DIR E) w).1 as [n|e0]; [done|].
      destruct (os_IsNotExist e0) eqn:Hno; [|done].
      injection He as ->. split; [done|]. by exists e0. }
    split; [split|].
    + intros [= <-]. destruct Hstat as (e0 & H0 & Hno). by exists e0.
    + by intros (e0 & _ & _ & ->).
    + intros [= <-]. revert Hens. unfold ensureCollectorsDirectory. munfold.
      destruct (os_Stat E (CONFIGURATIONS_DIR E) w) as [[n|e0] w0]; simpl; [done|].
      destruct (os_IsNotExist e0); [|done]. intros [= <-]. simpl.
      rewrite fmap_app. cbn [fmap list_fmap]. by rewrite last_snoc.
Qed.

Lemma X21_scan_fails_witness :
  ((GetCollectors host0 (set_fs (λ _, ∅) boot)).1
   = Err (errorString "configuration directory './collectors.d/' not found") ↔
   ∃ e0, (os_Stat host0 (CONFIGURATIONS_DIR host0) (set_fs (λ _, ∅) boot)).1 = Err e0 ∧
         os_IsNotExist e0 = true ∧
         errorString "configuration directory './collectors.d/' not found"
         = errorString ("configuration directory '" +:+ CONFIGURATIONS_DIR host0
                        +:+ "' not found")) ∧
  ((GetCollectors host0 (set_fs (λ _, ∅) boot)).1
   = Err (errorString "configuration directory './collectors.d/' not found") →
   last (log_msg <$> logs (GetCollectors host0 (set_fs (λ _, ∅) boot)).2)
   = Some (Error (errorString "configuration directory './collectors.d/' not found"))).
Proof.
  apply (X21_scan_fails_only_without_directory host0 (set_fs (λ _, ∅) boot)
           (errorString "configuration directory './collectors.d/' not found")).
  reflexivity.
Defined.

(** With no name for the directory of definitions nothing is scanned
    and nothing is loaded: [os.Stat] of the empty path finds no file,
    even though there are files in the working directory. *)
Example scan_without_a_name :
  (GetCollectors host_unnamed boot_outside).1
  = Err (errorString "configuration directory '' not found") ∧
  (GetCollector host_unnamed "outside" boot_outside).1
  = Err (errorString "configuration directory '' not found").
Proof. split; vm_compute; reflexivity. Qed.



(* ===================================================================== *)
(** * What the scan returns and no id loads *)
(* ===================================================================== *)









(* ===================================================================== *)
(** * The standard output of the command *)
(* ===================================================================== *)

Lemma exec_Run_silenced E name args env :
  (exec_Run (silenced E) name args env).1.1 = (exec_Run E name args env).1.1 ∧
  (exec_Run (silenced E) name args env).2 = (exec_Run E name args env).2.
Proof.
  unfold exec_Run. destruct (decide (name = "")); [done|].
  change (spawn (silenced E) name args env)
    with (match spawn E name args env with
          | StartFailed msg => StartFailed msg
          | Exited code _ err => Exited code "" err
          end).
  by destruct (spawn E name args env).
Qed.

Lemma Collect_silenced E c w : Collect (silenced E) c w = Collect E c w.
Proof.
  unfold Collect, bind.
  change (generateCollectionDirectory (silenced E) c w)
    with (generateCollectionDirectory E c w).
  destruct (generateCollectionDirectory E c w) as [[d|e] w1]; [|done].
  unfold slog, modify.
  change (os_Environ (silenced E)) with (os_Environ E).
  destruct (exec_Run_silenced E (command_name c) (command_args c)
              (os_Environ E ++ [COLLECTIONS_DIR_ENVVAR +:+ "=" +:+ d])) as [Herr Hstderr].
  destruct (exec_Run (silenced E) _ _ _) as [[e1 o1] s1].
  destruct (exec_Run E _ _ _) as [[e2 o2] s2].
  simpl in Herr, Hstderr. subst. done.
Qed.

(** X24.  The standard output of the command is captured and never
    looked at: a collection, and a whole run, are the same, in what they
    return and in every part of the world they leave, as with a command
    that writes nothing there. *)
Theorem X24_the_commands_output_is_dropped E c cmd w :
  Collect (silenced E) c w = Collect E c w ∧
  doRun (silenced E) cmd w = doRun E cmd w.
Proof.
  split; [apply Collect_silenced|].
  unfold doRun, bind, attempt.
  change (GetCollector (silenced E)) with (GetCollector E).
  destruct (GetCollector E (arg_collector cmd) w) as [[collector|e] w1]; [|done].
  destruct (NewCollectorInfoDTO collector w1) as [[info|e] w2]; [|done].
  change (time_Now (silenced E)) with (time_Now E).
  destruct (time_Now E w2) as [[t|e] w3]; [|done].
  rewrite Collect_silenced. reflexivity.
Qed.
